(** * Server reward system: gacha rolls, pity counters, reward expansion,
      grant simulation and inventory commits.

    Shallow embedding of
      RewardSystem/ServerRewardSystem_Gacha.cpp
      RewardSystem/ServerRewardSystem_Inventory.cpp

    Conventions.
    - [int32] values are modelled by [Z].  Signed overflow is undefined in
      the source language; every statement below is about runs in which the
      arithmetic stays inside the [int32] range.
    - [FName] row names are modelled by strings, [NAME_None] by the empty
      string; two names are equal when the strings are (the engine's
      interning of names is outside the model).
    - The records follow the fields that the two files read; the headers
      that declare them are not among the sources.
    - A pointer that the source tests against [nullptr] is an [option].
    - [FMath::RandRange], [FMath::Clamp], [FMath::Min] and [FMath::Abs]
      belong to the engine; they are modelled in [Module FMath].  A random
      draw is a function of a raw sample that the caller supplies, so that
      every run of the code is a run of the model for some samples. *)

From Stdlib Require Import ZArith List String Bool Lia.
Import ListNotations.
Open Scope Z_scope.

(** ** Engine helpers *)

Module FMath.

(** [FMath::RandRange(Min, Max)] is [Min + RandHelper(Max - Min + 1)] and
    [RandHelper(A)] lies in [0, A-1] when [A > 0] and is [0] otherwise.
    [sample] is the raw random value behind [RandHelper]. *)
Definition RandRange (Min Max : Z) (sample : Z) : Z :=
  let Range := Max - Min + 1 in
  if 0 <? Range then Min + sample mod Range else Min.

(** [FMath::Clamp(X, Min, Max)] is [Max(Min(X, MaxValue), MinValue)]. *)
Definition Clamp (X MinValue MaxValue : Z) : Z :=
  Z.max (Z.min X MaxValue) MinValue.

Definition Min (A B : Z) : Z := Z.min A B.
Definition Abs (A : Z) : Z := Z.abs A.

End FMath.

(** ** Data model *)

Definition FName := string.
Definition NAME_None : FName := EmptyString.

(** The enumerators of [EReward] that the sources mention. *)
Inductive EReward : Type :=
| EReward_None
| EReward_Currency
| EReward_Item
| EReward_PlayerCharacter
| EReward_RewardData
| EReward_Gacha.

Definition EReward_eqb (a b : EReward) : bool :=
  match a, b with
  | EReward_None, EReward_None
  | EReward_Currency, EReward_Currency
  | EReward_Item, EReward_Item
  | EReward_PlayerCharacter, EReward_PlayerCharacter
  | EReward_RewardData, EReward_RewardData
  | EReward_Gacha, EReward_Gacha => true
  | _, _ => false
  end.

(** [ERewardSource]: only [ERewardSource::None] is named by the sources; any
    other acquisition source is kept apart by a tag. *)
Inductive ERewardSource : Type :=
| ERewardSource_None
| ERewardSource_Other (tag : nat).

Definition ERewardSource_eqb (a b : ERewardSource) : bool :=
  match a, b with
  | ERewardSource_None, ERewardSource_None => true
  | ERewardSource_Other x, ERewardSource_Other y => Nat.eqb x y
  | _, _ => false
  end.

Record FRewardHandler : Type := mkReward {
  RewardType : EReward;
  TypeRowName : FName;
  Amount : Z;
  AcquireSource : ERewardSource
}.

(** [FRewardHandler(EReward::None, NAME_None, 0)] *)
Definition NoReward : FRewardHandler :=
  mkReward EReward_None NAME_None 0 ERewardSource_None.

Record URewardGachaRandomData : Type := mkGachaRandom {
  Weight : Z;
  PickupGroup : Z;
  Reward : FRewardHandler
}.

Record URewardRandomData : Type := mkRandom {
  RandomWeight : Z;
  RandomReward : FRewardHandler
}.

Record URewardData : Type := mkRewardData {
  RewardGroupName : FName;
  GachaRandoms : list URewardGachaRandomData;
  TotalGachaWeight : Z;
  Statics : list FRewardHandler;
  Randoms : list URewardRandomData;
  TotalWeight : Z
}.

Record FGachaCampaignData : Type := mkCampaign {
  RewardGroupRowName : FName;
  NormalPickupGroup : Z;
  SpecialPickupGroup : Z;
  SpecialTryCount : Z
}.

(** ** Weighted roller and pickup subset (ServerRewardSystem_Gacha.cpp) *)

Module Gacha.

(** The entries that [AddPickupReward] collects: [PickupGroup >= InPickupGroup].
    The entries of a table are objects, never null: [RollRandomReward]
    dereferences them unchecked. *)
Definition PickupCandidates (InRewardData : URewardData) (InPickupGroup : Z)
  : list URewardGachaRandomData :=
  filter (fun Data => InPickupGroup <=? PickupGroup Data)
         (GachaRandoms InRewardData).

(** [AddPickupReward]: uniform choice among the candidates; the [None]
    sentinel when the table is missing or no entry qualifies. *)
Definition AddPickupReward (InRewardData : option URewardData)
           (InPickupGroup : Z) (sample : Z) : FRewardHandler :=
  match InRewardData with
  | None => NoReward
  | Some Data =>
      let GachaRandomsData := PickupCandidates Data InPickupGroup in
      match GachaRandomsData with
      | [] => NoReward
      | first :: _ =>
          let Index :=
            FMath.RandRange 0 (Z.of_nat (List.length GachaRandomsData) - 1) sample in
          Reward (nth (Z.to_nat Index) GachaRandomsData first)
      end
  end.

(** The loop of [RollRandomReward]: the first entry whose cumulative weight
    reaches the draw. *)
Fixpoint WalkWeights (entries : list URewardGachaRandomData)
         (CurrentWeight RandomNumber : Z) : option URewardGachaRandomData :=
  match entries with
  | [] => None
  | GachaReward :: rest =>
      let CurrentWeight := CurrentWeight + Weight GachaReward in
      if RandomNumber <=? CurrentWeight then Some GachaReward
      else WalkWeights rest CurrentWeight RandomNumber
  end.

(** [RollRandomReward] once [RandomNumber] is drawn.  [OutPickupGroup] is a
    reference parameter: it keeps the caller's value when no entry is hit. *)
Definition RollWithDraw (InRewardData : URewardData) (OutPickupGroup : Z)
           (RandomNumber : Z) : FRewardHandler * Z :=
  match WalkWeights (GachaRandoms InRewardData) 0 RandomNumber with
  | Some GachaReward => (Reward GachaReward, PickupGroup GachaReward)
  | None => (NoReward, OutPickupGroup)
  end.

Definition RollRandomReward (InRewardData : URewardData) (OutPickupGroup : Z)
           (sample : Z) : FRewardHandler * Z :=
  RollWithDraw InRewardData OutPickupGroup
    (FMath.RandRange 1 (TotalGachaWeight InRewardData) sample).

Definition SumWeights (entries : list URewardGachaRandomData) : Z :=
  fold_right (fun e acc => Weight e + acc) 0 entries.

(** *** Pity engine: one iteration of the draw loop of [OnPostGive_Gacha] *)

(** The counters that the system object carries from draw to draw. *)
Record PityCounters : Type := mkCounters {
  TotalPickupCount : Z;
  NormalPickupCounter : Z;
  SpecialPickupCounter : Z
}.

(** The two guards of the loop body, read after the three increments. *)
Definition SpecialPityDue (Campaign : FGachaCampaignData) (st : PityCounters) : bool :=
  (0 <? SpecialPickupGroup Campaign)
  && (SpecialTryCount Campaign <=? SpecialPickupCounter st + 1).

Definition NormalPityDue (Campaign : FGachaCampaignData) (st : PityCounters) : bool :=
  (0 <? NormalPickupGroup Campaign) && (10 <=? NormalPickupCounter st + 1).

(** The loop body: counters before the draw and the sample of the draw's
    single [RandRange] call give the counters after it and the handler
    that is emplaced.  Both pity branches set [bSucceed], so the normal roll
    is what remains when neither guard holds. *)
Definition DrawOnce (RewardData : URewardData) (Campaign : FGachaCampaignData)
           (st : PityCounters) (sample : Z) : PityCounters * FRewardHandler :=
  let Total := TotalPickupCount st + 1 in
  let Normal := NormalPickupCounter st + 1 in
  let Special := SpecialPickupCounter st + 1 in
  if SpecialPityDue Campaign st then
    (mkCounters Total 0 0,
     AddPickupReward (Some RewardData) (SpecialPickupGroup Campaign) sample)
  else if NormalPityDue Campaign st then
    (mkCounters Total 0 Special,
     AddPickupReward (Some RewardData) (NormalPickupGroup Campaign) sample)
  else
    (* bSucceed is false here: normal random roll *)
    let '(Reward, PickupGroup) := RollRandomReward RewardData 0 sample in
    if SpecialPickupGroup Campaign <=? PickupGroup then
      (mkCounters Total 0 0, Reward)
    else if NormalPickupGroup Campaign <=? PickupGroup then
      (mkCounters Total 0 Special, Reward)
    else
      (mkCounters Total Normal Special, Reward).

(** The draw loop; [RewardHandlers.Emplace] appends at the end. *)
Fixpoint DrawLoop (RewardData : URewardData) (Campaign : FGachaCampaignData)
         (st : PityCounters) (samples : list Z)
         (RewardHandlers : list FRewardHandler)
  : PityCounters * list FRewardHandler :=
  match samples with
  | [] => (st, RewardHandlers)
  | sample :: rest =>
      let '(st', Handler) := DrawOnce RewardData Campaign st sample in
      DrawLoop RewardData Campaign st' rest (RewardHandlers ++ [Handler])
  end.

(** The handlers of a run of draws from empty [RewardHandlers], and the
    counters it ends with. *)
Definition Draws RewardData Campaign st samples : list FRewardHandler :=
  snd (DrawLoop RewardData Campaign st samples []).

Definition CountersAfter RewardData Campaign st samples : PityCounters :=
  fst (DrawLoop RewardData Campaign st samples []).

(** A handler is a reward of tier [>= threshold] of the pool when it is the
    reward of an entry whose [PickupGroup] is at least [threshold]. *)
Definition GrantsTier (RewardData : URewardData) (threshold : Z)
           (Handler : FRewardHandler) : Prop :=
  exists Data, In Data (GachaRandoms RewardData)
               /\ threshold <= PickupGroup Data
               /\ Reward Data = Handler.

(** No draw of the run that takes the normal-roll branch rolls an entry of
    tier [>= threshold]. *)
Fixpoint NoOrganicHit (RewardData : URewardData) (Campaign : FGachaCampaignData)
         (threshold : Z) (st : PityCounters) (samples : list Z) : Prop :=
  match samples with
  | [] => True
  | sample :: rest =>
      (SpecialPityDue Campaign st = false ->
       NormalPityDue Campaign st = false ->
       snd (RollRandomReward RewardData 0 sample) < threshold)
      /\ NoOrganicHit RewardData Campaign threshold
           (fst (DrawOnce RewardData Campaign st sample)) rest
  end.

(** *** [OnPostGive_Gacha] *)

(** Modelled from the spec: the pity store of [UContentsAlarmSave], which is
    not among the sources, loads and saves the two counters of a pool;
    [GetGachaCounter] leaves the zeroes it is handed when nothing is saved.
    The other collaborators of a request are the reward table and the
    campaign table (visited row by row, so the last matching row is kept). *)
Record GachaWorld : Type := mkWorld {
  RewardDataTable : FName -> option URewardData;
  GachaCampaignDataTable : list FGachaCampaignData;
  GachaCounterSave : FName -> option (Z * Z)
}.

Definition FindCampaign (rows : list FGachaCampaignData) (GroupName : FName)
  : option FGachaCampaignData :=
  fold_left (fun found Data =>
               if String.eqb (RewardGroupRowName Data) GroupName
               then Some Data else found) rows None.

(** Modelled from the spec: [SaveCounters] of the pity store. *)
Definition SetGachaCounter (save : FName -> option (Z * Z)) (Key : FName)
           (Normal Special : Z) : FName -> option (Z * Z) :=
  fun k => if String.eqb k Key then Some (Normal, Special) else save k.

(** Result of a request: the system's counters, the saved counters and the
    batch handed to [URewardManager::GiveRewards] ([None]: not called).
    [samples i] is the sample of the draw with [Index = i]. *)
Definition OnPostGive_Gacha (W : GachaWorld) (st : PityCounters)
           (InReward : FRewardHandler) (samples : nat -> Z)
  : PityCounters * (FName -> option (Z * Z)) * option (list FRewardHandler) :=
  match RewardDataTable W (TypeRowName InReward) with
  | None => (st, GachaCounterSave W, None)
  | Some RewardData =>
      match FindCampaign (GachaCampaignDataTable W) (RewardGroupName RewardData) with
      | None => (st, GachaCounterSave W, None)
      | Some CampaignData =>
          let '(Normal, Special) :=
            match GachaCounterSave W (TypeRowName InReward) with
            | Some c => c
            | None => (0, 0)
            end in
          let st := mkCounters (TotalPickupCount st) Normal Special in
          let PickupCount := Amount InReward in
          if (TotalGachaWeight RewardData <=? 0) || (PickupCount <=? 0) then
            (st, GachaCounterSave W, None)
          else
            let '(st', RewardHandlers) :=
              DrawLoop RewardData CampaignData st
                       (map samples (seq 0 (Z.to_nat PickupCount))) [] in
            let Given :=
              if Z.of_nat (List.length RewardHandlers) =? PickupCount
              then Some RewardHandlers else None in
            (st',
             SetGachaCounter (GachaCounterSave W) (TypeRowName InReward)
               (NormalPickupCounter st') (SpecialPickupCounter st'),
             Given)
      end
  end.

(** *** Reward expansion: [BuildRewardData] *)

(** The random source of an expansion: the samples of the successive
    [RandRange] calls and the number of calls made so far. *)
Record RandomStream : Type := mkStream {
  Samples : nat -> Z;
  Cursor : nat
}.

Definition NextSample (rng : RandomStream) : Z * RandomStream :=
  (Samples rng (Cursor rng), mkStream (Samples rng) (S (Cursor rng))).

(** What an expansion threads through: [InRewardHandlers] and the random
    source. *)
Definition BuildState : Type := (list FRewardHandler * RandomStream)%type.

(** [None] is a computation that has not returned within the recursion
    depth it was given. *)
Definition bind {A B} (m : option A) (k : A -> option B) : option B :=
  match m with Some a => k a | None => None end.

Notation "x <- m ;; k" := (bind m (fun x => k))
  (at level 61, m at next level, right associativity).

Fixpoint Repeat (count : nat) (body : BuildState -> option BuildState)
         (st : BuildState) : option BuildState :=
  match count with
  | O => Some st
  | S count' => st' <- body st ;; Repeat count' body st'
  end.

Fixpoint ForEach (body : FRewardHandler -> BuildState -> option BuildState)
         (Handlers : list FRewardHandler) (st : BuildState) : option BuildState :=
  match Handlers with
  | [] => Some st
  | Handler :: rest => st' <- body Handler st ;; ForEach body rest st'
  end.

Fixpoint WalkRandoms (entries : list URewardRandomData)
         (CurrentValue RandomNumber : Z) : option URewardRandomData :=
  match entries with
  | [] => None
  | Reward :: rest =>
      let CurrentValue := CurrentValue + RandomWeight Reward in
      if RandomNumber <=? CurrentValue then Some Reward
      else WalkRandoms rest CurrentValue RandomNumber
  end.

Definition IsEmpty {A} (l : list A) : bool :=
  match l with [] => true | _ => false end.

(** The lambda [AddReward] of [BuildRewardData].  [Build] stands for the
    recursive call.  A handler of type [RewardData] is looked up and expanded
    [Amount] times, the results of the calls being dropped; any other handler
    is emplaced (the source names the emplaced handler [RewardHandler]; the
    lambda's own parameter is meant). *)
Definition AddReward (FindRow : FName -> option URewardData)
           (Build : option URewardData -> BuildState -> option (bool * BuildState))
           (Handler : FRewardHandler) (st : BuildState) : option BuildState :=
  if EReward_eqb (RewardType Handler) EReward_RewardData then
    let StaticRewardData := FindRow (TypeRowName Handler) in
    Repeat (Z.to_nat (Amount Handler))
           (fun st => r <- Build StaticRewardData st ;; Some (snd r))
           st
  else Some (fst st ++ [Handler], snd st).

(** The body of [BuildRewardData] for a table that is not null. *)
Definition BuildBody (FindRow : FName -> option URewardData)
           (Build : option URewardData -> BuildState -> option (bool * BuildState))
           (Data : URewardData) (st : BuildState) : option (bool * BuildState) :=
  st1 <- ForEach (AddReward FindRow Build) (Statics Data) st ;;
  st2 <- (if IsEmpty (Randoms Data) then Some st1
          else
            let '(sample, rng) := NextSample (snd st1) in
            let RandomNumber := FMath.RandRange 1 (TotalWeight Data) sample in
            match WalkRandoms (Randoms Data) 0 RandomNumber with
            | Some Reward =>
                AddReward FindRow Build (RandomReward Reward) (fst st1, rng)
            | None => Some (fst st1, rng)
            end) ;;
  Some (negb (IsEmpty (fst st2)), st2).

(** [BuildRewardData], with the number of nested expansions of a reward
    definition bounded by [depth]: [None] when the bound is reached, that is,
    when the recursion is deeper than [depth]. *)
Fixpoint BuildRewardData (FindRow : FName -> option URewardData) (depth : nat)
         (InRewardData : option URewardData) (st : BuildState)
  : option (bool * BuildState) :=
  match InRewardData with
  | None => Some (false, st)
  | Some Data =>
      match depth with
      | O => None
      | S depth' =>
          BuildBody FindRow (BuildRewardData FindRow depth') Data st
      end
  end.

(** A handler that needs no further expansion. *)
Definition Atomic (Handler : FRewardHandler) : Prop :=
  RewardType Handler <> EReward_RewardData.

(** The handlers a reward definition can hand to [AddReward]. *)
Definition References (Data : URewardData) : list FRewardHandler :=
  Statics Data ++ map RandomReward (Randoms Data).

(** Every composite reference of [Data] that the table resolves has a key
    of rank below [n]. *)
Definition RefsBelow (FindRow : FName -> option URewardData)
           (rank : FName -> nat) (n : nat) (Data : URewardData) : Prop :=
  forall Handler Sub,
    In Handler (References Data) ->
    RewardType Handler = EReward_RewardData ->
    FindRow (TypeRowName Handler) = Some Sub ->
    (rank (TypeRowName Handler) < n)%nat.

(** The table is acyclic: composite references strictly decrease [rank]. *)
Definition Acyclic (FindRow : FName -> option URewardData)
           (rank : FName -> nat) : Prop :=
  forall Key Data, FindRow Key = Some Data ->
                   RefsBelow FindRow rank (rank Key) Data.

(** [st] holds atomic handlers only and extends the list [base]. *)
Definition Good (base : list FRewardHandler) (st : BuildState) : Prop :=
  Forall Atomic (fst st) /\ exists added, fst st = base ++ added.

(** [Build] returns on [Sub] from every state of atomic handlers, and keeps
    them. *)
Definition Returns
           (Build : option URewardData -> BuildState -> option (bool * BuildState))
           (Sub : option URewardData) : Prop :=
  forall st, Forall Atomic (fst st) ->
             exists b st', Build Sub st = Some (b, st') /\ Good (fst st) st'.

End Gacha.

(** ** Grant simulation and inventory commits (ServerRewardSystem_Inventory.cpp) *)

(** Modelled from the spec: [FItemBaseData] is declared outside the sources;
    the item metadata is (stackable, maxStack, occupiesSlot).
    [IsNonStackable()] and [RequiresInventorySlot()] are read as two flags of
    the row, next to the field [MaxStackAmount]. *)
Record FItemBaseData : Type := mkItemData {
  MaxStackAmount : Z;
  IsNonStackable : bool;
  RequiresInventorySlot : bool
}.

Module UNetItem.
Record t : Type := mk {
  ItemUID : Z;
  ItemID : Z;
  Amount : Z;
  ItemData : option FItemBaseData
}.
End UNetItem.

Module Inventory.

(** What [SimulateRewards] reads from its collaborators. *)
Record SimWorld : Type := mkSimWorld {
  (* UItemDataTable::FindRow<FItemBaseData>(FName) *)
  ItemDataTable : FName -> option FItemBaseData;
  (* UUserData_Inventory::GetItemSlotCount() *)
  GetItemSlotCount : Z;
  (* UUserData_Inventory::GetMaxCapacity() *)
  GetMaxCapacity : Z;
  (* UUserData_Inventory::GetAmount(FName) *)
  GetAmount : FName -> Z;
  (* URewardManager::Simulate(const FRewardHandler* ) *)
  Simulate : FRewardHandler -> bool
}.

(** [TMap<FName, int32>] in insertion order, which is the order in which
    the range-for loop visits a map that never had a removal. *)
Definition StackMap : Type := list (FName * Z).

(** [StackableCounts.FindOrAdd(Key) += Value] *)
Fixpoint FindOrAddPlus (Counts : StackMap) (Key : FName) (Value : Z) : StackMap :=
  match Counts with
  | [] => [(Key, 0 + Value)]
  | (k, a) :: rest =>
      if String.eqb k Key then (k, a + Value) :: rest
      else (k, a) :: FindOrAddPlus rest Key Value
  end.

(** State of the first loop: the handlers left in [InRewards], then
    [NonStackablePass] and [StackableCounts]. *)
Definition SplitState : Type :=
  (list FRewardHandler * list FRewardHandler * StackMap)%type.

(** 1. one iteration of the classification loop *)
Definition SplitStep (W : SimWorld) (acc : SplitState) (Reward : FRewardHandler)
  : SplitState :=
  let '(Kept, NonStackablePass, StackableCounts) := acc in
  if negb (EReward_eqb (RewardType Reward) EReward_Item) then
    (Kept ++ [Reward], NonStackablePass, StackableCounts)
  else
    match ItemDataTable W (TypeRowName Reward) with
    | None => (Kept ++ [Reward], NonStackablePass, StackableCounts)
    | Some ItemData =>
        if IsNonStackable ItemData then
          (Kept, NonStackablePass ++ [Reward], StackableCounts)
        else
          (Kept, NonStackablePass,
           FindOrAddPlus StackableCounts (TypeRowName Reward) (Amount Reward))
    end.

Definition Split (W : SimWorld) (InRewards : list FRewardHandler) : SplitState :=
  fold_left (SplitStep W) InRewards ([], [], []).

(** 2. the merged handlers that are emplaced again *)
Definition Rebuild (DefaultSource : ERewardSource) (StackableCounts : StackMap)
  : list FRewardHandler :=
  map (fun Pair => mkReward EReward_Item (fst Pair) (snd Pair) DefaultSource)
      (filter (fun Pair => negb (snd Pair =? 0)) StackableCounts).

(** The source that the merged grants receive: that of [InRewards[0]]. *)
Definition DefaultSourceOf (InRewards : list FRewardHandler) : ERewardSource :=
  match InRewards with
  | first :: _ => AcquireSource first
  | [] => ERewardSource_None
  end.

(** [InRewards] after steps 1 and 2 *)
Definition AdjustedBatch (W : SimWorld) (InRewards : list FRewardHandler)
  : list FRewardHandler :=
  let DefaultSource := DefaultSourceOf InRewards in
  let '(Kept, NonStackablePass, StackableCounts) := Split W InRewards in
  Kept ++ Rebuild DefaultSource StackableCounts ++ NonStackablePass.

(** 4. one iteration of the loop over [InUpdatedItem] *)
Definition PendingSlotStep (SlotAmount : Z) (It : option UNetItem.t) : Z :=
  match It with
  | None => SlotAmount
  | Some It =>
      match UNetItem.ItemData It with
      | None => SlotAmount
      | Some ItemData =>
          if negb (RequiresInventorySlot ItemData) then SlotAmount
          else if IsNonStackable ItemData then
            if 0 <? UNetItem.Amount It then SlotAmount + UNetItem.Amount It
            else if UNetItem.Amount It <? 0
                 then SlotAmount - FMath.Abs (UNetItem.Amount It)
                 else SlotAmount
          else SlotAmount + (if 0 <? UNetItem.Amount It then 1 else -1)
      end
  end.

(** 3. and 4. the slot count before the rewards are looked at *)
Definition BaselineSlots (W : SimWorld) (InUpdatedItem : list (option UNetItem.t)) : Z :=
  fold_left PendingSlotStep InUpdatedItem (GetItemSlotCount W).

(** 5. the slot effect of one reward that reaches the capacity part *)
Definition RewardSlotStep (ItemData : FItemBaseData) (UserAmount : Z)
           (Reward : FRewardHandler) (SlotAmount : Z) : Z :=
  if IsNonStackable ItemData then
    if 0 <? Amount Reward then SlotAmount + Amount Reward
    else if Amount Reward <? 0
         then SlotAmount - FMath.Min UserAmount (- Amount Reward)
         else SlotAmount
  else
    if 0 <? Amount Reward then
      (if UserAmount =? 0 then SlotAmount + 1 else SlotAmount)
    else if Amount Reward <? 0 then
      (if UserAmount + Amount Reward <=? 0 then SlotAmount - 1 else SlotAmount)
    else SlotAmount.

(** 5. and 6. the loop over the adjusted batch *)
Fixpoint CheckRewards (W : SimWorld) (bCheckInventory : bool) (MaxCapacity : Z)
         (Rewards : list FRewardHandler) (SlotAmount : Z) : bool :=
  match Rewards with
  | [] => true
  | Reward :: rest =>
      if negb (Simulate W Reward) then false
      else if negb bCheckInventory then
        CheckRewards W bCheckInventory MaxCapacity rest SlotAmount
      else if negb (EReward_eqb (RewardType Reward) EReward_Item)
              || negb (ERewardSource_eqb (AcquireSource Reward) ERewardSource_None)
      then CheckRewards W bCheckInventory MaxCapacity rest SlotAmount
      else
        match ItemDataTable W (TypeRowName Reward) with
        | None => CheckRewards W bCheckInventory MaxCapacity rest SlotAmount
        | Some ItemData =>
            if negb (RequiresInventorySlot ItemData) then
              CheckRewards W bCheckInventory MaxCapacity rest SlotAmount
            else
              let UserAmount := GetAmount W (TypeRowName Reward) in
              let SlotAmount := RewardSlotStep ItemData UserAmount Reward SlotAmount in
              if MaxCapacity <? SlotAmount then false
              else CheckRewards W bCheckInventory MaxCapacity rest SlotAmount
        end
  end.

(** [SimulateRewards]: the decision and [InRewards] as the call leaves it. *)
Definition SimulateRewards (W : SimWorld) (InRewards : list FRewardHandler)
           (InUpdatedItem : list (option UNetItem.t)) (bCheckInventory : bool)
  : bool * list FRewardHandler :=
  let Adjusted := AdjustedBatch W InRewards in
  let SlotAmount := BaselineSlots W InUpdatedItem in
  (CheckRewards W bCheckInventory (GetMaxCapacity W) Adjusted SlotAmount, Adjusted).

(** An item grant with a given key. *)
Definition IsGrantOf (Key : FName) (Reward : FRewardHandler) : bool :=
  EReward_eqb (RewardType Reward) EReward_Item
  && String.eqb (TypeRowName Reward) Key.

(** The net amount of the item grants of a batch with a given key. *)
Definition NetAmount (Key : FName) (Rewards : list FRewardHandler) : Z :=
  fold_right
    (fun Reward acc => if IsGrantOf Key Reward then Amount Reward + acc else acc)
    0 Rewards.

(** The item grants of a batch with a given key. *)
Definition GrantsOf (Key : FName) (Rewards : list FRewardHandler)
  : list FRewardHandler :=
  filter (IsGrantOf Key) Rewards.

(** The amount recorded for a key in [StackableCounts], 0 when absent. *)
Fixpoint CountOf (Counts : StackMap) (Key : FName) : Z :=
  match Counts with
  | [] => 0
  | (k, a) :: rest => if String.eqb k Key then a else CountOf rest Key
  end.


(** *** Commits *)

Inductive SqlGameQuery : Type :=
| UpdateItemAmount (Amount ItemUID : Z)
| DeleteItem (ItemUID : Z)
| DeleteInventory (ItemUID : Z)
| DeleteEquipment (AccountID ItemUID : Z)
| InsertItem (AccountID ItemID Amount : Z)
| InsertInventory (AccountID ItemUID : Z)
| InsertItemOption (AccountID ItemUID OptionID OptionValue : Z).

(** [FSqliteQueryTask]: the queries added so far, oldest first. *)
Definition FSqliteQueryTask : Type := list SqlGameQuery.

Definition AddQuery (Task : FSqliteQueryTask) (q : SqlGameQuery) : FSqliteQueryTask :=
  Task ++ [q].

Record CommitWorld : Type := mkCommitWorld {
  (* UItemDataTable::FindRow(int32 ItemID) *)
  ItemDataByID : Z -> option FItemBaseData;
  (* whether UUserData_Equipment::GetEquipmentBy(ItemID) is not null *)
  GetEquipmentBy : Z -> bool;
  AccountID : Z
}.

Definition SetAmount (It : UNetItem.t) (NewAmount : Z) : UNetItem.t :=
  UNetItem.mk (UNetItem.ItemUID It) (UNetItem.ItemID It) NewAmount
              (UNetItem.ItemData It).

(** [OnUpdateItemAmount]: the item and the task after the call.  The row of
    the item is dereferenced unchecked: without a row there is no result. *)
Definition OnUpdateItemAmount (W : CommitWorld) (InNetItem : UNetItem.t)
           (InUpdateAmount : Z) (Task : FSqliteQueryTask)
  : option (UNetItem.t * FSqliteQueryTask) :=
  match ItemDataByID W (UNetItem.ItemID InNetItem) with
  | None => None
  | Some ItemData =>
      let PreAmount := UNetItem.Amount InNetItem in
      let NewAmount :=
        FMath.Clamp (PreAmount + InUpdateAmount) 0 (MaxStackAmount ItemData) in
      let InNetItem := SetAmount InNetItem NewAmount in
      if 0 <? UNetItem.Amount InNetItem then
        Some (InNetItem,
              AddQuery Task (UpdateItemAmount (UNetItem.Amount InNetItem)
                                              (UNetItem.ItemUID InNetItem)))
      else
        Some (InNetItem, AddQuery Task (DeleteItem (UNetItem.ItemUID InNetItem)))
  end.

(** [RemoveInventoryItem]: the returned flag, the item and the task after
    the call. *)
Definition RemoveInventoryItem (W : CommitWorld) (InNetItem : option UNetItem.t)
           (InRemoveAmount : Z) (Task : FSqliteQueryTask)
  : option (bool * option UNetItem.t * FSqliteQueryTask) :=
  match InNetItem with
  | None => Some (false, None, Task)
  | Some It =>
      if (InRemoveAmount <? 0) || (UNetItem.Amount It - InRemoveAmount <? 0) then
        Some (false, Some It, Task)
      else
        match OnUpdateItemAmount W It (InRemoveAmount * -1) Task with
        | None => None
        | Some (It, Task) =>
            if UNetItem.Amount It <=? 0 then
              let Task := AddQuery Task (DeleteInventory (UNetItem.ItemUID It)) in
              if GetEquipmentBy W (UNetItem.ItemID It) then
                Some (true, Some It,
                      AddQuery Task (DeleteEquipment (AccountID W) (UNetItem.ItemUID It)))
              else Some (true, Some It, Task)
            else Some (true, Some It, Task)
        end
  end.

(** *** Grants *)

(** [UNetItemOption]: its [OptionID] and its [OptionValue]. *)
Definition UNetItemOption : Type := (Z * Z)%type.

(** What [AddInventoryItem] and [BuildOptions] read from outside the
    sources. *)
Record GrantWorld : Type := mkGrantWorld {
  Commit : CommitWorld;
  (* DuplicateNetItemByID(ItemID): a copy of the held item of that id, or null *)
  DuplicateNetItemByID : Z -> option UNetItem.t;
  (* GetLastInsertRowId() of the InsertItem query *)
  GetLastInsertRowId : Z;
  (* whether GetItemType() is EItem::Equip *)
  IsEquip : UNetItem.t -> bool;
  (* the rows that UEquipmentSubOptionDataTable::BuildOptions gives for the
     item, each as (GetEffectRowID(), EffectValue) *)
  SubOptions : UNetItem.t -> list (Z * Z)
}.

(** [InFixedOptions && InFixedOptions->IsValidIndex(i)
    ? InFixedOptions->operator[](i) : nullptr] *)
Definition FixedAt (InFixedOptions : option (list (option UNetItemOption)))
           (i : nat) : option UNetItemOption :=
  match InFixedOptions with
  | None => None
  | Some Fixed =>
      match nth_error Fixed i with
      | Some FixedOption => FixedOption
      | None => None
      end
  end.

(** The loop of [BuildOptions] over the rows from index [i] on: the options
    of the item and the task. *)
Fixpoint BuildOptionsFrom (AccountID ItemUID : Z) (Options : list (Z * Z))
         (InFixedOptions : option (list (option UNetItemOption))) (i : nat)
         (ItemOptions : list UNetItemOption) (InTask : FSqliteQueryTask)
  : list UNetItemOption * FSqliteQueryTask :=
  match Options with
  | [] => (ItemOptions, InTask)
  | Option :: rest =>
      match FixedAt InFixedOptions i with
      | Some FixedOption =>
          BuildOptionsFrom AccountID ItemUID rest InFixedOptions (S i)
                           (ItemOptions ++ [FixedOption]) InTask
      | None =>
          BuildOptionsFrom AccountID ItemUID rest InFixedOptions (S i)
                           (ItemOptions ++ [Option])
                           (AddQuery InTask
                                     (InsertItemOption AccountID ItemUID
                                                       (fst Option) (snd Option)))
      end
  end.

(** [BuildOptions]: the options of the item, which [UNetItem.t] does not
    carry, and the task after the call.  [NetItem] in the loop is read as
    [InNetItem]. *)
Definition BuildOptions (W : GrantWorld) (InNetItem : UNetItem.t)
           (ItemOptions : list UNetItemOption) (InTask : FSqliteQueryTask)
           (InFixedOptions : option (list (option UNetItemOption)))
  : list UNetItemOption * FSqliteQueryTask :=
  if negb (IsEquip W InNetItem) then (ItemOptions, InTask)
  else
    BuildOptionsFrom (AccountID (Commit W)) (UNetItem.ItemUID InNetItem)
                     (SubOptions W InNetItem) InFixedOptions 0 [] InTask.

(** What [AddInventoryItem] leaves: the item it returns, the options built
    for it, the task, and the queries run on the database at once.
    [CreateDate] is left out. *)
Record Added : Type := mkAdded {
  NetItem : UNetItem.t;
  Options : list UNetItemOption;
  TaskAfter : FSqliteQueryTask;
  QueryGameDB : list SqlGameQuery
}.

(** [AddInventoryItem].  The row of the item is dereferenced unchecked:
    without a row there is no result. *)
Definition AddInventoryItem (W : GrantWorld) (InItemID InAddAmount : Z)
           (InTask : FSqliteQueryTask) : option Added :=
  match ItemDataByID (Commit W) InItemID with
  | None => None
  | Some ItemData =>
      let bCanStack := MaxStackAmount ItemData >? 1 in
      let Held := if bCanStack then DuplicateNetItemByID W InItemID else None in
      match Held, bCanStack with
      | Some Held, true =>
          match OnUpdateItemAmount (Commit W) Held InAddAmount InTask with
          | None => None
          | Some (Held, InTask) => Some (mkAdded Held [] InTask [])
          end
      | _, _ =>
          let ItemUID := GetLastInsertRowId W in
          let New := UNetItem.mk ItemUID InItemID InAddAmount (Some ItemData) in
          let InTask :=
            AddQuery InTask (InsertInventory (AccountID (Commit W)) ItemUID) in
          let '(ItemOptions, InTask) := BuildOptions W New [] InTask None in
          Some (mkAdded New ItemOptions InTask
                        [InsertItem (AccountID (Commit W)) InItemID InAddAmount])
      end
  end.

End Inventory.

Module InventoryScenario.
Import Inventory.

Definition SwordData : FItemBaseData := mkItemData 1 true true.
Definition PotionData : FItemBaseData := mkItemData 99 false true.

(** An inventory of five used slots out of five that holds three potions and
    no sword; every reward is admissible. *)
Definition FullBag : SimWorld :=
  mkSimWorld
    (fun Key => if String.eqb Key "Sword"%string then Some SwordData
                else if String.eqb Key "Potion"%string then Some PotionData
                else None)
    5 5
    (fun Key => if String.eqb Key "Potion"%string then 3 else 0)
    (fun _ => true).

Definition Grant (Key : FName) (Count : Z) (Source : ERewardSource) : FRewardHandler :=
  mkReward EReward_Item Key Count Source.


(** Item rows by id, an equipped sword, and held items. *)
Definition Store : CommitWorld :=
  mkCommitWorld
    (fun ID => if ID =? 1001 then Some SwordData
               else if ID =? 2001 then Some PotionData
               else None)
    (fun ID => ID =? 1001)
    7.

Definition HeldSword : UNetItem.t := UNetItem.mk 12 1001 1 (Some SwordData).
Definition HeldPotions : UNetItem.t := UNetItem.mk 11 2001 40 (Some PotionData).

(** A potion row created with more units than [MaxStackAmount]. *)
Definition OverfullPotions : UNetItem.t := UNetItem.mk 13 2001 150 (Some PotionData).

(** Two accounts over [Store]: one that holds no potion, one that holds
    [HeldPotions].  The next item row gets the UID 13; swords are equipment
    with one sub-option row. *)
Definition NothingHeld : GrantWorld :=
  mkGrantWorld Store (fun _ => None) 13
               (fun It => UNetItem.ItemID It =? 1001) (fun _ => [(501, 3)]).

Definition PotionsHeld : GrantWorld :=
  mkGrantWorld Store (fun ID => if ID =? 2001 then Some HeldPotions else None) 13
               (fun It => UNetItem.ItemID It =? 1001) (fun _ => [(501, 3)]).

End InventoryScenario.

(** ** Scenarios: the concrete tables and states used as instances *)

Module Scenario.
Import Gacha.

(** The pool of the end-to-end scenario. *)
Definition ItemReward (Name : FName) : FRewardHandler :=
  mkReward EReward_Item Name 1 ERewardSource_None.

Definition EntryA := mkGachaRandom 70 1 (ItemReward "A"%string).
Definition EntryB := mkGachaRandom 25 2 (ItemReward "B"%string).
Definition EntryC := mkGachaRandom 5 3 (ItemReward "C"%string).

Definition PoolABC : URewardData :=
  mkRewardData "ABC"%string [EntryA; EntryB; EntryC] 100 [] [] 0.

(** A pool whose last entry has weight zero. *)
Definition EntryLive := mkGachaRandom 5 1 (ItemReward "Live"%string).
Definition EntryDead := mkGachaRandom 0 1 (ItemReward "Dead"%string).

Definition PoolTrailingZero : URewardData :=
  mkRewardData "TZ"%string [EntryLive; EntryDead] 5 [] [] 0.

(** A pool with a single entry of tier 1, and campaigns whose pity tiers it
    cannot serve. *)
Definition EntryCommon := mkGachaRandom 1 1 (ItemReward "Common"%string).

Definition PoolCommonOnly : URewardData :=
  mkRewardData "Low"%string [EntryCommon] 1 [] [] 0.

Definition CampaignNormal2 : FGachaCampaignData :=
  mkCampaign "Low"%string 2 3 90.

Definition CampaignSpecialEvery2 : FGachaCampaignData :=
  mkCampaign "Low"%string 0 3 2.

(** A pool with a tier-1 and a tier-2 entry under a campaign that has normal
    pity only. *)
Definition EntryRare := mkGachaRandom 1 2 (ItemReward "Rare"%string).

Definition PoolCommonRare : URewardData :=
  mkRewardData "CR"%string
    [mkGachaRandom 9 1 (ItemReward "Common"%string); EntryRare] 10 [] [] 0.

Definition CampaignNormalOnly : FGachaCampaignData :=
  mkCampaign "CR"%string 2 0 0.

(** The pool A, B, C (tiers 1, 2, 3) under normal pity at tier 2 and special
    pity at tier 3 every 3 draws. *)
Definition CampaignABC : FGachaCampaignData :=
  mkCampaign "ABC"%string 2 3 3.

Definition FreshCounters : PityCounters := mkCounters 0 0 0.

(** Reward tables for the expander.  [TableAB]: A expands to B and B to A.
    [TablePack]: a pack with two items, two expansions of an inner set and
    one weighted option. *)
Definition Composite (Name : FName) (Count : Z) : FRewardHandler :=
  mkReward EReward_RewardData Name Count ERewardSource_None.

Definition DataA : URewardData :=
  mkRewardData "A"%string [] 0 [Composite "B"%string 1] [] 0.

Definition DataB : URewardData :=
  mkRewardData "B"%string [] 0 [Composite "A"%string 1] [] 0.

Definition TableAB (Key : FName) : option URewardData :=
  if String.eqb Key "A"%string then Some DataA
  else if String.eqb Key "B"%string then Some DataB
  else None.

Definition DataInner : URewardData :=
  mkRewardData "Inner"%string [] 0 [ItemReward "Coin"%string] [] 0.

Definition DataPack : URewardData :=
  mkRewardData "Pack"%string [] 0
    [ItemReward "Potion"%string; Composite "Inner"%string 2]
    [mkRandom 1 (ItemReward "Gem"%string)] 1.

Definition TablePack (Key : FName) : option URewardData :=
  if String.eqb Key "Pack"%string then Some DataPack
  else if String.eqb Key "Inner"%string then Some DataInner
  else None.

Definition RankPack (Key : FName) : nat :=
  if String.eqb Key "Pack"%string then 1%nat else 0%nat.

Definition ZeroStream : RandomStream := mkStream (fun _ => 0) 0.

End Scenario.

(** ** Requests: helpers and instances for [OnPostGive_Gacha] *)

Module Request.
Import Gacha Scenario.

(** The same request for another number of draws. *)
Definition WithAmount (InReward : FRewardHandler) (Count : Z) : FRewardHandler :=
  mkReward (RewardType InReward) (TypeRowName InReward) Count
           (AcquireSource InReward).

(** The collaborators after a request has saved its counters. *)
Definition WithSave (W : GachaWorld) (save : FName -> option (Z * Z)) : GachaWorld :=
  mkWorld (RewardDataTable W) (GachaCampaignDataTable W) save.

(** A pool whose recorded total weight exceeds the sum of its weights. *)
Definition PoolStaleTotal : URewardData :=
  mkRewardData "Stale"%string [EntryLive; EntryDead] 10 [] [] 0.

(** The pool A, B, C served under [CampaignABC], nothing saved yet. *)
Definition WorldABC : GachaWorld :=
  mkWorld (fun Key => if String.eqb Key "ABC"%string then Some PoolABC else None)
          [CampaignABC]
          (fun _ => None).

Definition PullABC (Count : Z) : FRewardHandler :=
  mkReward EReward_Gacha "ABC"%string Count ERewardSource_None.

End Request.

(** ** Flat reward definitions: what one expansion of them appends *)

Module Expansion.
Import Gacha Scenario.

(** A definition none of whose handlers is composite. *)
Definition Flat (Data : URewardData) : Prop :=
  Forall Atomic (Statics Data)
  /\ Forall (fun Option => Atomic (RandomReward Option)) (Randoms Data).

(** The weighted option that a sample selects, if any. *)
Definition Picked (Data : URewardData) (sample : Z) : list FRewardHandler :=
  if IsEmpty (Randoms Data) then []
  else
    match WalkRandoms (Randoms Data) 0
                      (FMath.RandRange 1 (TotalWeight Data) sample) with
    | Some Option => [RandomReward Option]
    | None => []
    end.

(** The random source after one expansion: one sample is consumed when the
    definition has weighted options. *)
Definition Advance (Data : URewardData) (rng : RandomStream) : RandomStream :=
  if IsEmpty (Randoms Data) then rng else snd (NextSample rng).

(** A definition that refers to [Key] [Count] times and to nothing else. *)
Definition Repeated (Key : FName) (Count : Z) (Source : ERewardSource) : URewardData :=
  mkRewardData "Repeated"%string [] 0
               [mkReward EReward_RewardData Key Count Source] [] 0.

(** A table with one flat definition that has a weighted option. *)
Definition DataChest : URewardData :=
  mkRewardData "Chest"%string [] 0
    [ItemReward "Key"%string]
    [mkRandom 3 (ItemReward "Gold"%string); mkRandom 1 (ItemReward "Ruby"%string)] 4.

Definition TableChest (Key : FName) : option URewardData :=
  if String.eqb Key "Chest"%string then Some DataChest
  else if String.eqb Key "Inner"%string then Some DataInner
  else None.

(** The samples 0, 1, 2, ... *)
Definition CountingStream : RandomStream := mkStream (fun i => Z.of_nat i) 0.

End Expansion.

(** ** Classes of rewards in a batch, and variations of the inventory *)

Module Batch.
Import Inventory InventoryScenario.

(** A reward that the classification loop leaves where it is: not an item,
    or an item without a row. *)
Definition StaysInPlace (W : SimWorld) (Reward : FRewardHandler) : bool :=
  negb (EReward_eqb (RewardType Reward) EReward_Item)
  || match ItemDataTable W (TypeRowName Reward) with
     | None => true
     | Some _ => false
     end.

(** An item grant whose row is non-stackable. *)
Definition IsNonStackableGrant (W : SimWorld) (Reward : FRewardHandler) : bool :=
  EReward_eqb (RewardType Reward) EReward_Item
  && match ItemDataTable W (TypeRowName Reward) with
     | None => false
     | Some ItemData => IsNonStackable ItemData
     end.

(** An item grant whose row is stackable. *)
Definition IsStackableGrant (W : SimWorld) (Reward : FRewardHandler) : bool :=
  EReward_eqb (RewardType Reward) EReward_Item
  && match ItemDataTable W (TypeRowName Reward) with
     | None => false
     | Some ItemData => negb (IsNonStackable ItemData)
     end.

(** Every key of [StackableCounts] is the key of a stackable row. *)
Definition StackableKeys (W : SimWorld) (Counts : StackMap) : Prop :=
  forall Key, In Key (map fst Counts) ->
              exists ItemData, ItemDataTable W Key = Some ItemData
                               /\ IsNonStackable ItemData = false.

(** The same inventory with another capacity and another slot count. *)
Definition WithCapacity (W : SimWorld) (MaxCapacity SlotCount : Z) : SimWorld :=
  mkSimWorld (ItemDataTable W) SlotCount MaxCapacity (GetAmount W) (Simulate W).

(** The inventory [FullBag] when gems cannot be granted. *)
Definition PickyBag : SimWorld :=
  mkSimWorld (ItemDataTable FullBag) 5 5 (GetAmount FullBag)
             (fun Reward => negb (String.eqb (TypeRowName Reward) "Gem"%string)).

End Batch.

(** ** Gacha result videos (GachaSystem/GachaUI.cpp) *)

(** The fields of [FVideoResourceData] that the sources read or write. *)
Record FVideoResourceData : Type := mkVideoResource {
  RootPath : string;
  VideoName : FName;
  ProloguePath : string;
  LoopPath : string;
  PrologueSubtitle : string;
  LoopSubtitle : string;
  bUseSkip : bool;
  bForcePlay : bool;
  GroupID : FName
}.

Record FPlayerCharacterData : Type := mkPlayerCharacter {
  Grade : Z
}.

Module GachaUI.

(** The configured members of [UGachaUI] that [SetVideosToPlay] reads. *)
Record Config : Type := mkConfig {
  FileDir : string;
  Video_5Star : FName;
  IntroSpecial : FName;
  IntroNormal : FName;
  IntroPrefix : FName
}.

(** The defaults of GachaUI.h. *)
Definition DefaultConfig (Dir : string) : Config :=
  mkConfig Dir "5Star"%string "GachaIntroSpecial"%string "GachaIntro"%string
           "_Intro"%string.

(** The tables that [SetVideosToPlay] consults; [UVideoResourceDataTable::Get]
    may return null. *)
Record Tables : Type := mkTables {
  VideoDataTable : option (FName -> option FVideoResourceData);
  GachaRandomDataTable : FName -> option URewardGachaRandomData;
  PlayerCharacterDataTable : FName -> option FPlayerCharacterData
}.

(** The lambda [AddVideoResource]: the list after the call and the flag it
    returns. *)
Definition AddVideoResource (C : Config)
           (FindRow : FName -> option FVideoResourceData)
           (VideoResources : list FVideoResourceData)
           (InRowName : FName) (Name : FName)
  : list FVideoResourceData * bool :=
  match FindRow InRowName with
  | Some ResultData =>
      (VideoResources
         ++ [mkVideoResource (FileDir C) Name
               (ProloguePath ResultData) (LoopPath ResultData)
               (PrologueSubtitle ResultData) (LoopSubtitle ResultData)
               (bUseSkip ResultData) (bForcePlay ResultData) (GroupID ResultData)],
       true)
  | None => (VideoResources, false)
  end.

(** The grade from which the five-star video is inserted. *)
Definition SpecialGrade : Z := 5.

(** One iteration of the loop over the handlers. *)
Definition VideoStep (C : Config) (T : Tables)
           (FindRow : FName -> option FVideoResourceData)
           (VideoResources : list FVideoResourceData) (Handler : FRewardHandler)
  : list FVideoResourceData :=
  match GachaRandomDataTable T (TypeRowName Handler) with
  | None => VideoResources
  | Some GachaData =>
      let VideoResources :=
        if EReward_eqb (RewardType (Reward GachaData)) EReward_PlayerCharacter then
          let CharRowName := TypeRowName (Reward GachaData) in
          match PlayerCharacterDataTable T CharRowName with
          | Some PlayerCharacterData =>
              let VideoResources :=
                if SpecialGrade <=? Grade PlayerCharacterData
                then fst (AddVideoResource C FindRow VideoResources
                                           (Video_5Star C) NAME_None)
                else VideoResources in
              let CharIntroName := String.append CharRowName (IntroPrefix C) in
              fst (AddVideoResource C FindRow VideoResources CharIntroName NAME_None)
          | None => VideoResources
          end
        else VideoResources in
      fst (AddVideoResource C FindRow VideoResources
                            (TypeRowName Handler) (TypeRowName Handler))
  end.

(** [SetVideosToPlay]: the list handed to [OnPlayVideos], [None] when the
    function returns without calling it. *)
Definition SetVideosToPlay (C : Config) (T : Tables)
           (InHandlers : list FRewardHandler) (bGradeHigh : bool)
  : option (list FVideoResourceData) :=
  match InHandlers with
  | [] => None
  | _ :: _ =>
      match VideoDataTable T with
      | None => None
      | Some FindRow =>
          let IntroName := if bGradeHigh then IntroSpecial C else IntroNormal C in
          let VideoResources :=
            fst (AddVideoResource C FindRow [] IntroName NAME_None) in
          Some (fold_left (VideoStep C T FindRow) InHandlers VideoResources)
      end
  end.

(** Whether a handler names a row of the gacha table. *)
Definition HasGachaRow (T : Tables) (Handler : FRewardHandler) : bool :=
  match GachaRandomDataTable T (TypeRowName Handler) with
  | Some _ => true
  | None => false
  end.

(** A small set of tables: a character of grade 5, an item, and the videos of
    the intro, of the five-star scene, of the character and of both results. *)
Definition Clip (Path : string) : FVideoResourceData :=
  mkVideoResource ""%string NAME_None Path ""%string ""%string ""%string
                  true false "Clip"%string.

Definition DemoTables : Tables :=
  mkTables
    (Some (fun Key =>
             if String.eqb Key "GachaIntro"%string then Some (Clip "intro.mp4"%string)
             else if String.eqb Key "5Star"%string then Some (Clip "star.mp4"%string)
             else if String.eqb Key "Hero_Intro"%string then Some (Clip "hero.mp4"%string)
             else if String.eqb Key "HeroRow"%string then Some (Clip "heroget.mp4"%string)
             else if String.eqb Key "GemRow"%string then Some (Clip "gemget.mp4"%string)
             else None))
    (fun Key =>
       if String.eqb Key "HeroRow"%string
       then Some (mkGachaRandom 1 3
                    (mkReward EReward_PlayerCharacter "Hero"%string 1 ERewardSource_None))
       else if String.eqb Key "GemRow"%string
       then Some (mkGachaRandom 9 1
                    (mkReward EReward_Item "Gem"%string 1 ERewardSource_None))
       else None)
    (fun Key => if String.eqb Key "Hero"%string
                then Some (mkPlayerCharacter 5) else None).

Definition Won (Row : FName) : FRewardHandler :=
  mkReward EReward_Item Row 1 ERewardSource_None.

End GachaUI.

(** ** Video queue, media source cache and audio focus
       (VideoPlayerSystem/VideoPlayer_Core.cpp) *)

(** A [UFileMediaSource] object: the cache holds one object per key, so the
    key under which it was created stands for its identity. *)
Record UFileMediaSource : Type := mkMediaSource {
  SourceKey : FName;
  FilePath : string
}.

Module FVideoPlayHandler.
(** The delegate [OnPlaybackEnd] is left out: the functions modelled here
    neither bind nor call it. *)
Record t : Type := mk {
  MediaSource : option UFileMediaSource;
  SubtitlePath : string;
  bUseSkip : bool;
  bForcePlay : bool;
  bLoop : bool;
  GroupID : FName;
  ResultName : FName
}.
End FVideoPlayHandler.

Module VideoPlayer.

(** [CachedMediaSource], in insertion order. *)
Definition SourceCache : Type := list (FName * UFileMediaSource).

Fixpoint FindSource (Cache : SourceCache) (KeyName : FName) : option UFileMediaSource :=
  match Cache with
  | [] => None
  | (k, Source) :: rest =>
      if String.eqb k KeyName then Some Source else FindSource rest KeyName
  end.

(** [FString::Printf(TEXT("%s_%s"), GroupID, bIsLoop ? "Loop" : "Prologue")] *)
Definition KeyOf (GroupID : FName) (bIsLoop : bool) : FName :=
  String.append GroupID
    (String.append "_"%string (if bIsLoop then "Loop"%string else "Prologue"%string)).

(** [FindOrAddMediaSource]: the cache after the call and the source returned.
    A new source is created, with the given path, only when the key is not
    cached. *)
Definition FindOrAddMediaSource (Cache : SourceCache) (GroupID : FName)
           (bIsLoop : bool) (Path : string) : SourceCache * UFileMediaSource :=
  let KeyName := KeyOf GroupID bIsLoop in
  match FindSource Cache KeyName with
  | Some Source => (Cache, Source)
  | None =>
      let Source := mkMediaSource KeyName Path in
      (Cache ++ [(KeyName, Source)], Source)
  end.

Definition IsEmptyString (s : string) : bool :=
  match s with EmptyString => true | _ => false end.

(** [ConvertToHandlers]: the cache and [OutHandlers] after the call. *)
Definition ConvertToHandlers (Cache : SourceCache)
           (InResourceData : FVideoResourceData)
           (OutHandlers : list FVideoPlayHandler.t)
  : SourceCache * list FVideoPlayHandler.t :=
  let '(Cache, OutHandlers) :=
    if negb (IsEmptyString (ProloguePath InResourceData)) then
      let '(Cache, FileSource) :=
        FindOrAddMediaSource Cache (GroupID InResourceData) false
          (String.append (RootPath InResourceData) (ProloguePath InResourceData)) in
      (Cache,
       OutHandlers
         ++ [FVideoPlayHandler.mk (Some FileSource)
               (PrologueSubtitle InResourceData) (bUseSkip InResourceData)
               (bForcePlay InResourceData) false (GroupID InResourceData)
               (VideoName InResourceData)])
    else (Cache, OutHandlers) in
  if negb (IsEmptyString (LoopPath InResourceData)) then
    let '(Cache, FileSource) :=
      FindOrAddMediaSource Cache (GroupID InResourceData) true
        (String.append (RootPath InResourceData) (LoopPath InResourceData)) in
    (Cache,
     OutHandlers
       ++ [FVideoPlayHandler.mk (Some FileSource)
             (LoopSubtitle InResourceData) (bUseSkip InResourceData)
             false true (GroupID InResourceData)
             (VideoName InResourceData)])
  else (Cache, OutHandlers).

(** The part of the player that sequencing reads and writes. *)
Record Player : Type := mkPlayer {
  VideoQueue : list FVideoPlayHandler.t;
  CurrentVideoIndex : Z;
  MaxVideoIndex : Z
}.

(** What sequencing asks of the rest of the player: [PlayVideo] on a handler
    of the queue, or the end of the sequence ([OnFinishedAllVideos], which
    broadcasts [OnAllVideosEnd]). *)
Inductive PlayerCall : Type :=
| CallPlayVideo (Handler : FVideoPlayHandler.t)
| CallAllVideosEnd.

(** [FVideoPlayHandler{}] *)
Definition DefaultHandler : FVideoPlayHandler.t :=
  FVideoPlayHandler.mk None ""%string false false false NAME_None NAME_None.

Definition IsValidIndex (Queue : list FVideoPlayHandler.t) (Index : Z) : bool :=
  (0 <=? Index) && (Index <? Z.of_nat (List.length Queue)).

Definition At (Queue : list FVideoPlayHandler.t) (Index : Z) : FVideoPlayHandler.t :=
  nth (Z.to_nat Index) Queue DefaultHandler.

(** [PlayVideoAtIndex]: the call it makes, if the index is valid. *)
Definition PlayVideoAtIndex (P : Player) (Index : Z) : list PlayerCall :=
  if IsValidIndex (VideoQueue P) Index
  then [CallPlayVideo (At (VideoQueue P) Index)]
  else [].

(** [OnFinishedAllVideos], as far as the queue goes: the queue is emptied,
    the index is left as it is. *)
Definition OnFinishedAllVideos (P : Player) : Player * list PlayerCall :=
  (mkPlayer [] (CurrentVideoIndex P) (MaxVideoIndex P), [CallAllVideosEnd]).

(** The loop [for (i = ...; i < VideoQueue.Num(); ++i)] of
    [PlayNextInSequence] over the handlers from index [i] on: the first index
    whose handler does not loop. *)
Fixpoint FirstNonLoop (Handlers : list FVideoPlayHandler.t) (i : Z) : option Z :=
  match Handlers with
  | [] => None
  | NextHandler :: rest =>
      if negb (FVideoPlayHandler.bLoop NextHandler) then Some i
      else FirstNonLoop rest (i + 1)
  end.

Definition PlayNextInSequence (P : Player) : Player * list PlayerCall :=
  if negb (IsValidIndex (VideoQueue P) (CurrentVideoIndex P)) then
    OnFinishedAllVideos P
  else
    let CurrentHandler := At (VideoQueue P) (CurrentVideoIndex P) in
    let NextIndex := CurrentVideoIndex P + 1 in
    if negb (FVideoPlayHandler.bLoop CurrentHandler)
       && IsValidIndex (VideoQueue P) NextIndex
       && String.eqb (FVideoPlayHandler.GroupID (At (VideoQueue P) NextIndex))
                     (FVideoPlayHandler.GroupID CurrentHandler)
       && FVideoPlayHandler.bLoop (At (VideoQueue P) NextIndex)
    then
      let P := mkPlayer (VideoQueue P) NextIndex (MaxVideoIndex P) in
      (P, PlayVideoAtIndex P NextIndex)
    else
      match FirstNonLoop (skipn (Z.to_nat NextIndex) (VideoQueue P)) NextIndex with
      | Some i =>
          let P := mkPlayer (VideoQueue P) i (MaxVideoIndex P) in
          (P, PlayVideoAtIndex P i)
      | None => OnFinishedAllVideos P
      end.

(** [PlayVideos], as far as the queue goes; the flag it returns is that of
    [PlayVideo] on the first handler, given here by [Opens]. *)
Definition PlayVideos (Opens : FVideoPlayHandler.t -> bool) (P : Player)
           (InVideoQueue : list FVideoPlayHandler.t)
  : Player * list PlayerCall * bool :=
  match InVideoQueue with
  | [] => (mkPlayer [] (CurrentVideoIndex P) (MaxVideoIndex P), [], false)
  | first :: _ =>
      let P := mkPlayer InVideoQueue 0 (Z.of_nat (List.length InVideoQueue) - 1) in
      (P, PlayVideoAtIndex P 0, Opens first)
  end.

(** *** Audio focus *)

Inductive MixCall : Type :=
| PushFocusMix   (* SetSoundMixClassOverride, PushSoundMixModifier *)
| PopFocusMix.   (* ClearSoundMixClassOverride, PopSoundMixModifier *)

(** [ApplyVideoAudioFocus]: [bReady] tells whether the world, the sound class
    and the mix are all set; the result is [bVideoAudioFocusActive] after the
    call and the calls made on the sound mix. *)
Definition ApplyVideoAudioFocus (bReady : bool) (bVideoAudioFocusActive : bool)
           (bEnable : bool) : bool * list MixCall :=
  if negb bReady then (false, [])
  else if bEnable then
    if bVideoAudioFocusActive then (bVideoAudioFocusActive, [])
    else (true, [PushFocusMix])
  else
    if negb bVideoAudioFocusActive then (bVideoAudioFocusActive, [])
    else (false, [PopFocusMix]).

(** A sequence of calls, each with its [bReady] and its [bEnable]. *)
Fixpoint FocusRun (bActive : bool) (Calls : list (bool * bool)) : bool * list MixCall :=
  match Calls with
  | [] => (bActive, [])
  | (bReady, bEnable) :: rest =>
      let '(bActive, made) := ApplyVideoAudioFocus bReady bActive bEnable in
      let '(bFinal, later) := FocusRun bActive rest in
      (bFinal, made ++ later)
  end.

Definition CountCalls (c : MixCall) (l : list MixCall) : Z :=
  Z.of_nat (List.length
              (filter (fun x => match c, x with
                                | PushFocusMix, PushFocusMix => true
                                | PopFocusMix, PopFocusMix => true
                                | _, _ => false
                                end) l)).

(** *** Instances *)

Definition Scene (Group : FName) (Prologue Loop : string) : FVideoResourceData :=
  mkVideoResource "Movies/"%string Group Prologue Loop ""%string ""%string
                  true false Group.

Definition HandlerOf (Group : FName) (Loops : bool) : FVideoPlayHandler.t :=
  FVideoPlayHandler.mk None ""%string false false Loops Group NAME_None.

(** Intro with its loop, an orphan loop of another group, then a result. *)
Definition DemoQueue : list FVideoPlayHandler.t :=
  [HandlerOf "Intro"%string false; HandlerOf "Intro"%string true;
   HandlerOf "Stray"%string true; HandlerOf "Result"%string false].

End VideoPlayer.

(** ** VideoPlayer_SubtitleSystem.cpp *)

(** [FSubtitleCue]; an [FTimespan] is its number of ticks. *)
Record FSubtitleCue : Type := mkCue {
  StartTime : Z;
  EndTime : Z;
  SubtitleText : string
}.

Module USubtitle.

(** [VideoPlayer] holds [VideoPlayer.IsValid()] of the weak pointer. *)
Record t : Type := mk {
  SubtitleCue : list FSubtitleCue;
  VideoPlayer : bool;
  CurrentIndex : Z;
  bIsShowingNarration : bool
}.

(** The calls made on [UDialogUI]. *)
Inductive DialogCall : Type :=
| CloseDialogWidget
| ShowNarration (Text : string).

Definition IsInTime (Cue : FSubtitleCue) (Time : Z) : bool :=
  (StartTime Cue <? Time) && (EndTime Cue >? Time).

Definition Num (Sub : t) : Z := Z.of_nat (List.length (SubtitleCue Sub)).

(** [SubtitleCue[CurrentIndex]]: an index outside the array is a fault. *)
Definition CueAt (Sub : t) : option FSubtitleCue :=
  if (0 <=? CurrentIndex Sub) && (CurrentIndex Sub <? Num Sub)
  then nth_error (SubtitleCue Sub) (Z.to_nat (CurrentIndex Sub))
  else None.

(** [Play]: [Player] tells whether the pointer passed is a live player. *)
Definition Play (Sub : t) (Player : bool) : t :=
  mk (SubtitleCue Sub) Player 0 (bIsShowingNarration Sub).

Definition Stop (Sub : t) : t * list DialogCall :=
  (mk [] false 0 false,
   if bIsShowingNarration Sub then [CloseDialogWidget] else []).

(** [Tick]: [CurrentTime] is [VideoPlayer->GetTime()], [bDialog] tells
    whether [UDialogUI::GetDialogWidget()] gives a widget. *)
Definition Tick (Sub : t) (CurrentTime : Z) (bDialog : bool)
  : option (t * list DialogCall) :=
  if negb (VideoPlayer Sub) then Some (Sub, [])
  else
    match CueAt Sub with
    | None => None
    | Some Cue =>
        if bIsShowingNarration Sub then
          if EndTime Cue <=? CurrentTime then
            let NextIndex := CurrentIndex Sub + 1 in
            if NextIndex >=? Num Sub
            then Some (mk (SubtitleCue Sub) false 0 false, [CloseDialogWidget])
            else Some (mk (SubtitleCue Sub) (VideoPlayer Sub) NextIndex false,
                       [CloseDialogWidget])
          else Some (Sub, [])
        else
          if StartTime Cue <=? CurrentTime then
            Some (mk (SubtitleCue Sub) (VideoPlayer Sub) (CurrentIndex Sub) true,
                  if bDialog then [ShowNarration (SubtitleText Cue)] else [])
          else Some (Sub, [])
    end.

Definition IsTickable (Sub : t) : bool :=
  VideoPlayer Sub && (CurrentIndex Sub <? Num Sub).

(** The frames of the game loop: [Tick] is called on a frame only if
    [IsTickable] holds then.  A frame is its [CurrentTime] and [bDialog]. *)
Fixpoint Run (Sub : t) (Frames : list (Z * bool)) : option (t * list DialogCall) :=
  match Frames with
  | [] => Some (Sub, [])
  | (CurrentTime, bDialog) :: rest =>
      if IsTickable Sub then
        match Tick Sub CurrentTime bDialog with
        | None => None
        | Some (Next, made) =>
            match Run Next rest with
            | None => None
            | Some (Final, later) => Some (Final, made ++ later)
            end
        end
      else Run Sub rest
  end.

(** What one cue asks of the dialog: shown, then closed. *)
Definition CueCalls (Cue : FSubtitleCue) : list DialogCall :=
  [ShowNarration (SubtitleText Cue); CloseDialogWidget].

(** *** Instances *)

Definition DemoCues : list FSubtitleCue :=
  [mkCue 10 30 "Hello"%string; mkCue 40 60 "World"%string].

Definition Loaded : t := mk DemoCues false 0 false.

End USubtitle.

(** * Properties *)

Module FMathFacts.

Lemma RandRange_bounds Min Max sample :
  Min <= Max -> Min <= FMath.RandRange Min Max sample <= Max.
Proof.
  intros H. unfold FMath.RandRange.
  destruct (Z.ltb_spec 0 (Max - Min + 1)) as [Hr|Hr]; [|lia].
  pose proof (Z.mod_pos_bound sample (Max - Min + 1) Hr). lia.
Qed.

Lemma Clamp_bounds X Lo Hi : Lo <= Hi -> Lo <= FMath.Clamp X Lo Hi <= Hi.
Proof. unfold FMath.Clamp. lia. Qed.

Lemma Clamp_id X Lo Hi : Lo <= X <= Hi -> FMath.Clamp X Lo Hi = X.
Proof. unfold FMath.Clamp. lia. Qed.

End FMathFacts.

Lemma EReward_eqb_eq a b : EReward_eqb a b = true <-> a = b.
Proof. destruct a, b; simpl; split; congruence. Qed.

Lemma EReward_eqb_refl a : EReward_eqb a a = true.
Proof. now apply EReward_eqb_eq. Qed.

Lemma ERewardSource_eqb_eq a b : ERewardSource_eqb a b = true <-> a = b.
Proof.
  destruct a as [|x], b as [|y]; simpl; split; try congruence.
  - intros H. apply Nat.eqb_eq in H. congruence.
  - intros H. injection H as ->. apply Nat.eqb_refl.
Qed.

(** ** The weighted roller *)

Module RollerFacts.
Import Gacha Scenario.

Lemma SumWeights_app l1 l2 :
  SumWeights (l1 ++ l2) = SumWeights l1 + SumWeights l2.
Proof. induction l1 as [|x l1 IH]; simpl; [reflexivity|]. rewrite IH. lia. Qed.

Lemma SumWeights_nonneg l :
  (forall x, In x l -> 0 <= Weight x) -> 0 <= SumWeights l.
Proof.
  induction l as [|x l IH]; simpl; intros H; [lia|].
  assert (0 <= Weight x) by (apply H; now left).
  assert (0 <= SumWeights l) by (apply IH; intros y Hy; apply H; now right).
  lia.
Qed.

Lemma SumWeights_zero l :
  (forall x, In x l -> Weight x = 0) -> SumWeights l = 0.
Proof.
  induction l as [|x l IH]; simpl; intros H; [reflexivity|].
  rewrite (H x) by now left. rewrite IH; [reflexivity|].
  intros y Hy. apply H. now right.
Qed.

(** An entry picked by the walk is an entry of the table. *)
Lemma WalkWeights_In entries : forall acc draw g,
  WalkWeights entries acc draw = Some g -> In g entries.
Proof.
  induction entries as [|x rest IH]; simpl; intros acc draw g H; [discriminate|].
  destruct (draw <=? acc + Weight x).
  - injection H as <-. now left.
  - right. eapply IH, H.
Qed.

(** The walk skips a prefix whose cumulative weights stay below the draw. *)
Lemma WalkWeights_skip pre : forall acc draw rest,
  (forall x, In x pre -> 0 <= Weight x) ->
  acc + SumWeights pre < draw ->
  WalkWeights (pre ++ rest) acc draw
  = WalkWeights rest (acc + SumWeights pre) draw.
Proof.
  induction pre as [|p pre IH]; simpl; intros acc draw rest Hnn Hlt.
  - f_equal. lia.
  - assert (0 <= Weight p) by (apply Hnn; now left).
    assert (0 <= SumWeights pre)
      by (apply SumWeights_nonneg; intros y Hy; apply Hnn; now right).
    destruct (Z.leb_spec draw (acc + Weight p)) as [Hle|Hgt]; [lia|].
    rewrite IH; [f_equal; lia| |lia].
    intros y Hy. apply Hnn. now right.
Qed.

Lemma WalkWeights_hit e post acc draw :
  draw <= acc + Weight e ->
  WalkWeights (e :: post) acc draw = Some e.
Proof.
  intros H. simpl. destruct (Z.leb_spec draw (acc + Weight e)); [reflexivity|lia].
Qed.

(** Draw value [W]: the last entry of nonzero weight. *)
Lemma WalkWeights_total pre e post :
  (forall x, In x (pre ++ e :: post) -> 0 <= Weight x) ->
  (forall x, In x post -> Weight x = 0) ->
  Weight e <> 0 ->
  WalkWeights (pre ++ e :: post) 0 (SumWeights (pre ++ e :: post)) = Some e.
Proof.
  intros Hnn Hpost He.
  assert (0 <= Weight e) by (apply Hnn, in_or_app; right; now left).
  assert (Hsum : SumWeights (pre ++ e :: post) = SumWeights pre + Weight e).
  { rewrite SumWeights_app. simpl. rewrite (SumWeights_zero post Hpost). lia. }
  rewrite Hsum, WalkWeights_skip.
  - apply WalkWeights_hit. lia.
  - intros x Hx. apply Hnn, in_or_app. now left.
  - lia.
Qed.

(** Draw value [1]: the first entry of nonzero weight. *)
Lemma WalkWeights_one pre e post :
  (forall x, In x (pre ++ e :: post) -> 0 <= Weight x) ->
  (forall x, In x pre -> Weight x = 0) ->
  Weight e <> 0 ->
  WalkWeights (pre ++ e :: post) 0 1 = Some e.
Proof.
  intros Hnn Hpre He.
  assert (0 <= Weight e) by (apply Hnn, in_or_app; right; now left).
  rewrite WalkWeights_skip.
  - apply WalkWeights_hit. rewrite (SumWeights_zero pre Hpre). lia.
  - intros x Hx. apply Hnn, in_or_app. now left.
  - rewrite (SumWeights_zero pre Hpre). lia.
Qed.

(** C4, as amended.  In a pool with non-negative weights whose
    [TotalGachaWeight] is the positive sum of the entry weights, the draw
    value [TotalGachaWeight] selects the last entry of nonzero weight (the
    last entry of the table whenever that entry's weight is not zero) and
    the draw value 1 selects the first entry of nonzero weight; in the pool
    A:70, B:25, C:5 the draw values 80, 100 and 1 select B, C and A. *)
Theorem C4_roll_endpoints :
  (forall (Pool : URewardData) (pre post : list URewardGachaRandomData)
          (e : URewardGachaRandomData) (Out : Z),
      GachaRandoms Pool = pre ++ e :: post ->
      (forall x, In x (GachaRandoms Pool) -> 0 <= Weight x) ->
      TotalGachaWeight Pool = SumWeights (GachaRandoms Pool) ->
      0 < TotalGachaWeight Pool ->
      Weight e <> 0 ->
      ((forall x, In x post -> Weight x = 0) ->
       WalkWeights (GachaRandoms Pool) 0 (TotalGachaWeight Pool) = Some e
       /\ RollWithDraw Pool Out (TotalGachaWeight Pool) = (Reward e, PickupGroup e))
      /\
      ((forall x, In x pre -> Weight x = 0) ->
       WalkWeights (GachaRandoms Pool) 0 1 = Some e
       /\ RollWithDraw Pool Out 1 = (Reward e, PickupGroup e)))
  /\ TotalGachaWeight PoolABC = SumWeights (GachaRandoms PoolABC)
  /\ WalkWeights (GachaRandoms PoolABC) 0 80 = Some EntryB
  /\ WalkWeights (GachaRandoms PoolABC) 0 100 = Some EntryC
  /\ WalkWeights (GachaRandoms PoolABC) 0 1 = Some EntryA.
Proof.
  split; [|repeat split; reflexivity].
  intros Pool pre post e Out Hsplit Hnn Htot Hpos He.
  split; intros Hz.
  - assert (Hw : WalkWeights (GachaRandoms Pool) 0 (TotalGachaWeight Pool) = Some e).
    { rewrite Htot, Hsplit. rewrite Hsplit in Hnn.
      now apply WalkWeights_total. }
    split; [exact Hw|]. unfold RollWithDraw. now rewrite Hw.
  - assert (Hw : WalkWeights (GachaRandoms Pool) 0 1 = Some e).
    { rewrite Hsplit. rewrite Hsplit in Hnn. now apply WalkWeights_one. }
    split; [exact Hw|]. unfold RollWithDraw. now rewrite Hw.
Qed.

Lemma C4_roll_endpoints_witness :
  WalkWeights (GachaRandoms PoolTrailingZero) 0
              (TotalGachaWeight PoolTrailingZero) = Some EntryLive
  /\ WalkWeights (GachaRandoms PoolABC) 0 1 = Some EntryA.
Proof.
  split.
  - refine (proj1 (proj1 (proj1 C4_roll_endpoints PoolTrailingZero
                     [] [EntryDead] EntryLive 0 eq_refl _ eq_refl _ _) _)).
    + intros x [<-|[<-|[]]]; simpl; lia.
    + reflexivity.
    + simpl. lia.
    + intros x [<-|[]]. reflexivity.
  - refine (proj1 (proj2 (proj1 C4_roll_endpoints PoolABC
                     [] [EntryB; EntryC] EntryA 0 eq_refl _ eq_refl _ _) _)).
    + intros x [<-|[<-|[<-|[]]]]; simpl; lia.
    + reflexivity.
    + simpl. lia.
    + intros x [].
Defined.

(** C4 as stated fails: with the entries Live:5, Dead:0 the total weight is
    5, the sum of the weights, and the draw value 5 selects Live, which is
    not the last entry of the pool. *)
Lemma C4_last_entry_counterexample :
  TotalGachaWeight PoolTrailingZero = SumWeights (GachaRandoms PoolTrailingZero)
  /\ 0 < TotalGachaWeight PoolTrailingZero
  /\ last (GachaRandoms PoolTrailingZero) EntryLive = EntryDead
  /\ RollWithDraw PoolTrailingZero 0 (TotalGachaWeight PoolTrailingZero)
     = (Reward EntryLive, PickupGroup EntryLive)
  /\ Reward EntryLive <> Reward EntryDead.
Proof. repeat split; try reflexivity. discriminate. Qed.

End RollerFacts.

(** ** The pity engine *)

Module PityFacts.
Import Gacha Scenario.

Section Run.
Variable RewardData : URewardData.
Variable Campaign : FGachaCampaignData.

Let Normal := NormalPickupGroup Campaign.
Let Special := SpecialPickupGroup Campaign.
Let Try := SpecialTryCount Campaign.

Lemma DrawLoop_acc samples : forall st acc,
  DrawLoop RewardData Campaign st samples acc
  = (CountersAfter RewardData Campaign st samples,
     acc ++ Draws RewardData Campaign st samples).
Proof.
  unfold CountersAfter, Draws.
  induction samples as [|x rest IH]; intros st acc; simpl.
  - now rewrite app_nil_r.
  - destruct (DrawOnce RewardData Campaign st x) as [st' h].
    rewrite (IH st' (acc ++ [h])), (IH st' [h]). simpl.
    now rewrite <- app_assoc.
Qed.

Lemma Draws_cons st x rest :
  Draws RewardData Campaign st (x :: rest)
  = snd (DrawOnce RewardData Campaign st x)
    :: Draws RewardData Campaign (fst (DrawOnce RewardData Campaign st x)) rest.
Proof.
  unfold Draws at 1. simpl.
  destruct (DrawOnce RewardData Campaign st x) as [st' h].
  now rewrite DrawLoop_acc.
Qed.

Lemma CountersAfter_cons st x rest :
  CountersAfter RewardData Campaign st (x :: rest)
  = CountersAfter RewardData Campaign (fst (DrawOnce RewardData Campaign st x)) rest.
Proof.
  unfold CountersAfter at 1. simpl.
  destruct (DrawOnce RewardData Campaign st x) as [st' h].
  now rewrite DrawLoop_acc.
Qed.

Lemma Draws_length samples : forall st,
  List.length (Draws RewardData Campaign st samples) = List.length samples.
Proof.
  induction samples as [|x rest IH]; intros st; [reflexivity|].
  rewrite Draws_cons. simpl. now rewrite IH.
Qed.

(** The handlers from draw [i] on are those of a run that starts from the
    counters reached after [i] draws. *)
Lemma Draws_skipn i : forall st samples,
  skipn i (Draws RewardData Campaign st samples)
  = Draws RewardData Campaign
      (CountersAfter RewardData Campaign st (firstn i samples)) (skipn i samples).
Proof.
  induction i as [|i IH]; intros st samples; [reflexivity|].
  destruct samples as [|x rest]; [reflexivity|].
  rewrite Draws_cons. simpl skipn. simpl firstn.
  now rewrite CountersAfter_cons, IH.
Qed.

Lemma NoOrganicHit_skipn threshold i : forall st samples,
  NoOrganicHit RewardData Campaign threshold st samples ->
  NoOrganicHit RewardData Campaign threshold
    (CountersAfter RewardData Campaign st (firstn i samples)) (skipn i samples).
Proof.
  induction i as [|i IH]; intros st samples H; [exact H|].
  destruct samples as [|x rest]; [exact I|].
  simpl firstn. simpl skipn. rewrite CountersAfter_cons.
  apply IH. exact (proj2 H).
Qed.

Lemma nth_default_In {A} (l : list A) (d : A) n : In d l -> In (nth n l d) l.
Proof.
  intros Hd. destruct (Nat.lt_ge_cases n (List.length l)) as [Hlt|Hge].
  - now apply nth_In.
  - now rewrite nth_overflow.
Qed.

(** A pity pick from a non-empty candidate set is a reward of the tier. *)
Lemma AddPickupReward_grants threshold sample :
  PickupCandidates RewardData threshold <> [] ->
  GrantsTier RewardData threshold
    (AddPickupReward (Some RewardData) threshold sample).
Proof.
  intros Hne. unfold AddPickupReward.
  destruct (PickupCandidates RewardData threshold) as [|first tl] eqn:E;
    [congruence|].
  set (n := Z.to_nat _).
  assert (Hin : In (nth n (first :: tl) first) (first :: tl))
    by (apply nth_default_In; now left).
  set (g := nth n (first :: tl) first) in *. clearbody g.
  rewrite <- E in Hin. unfold PickupCandidates in Hin.
  apply filter_In in Hin. destruct Hin as [Hin Hge].
  exists g. repeat split; [exact Hin|lia].
Qed.

Lemma PickupCandidates_mono lo hi :
  lo <= hi ->
  PickupCandidates RewardData hi <> [] -> PickupCandidates RewardData lo <> [].
Proof.
  intros Hle Hne Hnil.
  destruct (PickupCandidates RewardData hi) as [|g tl] eqn:E; [congruence|].
  assert (Hg : In g (PickupCandidates RewardData hi)) by (rewrite E; now left).
  apply filter_In in Hg. destruct Hg as [Hg Hge].
  assert (Hin : In g (PickupCandidates RewardData lo)).
  { apply filter_In. split; [exact Hg|]. apply Z.leb_le. apply Z.leb_le in Hge. lia. }
  rewrite Hnil in Hin. exact Hin.
Qed.

Lemma GrantsTier_mono lo hi h :
  lo <= hi -> GrantsTier RewardData hi h -> GrantsTier RewardData lo h.
Proof.
  intros Hle (g & Hg & Hge & Hr). exists g. repeat split; [exact Hg|lia|exact Hr].
Qed.

(** A normal roll misses ([PickupGroup] keeps the 0 it was initialised with)
    or returns an entry of the table together with its tier. *)
Lemma RollRandomReward_cases sample :
  RollRandomReward RewardData 0 sample = (NoReward, 0)
  \/ exists g, In g (GachaRandoms RewardData)
               /\ RollRandomReward RewardData 0 sample = (Reward g, PickupGroup g).
Proof.
  unfold RollRandomReward, RollWithDraw.
  destruct (WalkWeights _ 0 _) as [g|] eqn:E; [right|now left].
  exists g. split; [|reflexivity]. eapply RollerFacts.WalkWeights_In, E.
Qed.

(** Counters never become negative. *)
Lemma DrawOnce_nonneg st sample :
  0 <= NormalPickupCounter st -> 0 <= SpecialPickupCounter st ->
  0 <= NormalPickupCounter (fst (DrawOnce RewardData Campaign st sample))
  /\ 0 <= SpecialPickupCounter (fst (DrawOnce RewardData Campaign st sample)).
Proof.
  intros Hn Hs. unfold DrawOnce.
  destruct (SpecialPityDue Campaign st); [simpl; lia|].
  destruct (NormalPityDue Campaign st); [simpl; lia|].
  destruct (RollRandomReward RewardData 0 sample) as [r g].
  destruct (_ <=? g); [simpl; lia|].
  destruct (_ <=? g); simpl; lia.
Qed.

Lemma DrawOnce_special_nonneg st sample :
  0 <= SpecialPickupCounter st ->
  0 <= SpecialPickupCounter (fst (DrawOnce RewardData Campaign st sample)).
Proof.
  intros Hs. unfold DrawOnce.
  destruct (SpecialPityDue Campaign st); [simpl; lia|].
  destruct (NormalPityDue Campaign st); [simpl; lia|].
  destruct (RollRandomReward RewardData 0 sample) as [r g].
  destruct (_ <=? g); [simpl; lia|].
  destruct (_ <=? g); simpl; lia.
Qed.

Lemma DrawOnce_normal_nonneg st sample :
  0 <= NormalPickupCounter st ->
  0 <= NormalPickupCounter (fst (DrawOnce RewardData Campaign st sample)).
Proof.
  intros Hs. unfold DrawOnce.
  destruct (SpecialPityDue Campaign st); [simpl; lia|].
  destruct (NormalPityDue Campaign st); [simpl; lia|].
  destruct (RollRandomReward RewardData 0 sample) as [r g].
  destruct (_ <=? g); [simpl; lia|].
  destruct (_ <=? g); simpl; lia.
Qed.

Lemma CountersAfter_special_nonneg samples : forall st,
  0 <= SpecialPickupCounter st ->
  0 <= SpecialPickupCounter (CountersAfter RewardData Campaign st samples).
Proof.
  induction samples as [|x rest IH]; intros st H; [exact H|].
  rewrite CountersAfter_cons. now apply IH, DrawOnce_special_nonneg.
Qed.

Lemma CountersAfter_normal_nonneg samples : forall st,
  0 <= NormalPickupCounter st ->
  0 <= NormalPickupCounter (CountersAfter RewardData Campaign st samples).
Proof.
  induction samples as [|x rest IH]; intros st H; [exact H|].
  rewrite CountersAfter_cons. now apply IH, DrawOnce_normal_nonneg.
Qed.

(** One draw under special pity: a reward of the special tier, or the
    special counter moves one step towards a threshold not yet reached. *)
Lemma special_step st sample :
  0 < Special ->
  PickupCandidates RewardData Special <> [] ->
  GrantsTier RewardData Special (snd (DrawOnce RewardData Campaign st sample))
  \/ (SpecialPickupCounter (fst (DrawOnce RewardData Campaign st sample))
      = SpecialPickupCounter st + 1
      /\ SpecialPickupCounter st + 1 < Try).
Proof.
  intros Hen Hne. unfold DrawOnce.
  destruct (SpecialPityDue Campaign st) eqn:Hsp.
  { left. simpl. now apply AddPickupReward_grants. }
  assert (Hlt : SpecialPickupCounter st + 1 < Try).
  { unfold SpecialPityDue in Hsp. fold Special Try in Hsp.
    apply andb_false_iff in Hsp. destruct Hsp as [H|H].
    - apply Z.ltb_ge in H. lia.
    - apply Z.leb_gt in H. exact H. }
  destruct (NormalPityDue Campaign st); [right; simpl; now split|].
  destruct (RollRandomReward_cases sample) as [E|(g & Hg & E)]; rewrite E.
  - fold Special. destruct (Z.leb_spec Special 0); [lia|].
    right. destruct (_ <=? 0); simpl; now split.
  - fold Special. destruct (Z.leb_spec Special (PickupGroup g)) as [Hge|Hlow].
    + left. simpl. exists g. now repeat split.
    + right. destruct (_ <=? PickupGroup g); simpl; now split.
Qed.

Lemma special_window k : forall st samples,
  0 < Special ->
  PickupCandidates RewardData Special <> [] ->
  (1 <= k)%nat ->
  Try <= SpecialPickupCounter st + Z.of_nat k ->
  (k <= List.length samples)%nat ->
  Exists (GrantsTier RewardData Special)
         (firstn k (Draws RewardData Campaign st samples)).
Proof.
  induction k as [|k IH]; intros st samples Hen Hne Hk Htry Hlen; [lia|].
  destruct samples as [|x rest]; [simpl in Hlen; lia|].
  rewrite Draws_cons. simpl firstn.
  destruct (special_step st x Hen Hne) as [Hg|[Hs Hlt]].
  - now apply Exists_cons_hd.
  - apply Exists_cons_tl. apply IH; try assumption.
    + lia.
    + rewrite Hs. lia.
    + simpl in Hlen. lia.
Qed.

(** One draw under normal pity when no normal roll reaches the normal tier. *)
Lemma normal_step st sample :
  0 < Normal -> Normal <= Special ->
  PickupCandidates RewardData Special <> [] ->
  (SpecialPityDue Campaign st = false ->
   NormalPityDue Campaign st = false ->
   snd (RollRandomReward RewardData 0 sample) < Normal) ->
  GrantsTier RewardData Normal (snd (DrawOnce RewardData Campaign st sample))
  \/ (NormalPickupCounter (fst (DrawOnce RewardData Campaign st sample))
      = NormalPickupCounter st + 1
      /\ NormalPickupCounter st + 1 < 10).
Proof.
  intros Hen Hle Hne Horg. unfold DrawOnce.
  destruct (SpecialPityDue Campaign st) eqn:Hsp.
  { left. simpl. apply GrantsTier_mono with (hi := Special); [exact Hle|].
    now apply AddPickupReward_grants. }
  destruct (NormalPityDue Campaign st) eqn:Hno.
  { left. simpl. apply AddPickupReward_grants.
    now apply PickupCandidates_mono with (hi := Special). }
  assert (Hlt : NormalPickupCounter st + 1 < 10).
  { unfold NormalPityDue in Hno. fold Normal in Hno.
    apply andb_false_iff in Hno. destruct Hno as [H|H].
    - apply Z.ltb_ge in H. lia.
    - apply Z.leb_gt in H. exact H. }
  specialize (Horg eq_refl eq_refl).
  destruct (RollRandomReward RewardData 0 sample) as [r g]. simpl in Horg.
  fold Special Normal.
  destruct (Z.leb_spec Special g); [lia|].
  destruct (Z.leb_spec Normal g); [lia|].
  right. simpl. now split.
Qed.

Lemma normal_window k : forall st samples,
  0 < Normal -> Normal <= Special ->
  PickupCandidates RewardData Special <> [] ->
  (1 <= k)%nat ->
  10 <= NormalPickupCounter st + Z.of_nat k ->
  (k <= List.length samples)%nat ->
  NoOrganicHit RewardData Campaign Normal st samples ->
  Exists (GrantsTier RewardData Normal)
         (firstn k (Draws RewardData Campaign st samples)).
Proof.
  induction k as [|k IH]; intros st samples Hen Hle Hne Hk Hten Hlen Horg; [lia|].
  destruct samples as [|x rest]; [simpl in Hlen; lia|].
  rewrite Draws_cons. simpl firstn. destruct Horg as [Hx Hrest].
  destruct (normal_step st x Hen Hle Hne Hx) as [Hg|[Hs Hlt]].
  - now apply Exists_cons_hd.
  - apply Exists_cons_tl. apply IH; try assumption.
    + lia.
    + rewrite Hs. lia.
    + simpl in Hlen. lia.
Qed.

End Run.

(** C1, as amended.  When a pity threshold is reached on a draw and no entry
    of the pool has [PickupGroup] at or above the configured tier, the draw
    makes no normal roll: the handler recorded for the draw is the [None]
    sentinel, whatever the random sample, and the counters are reset as after
    a served pity (both counters on the special path, the normal counter on
    the normal path). *)
Theorem C1_empty_subset_records_none :
  forall (RewardData : URewardData) (Campaign : FGachaCampaignData)
         (st : PityCounters) (sample : Z),
    (SpecialPityDue Campaign st = true ->
     PickupCandidates RewardData (SpecialPickupGroup Campaign) = [] ->
     DrawOnce RewardData Campaign st sample
     = (mkCounters (TotalPickupCount st + 1) 0 0, NoReward)
     /\ Draws RewardData Campaign st [sample] = [NoReward])
    /\
    (SpecialPityDue Campaign st = false ->
     NormalPityDue Campaign st = true ->
     PickupCandidates RewardData (NormalPickupGroup Campaign) = [] ->
     DrawOnce RewardData Campaign st sample
     = (mkCounters (TotalPickupCount st + 1) 0 (SpecialPickupCounter st + 1),
        NoReward)
     /\ Draws RewardData Campaign st [sample] = [NoReward]).
Proof.
  intros RewardData Campaign st sample. split.
  - intros Hsp Hempty.
    assert (E : DrawOnce RewardData Campaign st sample
                = (mkCounters (TotalPickupCount st + 1) 0 0, NoReward)).
    { unfold DrawOnce. rewrite Hsp. unfold AddPickupReward. now rewrite Hempty. }
    split; [exact E|]. rewrite Draws_cons, E. reflexivity.
  - intros Hsp Hno Hempty.
    assert (E : DrawOnce RewardData Campaign st sample
                = (mkCounters (TotalPickupCount st + 1) 0
                              (SpecialPickupCounter st + 1), NoReward)).
    { unfold DrawOnce. rewrite Hsp, Hno. unfold AddPickupReward.
      now rewrite Hempty. }
    split; [exact E|]. rewrite Draws_cons, E. reflexivity.
Qed.

Lemma C1_empty_subset_records_none_witness :
  Draws PoolCommonOnly CampaignSpecialEvery2 (mkCounters 0 0 1) [7] = [NoReward]
  /\ Draws PoolCommonOnly CampaignNormal2 (mkCounters 0 9 0) [7] = [NoReward].
Proof.
  split.
  - exact (proj2 (proj1 (C1_empty_subset_records_none PoolCommonOnly
             CampaignSpecialEvery2 (mkCounters 0 0 1) 7) eq_refl eq_refl)).
  - exact (proj2 (proj2 (C1_empty_subset_records_none PoolCommonOnly
             CampaignNormal2 (mkCounters 0 9 0) 7) eq_refl eq_refl eq_refl)).
Defined.

(** C1 as stated fails: on the tenth draw of a campaign with normal pity at
    tier 2 against a pool whose only entry has tier 1, the candidate set is
    empty, the recorded handler is the [None] sentinel, and a normal roll with
    the same sample returns the entry's reward. *)
Lemma C1_no_fallback_counterexample :
  NormalPityDue CampaignNormal2 (mkCounters 0 9 0) = true
  /\ PickupCandidates PoolCommonOnly (NormalPickupGroup CampaignNormal2) = []
  /\ Draws PoolCommonOnly CampaignNormal2 (mkCounters 0 9 0) [7] = [NoReward]
  /\ fst (RollRandomReward PoolCommonOnly 0 7) = Reward EntryCommon
  /\ Draws PoolCommonOnly CampaignNormal2 (mkCounters 0 9 0) [7]
     <> [fst (RollRandomReward PoolCommonOnly 0 7)].
Proof. repeat split; try reflexivity. discriminate. Qed.

(** A reward of a tier can only be granted by a pool that has an entry of
    that tier. *)
Lemma GrantsTier_candidates RewardData threshold h :
  GrantsTier RewardData threshold h ->
  PickupCandidates RewardData threshold <> [].
Proof.
  intros (g & Hg & Hge & _) Hnil.
  assert (Hin : In g (PickupCandidates RewardData threshold)).
  { apply filter_In. split; [exact Hg|]. now apply Z.leb_le. }
  rewrite Hnil in Hin. exact Hin.
Qed.

Lemma Exists_firstn_le {A} (P : A -> Prop) (l : list A) n k :
  (n <= k)%nat -> Exists P (firstn n l) -> Exists P (firstn k l).
Proof.
  intros Hle H. apply Exists_exists in H. destruct H as (x & Hx & Px).
  apply Exists_exists. exists x. split; [|exact Px].
  rewrite <- (firstn_skipn n (firstn k l)), firstn_firstn, Nat.min_l by exact Hle.
  apply in_or_app. now left.
Qed.

(** Under special pity every [SpecialTryCount] consecutive draws contain a
    reward of the special tier, provided the pool has an entry of that tier. *)
Lemma special_pity_window RewardData Campaign st samples i :
  0 < SpecialPickupGroup Campaign ->
  1 <= SpecialTryCount Campaign ->
  PickupCandidates RewardData (SpecialPickupGroup Campaign) <> [] ->
  0 <= SpecialPickupCounter st ->
  (i + Z.to_nat (SpecialTryCount Campaign) <= List.length samples)%nat ->
  Exists (GrantsTier RewardData (SpecialPickupGroup Campaign))
         (firstn (Z.to_nat (SpecialTryCount Campaign))
                 (skipn i (Draws RewardData Campaign st samples))).
Proof.
  intros Hen Htry Hne Hs Hlen. rewrite Draws_skipn.
  apply special_window; try assumption.
  - lia.
  - pose proof (CountersAfter_special_nonneg RewardData Campaign
                  (firstn i samples) st Hs). lia.
  - rewrite length_skipn. lia.
Qed.

(** C2.  With special pity enabled, a try count of at least one draw and
    counters that are not negative: once a draw has granted a reward of tier
    [>= SpecialPickupGroup], every run of following draws without such a
    reward is shorter than [SpecialTryCount], whatever the normal-pity
    settings, so that consecutive rewards of the special tier are at most
    [SpecialTryCount] draws apart; when the pool has an entry of the special
    tier, every [SpecialTryCount] consecutive draws contain such a reward;
    and a draw on which both pity conditions hold takes the special path
    only: it emplaces the one handler picked from the special-tier
    candidates and resets both counters. *)
Theorem C2_special_pity_bound_and_priority :
  (forall (RewardData : URewardData) (Campaign : FGachaCampaignData)
          (st : PityCounters) (samples : list Z) (i k : nat) (h : FRewardHandler),
      0 < SpecialPickupGroup Campaign ->
      1 <= SpecialTryCount Campaign ->
      0 <= SpecialPickupCounter st ->
      nth_error (Draws RewardData Campaign st samples) i = Some h ->
      GrantsTier RewardData (SpecialPickupGroup Campaign) h ->
      (S i + k <= List.length samples)%nat ->
      Forall (fun h' => ~ GrantsTier RewardData (SpecialPickupGroup Campaign) h')
             (firstn k (skipn (S i) (Draws RewardData Campaign st samples))) ->
      Z.of_nat k < SpecialTryCount Campaign)
  /\
  (forall (RewardData : URewardData) (Campaign : FGachaCampaignData)
          (st : PityCounters) (samples : list Z) (i : nat),
      0 < SpecialPickupGroup Campaign ->
      1 <= SpecialTryCount Campaign ->
      0 <= SpecialPickupCounter st ->
      PickupCandidates RewardData (SpecialPickupGroup Campaign) <> [] ->
      (i + Z.to_nat (SpecialTryCount Campaign) <= List.length samples)%nat ->
      Exists (GrantsTier RewardData (SpecialPickupGroup Campaign))
             (firstn (Z.to_nat (SpecialTryCount Campaign))
                     (skipn i (Draws RewardData Campaign st samples))))
  /\
  (forall (RewardData : URewardData) (Campaign : FGachaCampaignData)
          (st : PityCounters) (sample : Z),
      SpecialPityDue Campaign st = true ->
      NormalPityDue Campaign st = true ->
      DrawOnce RewardData Campaign st sample
      = (mkCounters (TotalPickupCount st + 1) 0 0,
         AddPickupReward (Some RewardData) (SpecialPickupGroup Campaign) sample)
      /\ Draws RewardData Campaign st [sample]
         = [AddPickupReward (Some RewardData) (SpecialPickupGroup Campaign) sample]).
Proof.
  split; [|split].
  - intros RewardData Campaign st samples i k h Hen Htry Hs _ Hgrant Hlen Hnone.
    destruct (Z.lt_ge_cases (Z.of_nat k) (SpecialTryCount Campaign)) as [|Hge];
      [assumption|exfalso].
    assert (Hwin := special_pity_window RewardData Campaign st samples (S i)
                      Hen Htry (GrantsTier_candidates _ _ _ Hgrant) Hs).
    assert (Hex : Exists (GrantsTier RewardData (SpecialPickupGroup Campaign))
                    (firstn k (skipn (S i) (Draws RewardData Campaign st samples)))).
    { apply Exists_firstn_le with (n := Z.to_nat (SpecialTryCount Campaign)); [lia|].
      apply Hwin. lia. }
    apply Exists_exists in Hex. destruct Hex as (x & Hx & Px).
    rewrite Forall_forall in Hnone. exact (Hnone x Hx Px).
  - intros RewardData Campaign st samples i Hen Htry Hs Hne Hlen.
    now apply special_pity_window.
  - intros RewardData Campaign st sample Hsp _.
    assert (E : DrawOnce RewardData Campaign st sample
                = (mkCounters (TotalPickupCount st + 1) 0 0,
                   AddPickupReward (Some RewardData)
                                   (SpecialPickupGroup Campaign) sample)).
    { unfold DrawOnce. now rewrite Hsp. }
    split; [exact E|]. rewrite Draws_cons, E. reflexivity.
Qed.

Lemma C2_special_pity_bound_and_priority_witness :
  Z.of_nat 2 < SpecialTryCount CampaignABC
  /\ Exists (GrantsTier PoolABC (SpecialPickupGroup CampaignABC))
            (firstn (Z.to_nat (SpecialTryCount CampaignABC))
                    (skipn 1 (Draws PoolABC CampaignABC FreshCounters
                                    [0; 0; 0; 0; 0; 0])))
  /\ Draws PoolABC CampaignABC (mkCounters 0 9 2) [0] = [Reward EntryC].
Proof.
  assert (HnotA : ~ GrantsTier PoolABC (SpecialPickupGroup CampaignABC)
                      (Reward EntryA)).
  { intros (g & Hg & Hge & Hr). simpl in Hg.
    destruct Hg as [<-|[<-|[<-|[]]]]; simpl in Hge, Hr; try lia; discriminate. }
  split; [|split].
  - apply (proj1 C2_special_pity_bound_and_priority PoolABC CampaignABC
             FreshCounters [0; 0; 0; 0; 0; 0] 2%nat 2%nat (Reward EntryC)).
    + simpl. lia.
    + simpl. lia.
    + simpl. lia.
    + reflexivity.
    + exists EntryC. simpl. repeat split; [tauto|lia].
    + simpl. lia.
    + repeat constructor; exact HnotA.
  - apply (proj1 (proj2 C2_special_pity_bound_and_priority) PoolABC CampaignABC
             FreshCounters [0; 0; 0; 0; 0; 0] 1%nat).
    + simpl. lia.
    + simpl. lia.
    + simpl. lia.
    + discriminate.
    + simpl. lia.
  - apply (proj2 (proj2 C2_special_pity_bound_and_priority) PoolABC CampaignABC
             (mkCounters 0 9 2) 0); reflexivity.
Defined.

(** C3, as amended.  With normal pity enabled, special pity set at a tier
    that is not below the normal tier, a pool that has an entry of the
    special tier and a normal counter that is not negative: in a run in which
    no normal roll yields a tier [>= NormalPickupGroup], every window of 10
    consecutive draws contains a draw that grants a reward of tier
    [>= NormalPickupGroup]. *)
Theorem C3_normal_pity_window :
  forall (RewardData : URewardData) (Campaign : FGachaCampaignData)
         (st : PityCounters) (samples : list Z) (i : nat),
    0 < NormalPickupGroup Campaign ->
    NormalPickupGroup Campaign <= SpecialPickupGroup Campaign ->
    PickupCandidates RewardData (SpecialPickupGroup Campaign) <> [] ->
    0 <= NormalPickupCounter st ->
    NoOrganicHit RewardData Campaign (NormalPickupGroup Campaign) st samples ->
    (i + 10 <= List.length samples)%nat ->
    Exists (GrantsTier RewardData (NormalPickupGroup Campaign))
           (firstn 10 (skipn i (Draws RewardData Campaign st samples))).
Proof.
  intros RewardData Campaign st samples i Hen Hle Hne Hn Horg Hlen.
  rewrite Draws_skipn.
  apply normal_window; try assumption.
  - lia.
  - pose proof (CountersAfter_normal_nonneg RewardData Campaign
                  (firstn i samples) st Hn). lia.
  - rewrite length_skipn. lia.
  - now apply NoOrganicHit_skipn.
Qed.

Lemma C3_normal_pity_window_witness :
  Exists (GrantsTier PoolABC (NormalPickupGroup CampaignABC))
         (firstn 10 (skipn 1 (Draws PoolABC CampaignABC FreshCounters
                                    (repeat 0 11)))).
Proof.
  apply (C3_normal_pity_window PoolABC CampaignABC FreshCounters (repeat 0 11) 1%nat).
  - simpl. lia.
  - simpl. lia.
  - discriminate.
  - simpl. lia.
  - simpl. repeat split; intros _ _; reflexivity.
  - simpl. lia.
Defined.

(** C3 as stated fails: under normal pity at tier 2 (and special pity at tier
    3) the pool whose only entry has tier 1 gives, in ten draws from fresh
    counters, nine normal rolls of tier 1 and then the [None] sentinel of the
    unserved pity: no draw of the window grants a reward of tier [>= 2]. *)
Lemma C3_window_counterexample :
  0 < NormalPickupGroup CampaignNormal2
  /\ NoOrganicHit PoolCommonOnly CampaignNormal2
       (NormalPickupGroup CampaignNormal2) FreshCounters (repeat 0 10)
  /\ Draws PoolCommonOnly CampaignNormal2 FreshCounters (repeat 0 10)
     = repeat (Reward EntryCommon) 9 ++ [NoReward]
  /\ ~ Exists (GrantsTier PoolCommonOnly (NormalPickupGroup CampaignNormal2))
         (firstn 10 (Draws PoolCommonOnly CampaignNormal2 FreshCounters
                           (repeat 0 10))).
Proof.
  split; [simpl; lia|]. split; [|split].
  - simpl. repeat split; intros _ _; reflexivity.
  - reflexivity.
  - intros H. apply Exists_exists in H. destruct H as (x & _ & g & Hg & Hge & _).
    simpl in Hg. destruct Hg as [<-|[]]. simpl in Hge. lia.
Qed.

(** With special pity disabled ([SpecialPickupGroup = 0]) every normal roll
    of a tier [>= 0] passes the test [PickupGroup >= SpecialPickupGroup] and
    resets both counters: normal pity is never reached, although the pool
    has an entry of the normal tier. *)
Remark normal_pity_without_special :
  SpecialPickupGroup CampaignNormalOnly = 0
  /\ PickupCandidates PoolCommonRare (NormalPickupGroup CampaignNormalOnly)
     = [EntryRare]
  /\ Draws PoolCommonRare CampaignNormalOnly FreshCounters (repeat 0 10)
     = repeat (ItemReward "Common"%string) 10
  /\ CountersAfter PoolCommonRare CampaignNormalOnly FreshCounters (repeat 0 10)
     = mkCounters 10 0 0.
Proof. repeat split. Qed.

(** A request that passes the guards of [OnPostGive_Gacha] is a run of
    [Amount] draws from the saved counters (0 and 0 when none are saved): it
    hands the handlers of the run to [GiveRewards] and saves the counters the
    run ends with. *)
Lemma OnPostGive_Gacha_run W st InReward samples RewardData CampaignData :
  RewardDataTable W (TypeRowName InReward) = Some RewardData ->
  FindCampaign (GachaCampaignDataTable W) (RewardGroupName RewardData)
  = Some CampaignData ->
  0 < TotalGachaWeight RewardData ->
  0 < Amount InReward ->
  let Saved := match GachaCounterSave W (TypeRowName InReward) with
               | Some c => c
               | None => (0, 0)
               end in
  let Start := mkCounters (TotalPickupCount st) (fst Saved) (snd Saved) in
  let Inputs := map samples (seq 0 (Z.to_nat (Amount InReward))) in
  let Final := CountersAfter RewardData CampaignData Start Inputs in
  OnPostGive_Gacha W st InReward samples
  = (Final,
     SetGachaCounter (GachaCounterSave W) (TypeRowName InReward)
       (NormalPickupCounter Final) (SpecialPickupCounter Final),
     Some (Draws RewardData CampaignData Start Inputs)).
Proof.
  intros Hrow Hcamp Hw Hn. unfold OnPostGive_Gacha. rewrite Hrow, Hcamp.
  destruct (match GachaCounterSave W (TypeRowName InReward) with
            | Some c => c
            | None => (0, 0)
            end) as [Normal Special].
  destruct (Z.leb_spec (TotalGachaWeight RewardData) 0); [lia|].
  destruct (Z.leb_spec (Amount InReward) 0); [lia|].
  simpl orb. cbv iota. cbn [fst snd]. rewrite DrawLoop_acc. cbn [app].
  rewrite Draws_length, length_map, length_seq, Z2Nat.id by lia.
  now rewrite Z.eqb_refl.
Qed.

End PityFacts.

(** ** The reward expander *)

Module ExpanderFacts.
Import Gacha Scenario.

Section Expansion.
Variable FindRow : FName -> option URewardData.

Lemma Good_refl st : Forall Atomic (fst st) -> Good (fst st) st.
Proof. intros H. split; [exact H|]. exists []. now rewrite app_nil_r. Qed.

Lemma Good_trans base st1 st2 :
  Good base st1 -> Good (fst st1) st2 -> Good base st2.
Proof.
  intros [_ [a1 E1]] [H2 [a2 E2]]. split; [exact H2|].
  exists (a1 ++ a2). now rewrite E2, E1, app_assoc.
Qed.

Lemma Repeat_good Build Sub :
  Returns Build Sub ->
  forall count st, Forall Atomic (fst st) ->
    exists st',
      Repeat count (fun st => bind (Build Sub st) (fun r => Some (snd r))) st
      = Some st'
      /\ Good (fst st) st'.
Proof.
  intros Hret. induction count as [|count IH]; intros st Hst; simpl.
  - exists st. split; [reflexivity|now apply Good_refl].
  - destruct (Hret st Hst) as (b & st1 & E & G1). rewrite E. simpl.
    destruct (IH st1 (proj1 G1)) as (st2 & E2 & G2).
    exists st2. split; [exact E2|]. eapply Good_trans; eassumption.
Qed.

Lemma AddReward_good Build Handler :
  (RewardType Handler = EReward_RewardData ->
   Returns Build (FindRow (TypeRowName Handler))) ->
  forall st, Forall Atomic (fst st) ->
    exists st', AddReward FindRow Build Handler st = Some st'
                /\ Good (fst st) st'.
Proof.
  intros Hret st Hst. unfold AddReward.
  destruct (EReward_eqb (RewardType Handler) EReward_RewardData) eqn:E.
  - apply EReward_eqb_eq in E. now apply Repeat_good; [apply Hret|].
  - eexists. split; [reflexivity|]. split; simpl.
    + apply Forall_app. split; [exact Hst|]. constructor; [|constructor].
      unfold Atomic. intros Heq. apply EReward_eqb_eq in Heq. congruence.
    + now exists [Handler].
Qed.

Lemma ForEach_good Build Handlers :
  (forall Handler, In Handler Handlers ->
     RewardType Handler = EReward_RewardData ->
     Returns Build (FindRow (TypeRowName Handler))) ->
  forall st, Forall Atomic (fst st) ->
    exists st', ForEach (AddReward FindRow Build) Handlers st = Some st'
                /\ Good (fst st) st'.
Proof.
  induction Handlers as [|h rest IH]; intros Hret st Hst; simpl.
  - exists st. split; [reflexivity|now apply Good_refl].
  - destruct (AddReward_good Build h (Hret h (or_introl eq_refl)) st Hst)
      as (st1 & E1 & G1).
    rewrite E1. simpl.
    destruct (IH (fun x Hx => Hret x (or_intror Hx)) st1 (proj1 G1))
      as (st2 & E2 & G2).
    exists st2. split; [exact E2|]. eapply Good_trans; eassumption.
Qed.

Lemma WalkRandoms_In entries : forall acc draw r,
  WalkRandoms entries acc draw = Some r -> In r entries.
Proof.
  induction entries as [|x rest IH]; simpl; intros acc draw r H; [discriminate|].
  destruct (draw <=? acc + RandomWeight x).
  - injection H as <-. now left.
  - right. eapply IH, H.
Qed.

Lemma BuildBody_good Build Data :
  (forall Handler, In Handler (References Data) ->
     RewardType Handler = EReward_RewardData ->
     Returns Build (FindRow (TypeRowName Handler))) ->
  forall st, Forall Atomic (fst st) ->
    exists b st', BuildBody FindRow Build Data st = Some (b, st')
                  /\ Good (fst st) st'
                  /\ b = negb (IsEmpty (fst st')).
Proof.
  intros Hret st Hst. unfold BuildBody.
  destruct (ForEach_good Build (Statics Data)
              (fun h Hh => Hret h (in_or_app _ _ _ (or_introl Hh))) st Hst)
    as (st1 & E1 & G1).
  rewrite E1. cbn [bind].
  destruct (IsEmpty (Randoms Data)).
  - cbn [bind]. exists (negb (IsEmpty (fst st1))), st1.
    repeat split; try reflexivity; apply G1.
  - unfold NextSample. cbv beta iota zeta.
    destruct (WalkRandoms _ 0 _) as [r|] eqn:Ew.
    + apply WalkRandoms_In in Ew.
      assert (Hr : RewardType (RandomReward r) = EReward_RewardData ->
                   Returns Build (FindRow (TypeRowName (RandomReward r)))).
      { apply Hret. apply in_or_app. right. now apply in_map. }
      destruct (AddReward_good Build (RandomReward r) Hr
                  (fst st1, mkStream (Samples (snd st1)) (S (Cursor (snd st1))))
                  (proj1 G1))
        as (st2 & E2 & G2).
      rewrite E2. cbn [bind]. exists (negb (IsEmpty (fst st2))), st2.
      repeat split; try reflexivity; try apply G2.
      eapply Good_trans; [exact G1|exact G2].
    + cbn [bind fst]. eexists _, _. split; [reflexivity|].
      split; [|reflexivity]. split; [exact (proj1 G1)|exact (proj2 G1)].
Qed.

Lemma RefsBelow_mono rank n m Data :
  (n <= m)%nat -> RefsBelow FindRow rank n Data -> RefsBelow FindRow rank m Data.
Proof. intros Hle H h Sub Hin Ht Hf. specialize (H h Sub Hin Ht Hf). lia. Qed.

(** Depth [S n] is enough for a definition whose references have rank below
    [n]. *)
Lemma BuildRewardData_returns rank :
  Acyclic FindRow rank ->
  forall n Data, RefsBelow FindRow rank n Data ->
    forall st, Forall Atomic (fst st) ->
      exists b st', BuildRewardData FindRow (S n) (Some Data) st = Some (b, st')
                    /\ Good (fst st) st'
                    /\ b = negb (IsEmpty (fst st')).
Proof.
  intros Hacyc. induction n as [|n IH]; intros Data Hrefs st Hst; simpl.
  - apply BuildBody_good; [|exact Hst].
    intros h Hin Ht st0 Hst0.
    destruct (FindRow (TypeRowName h)) as [Sub|] eqn:Ef.
    + exfalso. specialize (Hrefs h Sub Hin Ht Ef). lia.
    + exists false, st0. split; [reflexivity|now apply Good_refl].
  - apply BuildBody_good; [|exact Hst].
    intros h Hin Ht st0 Hst0.
    destruct (FindRow (TypeRowName h)) as [Sub|] eqn:Ef.
    + specialize (Hrefs h Sub Hin Ht Ef).
      assert (Hsub : RefsBelow FindRow rank n Sub).
      { apply RefsBelow_mono with (n := rank (TypeRowName h)); [lia|].
        exact (Hacyc _ _ Ef). }
      destruct (IH Sub Hsub st0 Hst0) as (b & st' & E & G & _).
      exists b, st'. now split.
    + exists false, st0. split; [reflexivity|now apply Good_refl].
Qed.

(** A result obtained within some depth is the result within any greater
    depth. *)
Lemma Repeat_mono (B1 B2 : BuildState -> option BuildState) :
  (forall st r, B1 st = Some r -> B2 st = Some r) ->
  forall count st r, Repeat count B1 st = Some r -> Repeat count B2 st = Some r.
Proof.
  intros H. induction count as [|count IH]; intros st r; simpl; [auto|].
  destruct (B1 st) as [st1|] eqn:E; simpl; [|discriminate].
  rewrite (H _ _ E). simpl. apply IH.
Qed.

Lemma AddReward_mono B1 B2 :
  (forall Sub st r, B1 Sub st = Some r -> B2 Sub st = Some r) ->
  forall h st r, AddReward FindRow B1 h st = Some r ->
                 AddReward FindRow B2 h st = Some r.
Proof.
  intros H h st r. unfold AddReward.
  destruct (EReward_eqb _ _); [|auto].
  apply Repeat_mono. intros st0 r0.
  destruct (B1 _ st0) as [x|] eqn:E; simpl; [|discriminate].
  now rewrite (H _ _ _ E).
Qed.

Lemma ForEach_mono (F1 F2 : FRewardHandler -> BuildState -> option BuildState) :
  (forall h st r, F1 h st = Some r -> F2 h st = Some r) ->
  forall Handlers st r, ForEach F1 Handlers st = Some r ->
                        ForEach F2 Handlers st = Some r.
Proof.
  intros H. induction Handlers as [|h rest IH]; intros st r; simpl; [auto|].
  destruct (F1 h st) as [st1|] eqn:E; simpl; [|discriminate].
  rewrite (H _ _ _ E). simpl. apply IH.
Qed.

Lemma BuildBody_mono B1 B2 :
  (forall Sub st r, B1 Sub st = Some r -> B2 Sub st = Some r) ->
  forall Data st r, BuildBody FindRow B1 Data st = Some r ->
                    BuildBody FindRow B2 Data st = Some r.
Proof.
  intros H Data st r. unfold BuildBody.
  destruct (ForEach (AddReward FindRow B1) _ st) as [st1|] eqn:E1; simpl;
    [|discriminate].
  rewrite (ForEach_mono _ _ (AddReward_mono B1 B2 H) _ _ _ E1). simpl.
  destruct (IsEmpty (Randoms Data)); [auto|]. simpl.
  destruct (WalkRandoms _ 0 _) as [rw|]; [|auto].
  destruct (AddReward FindRow B1 _ _) as [st2|] eqn:E2; simpl; [|discriminate].
  now rewrite (AddReward_mono B1 B2 H _ _ _ E2).
Qed.

Lemma BuildRewardData_depth_mono : forall d d' Sub st r,
  (d <= d')%nat ->
  BuildRewardData FindRow d Sub st = Some r ->
  BuildRewardData FindRow d' Sub st = Some r.
Proof.
  induction d as [|d IH]; intros d' Sub st r Hle H.
  - destruct Sub; [discriminate|]. destruct d'; exact H.
  - destruct Sub as [Data|]; [|destruct d'; exact H].
    destruct d' as [|d']; [lia|]. simpl in *.
    eapply BuildBody_mono; [|exact H].
    intros Sub0 st0 r0. apply IH. lia.
Qed.

End Expansion.

(** C5, as amended.  On an acyclic table (composite references strictly
    decrease a rank on keys) [BuildRewardData] returns for every definition:
    a definition whose references have rank below [n] is expanded within
    [n + 1] nested calls, with the same result at any greater depth, and
    the handlers it appends to a list of atomic handlers are atomic: none of
    them has type [RewardData].  The function has no cycle check and no
    failure other than [false]. *)
Theorem C5_expansion_returns_on_acyclic_tables :
  forall (FindRow : FName -> option URewardData) (rank : FName -> nat)
         (n : nat) (Data : URewardData) (st : BuildState),
    Acyclic FindRow rank ->
    RefsBelow FindRow rank n Data ->
    Forall Atomic (fst st) ->
    exists b st',
      (forall depth, (S n <= depth)%nat ->
         BuildRewardData FindRow depth (Some Data) st = Some (b, st'))
      /\ Forall Atomic (fst st')
      /\ (exists added, fst st' = fst st ++ added)
      /\ b = negb (IsEmpty (fst st')).
Proof.
  intros FindRow rank n Data st Hacyc Hrefs Hst.
  destruct (BuildRewardData_returns FindRow rank Hacyc n Data Hrefs st Hst)
    as (b & st' & E & [Hat Hext] & Hb).
  exists b, st'. repeat split; try assumption.
  intros depth Hle. eapply BuildRewardData_depth_mono; eassumption.
Qed.

Lemma TablePack_acyclic : Acyclic TablePack RankPack.
Proof.
  intros Key Data HKey h Sub Hin Ht Hf. unfold TablePack in HKey.
  destruct (String.eqb Key "Pack"%string) eqn:E1.
  - apply String.eqb_eq in E1. subst Key. injection HKey as <-.
    simpl in Hin. destruct Hin as [<-|[<-|[<-|[]]]]; try discriminate.
    cbv. lia.
  - destruct (String.eqb Key "Inner"%string); [|discriminate].
    injection HKey as <-. simpl in Hin. destruct Hin as [<-|[]]. discriminate.
Defined.

Lemma DataPack_refs : RefsBelow TablePack RankPack 1 DataPack.
Proof.
  intros h Sub Hin Ht Hf. simpl in Hin.
  destruct Hin as [<-|[<-|[<-|[]]]]; try discriminate. cbv. lia.
Defined.

Lemma C5_expansion_returns_on_acyclic_tables_witness :
  exists b st',
    BuildRewardData TablePack 2 (Some DataPack) ([], ZeroStream) = Some (b, st')
    /\ Forall Atomic (fst st').
Proof.
  destruct (C5_expansion_returns_on_acyclic_tables TablePack RankPack 1 DataPack
              ([], ZeroStream) TablePack_acyclic DataPack_refs (Forall_nil _))
    as (b & st' & E & Hat & _).
  exists b, st'. split; [apply E; lia|exact Hat].
Defined.

Example BuildRewardData_pack :
  option_map (fun r => (fst r, fst (snd r)))
             (BuildRewardData TablePack 2 (Some DataPack) ([], ZeroStream))
  = Some (true, [ItemReward "Potion"%string; ItemReward "Coin"%string;
                 ItemReward "Coin"%string; ItemReward "Gem"%string]).
Proof. reflexivity. Qed.

(** In the table where A expands to B and B to A, no depth is enough. *)
Lemma TableAB_never_returns : forall depth st,
  BuildRewardData TableAB depth (Some DataA) st = None
  /\ BuildRewardData TableAB depth (Some DataB) st = None.
Proof.
  induction depth as [|depth IH]; intros st; [split; reflexivity|].
  split; simpl; unfold BuildBody; simpl; unfold AddReward; simpl.
  - change (TableAB "B"%string) with (Some DataB). now rewrite (proj2 (IH st)).
  - change (TableAB "A"%string) with (Some DataA). now rewrite (proj1 (IH st)).
Qed.

(** C5 as stated fails: on the cyclic table A -> B -> A the expansion of A
    never returns, neither with a failure nor with a list: whatever number of
    nested calls is allowed, the recursion goes deeper. *)
Lemma C5_cyclic_counterexample :
  TableAB "A"%string = Some DataA
  /\ Statics DataA = [Composite "B"%string 1]
  /\ TableAB "B"%string = Some DataB
  /\ Statics DataB = [Composite "A"%string 1]
  /\ ~ (exists depth r,
          BuildRewardData TableAB depth (Some DataA) ([], ZeroStream) = Some r).
Proof.
  repeat split. intros (depth & r & H).
  rewrite (proj1 (TableAB_never_returns depth _)) in H. discriminate.
Qed.

End ExpanderFacts.

(** ** The grant simulator *)

Module SimulatorFacts.
Import Inventory InventoryScenario.


(** C6.  With a maximum capacity of 5 and a slot usage of 5 before the batch,
    capacity checking on and every reward admissible: a batch that grants one
    unit of a non-stackable, slot-occupying item the player does not hold is
    rejected, by the capacity test since the admissibility check passes; a
    batch that grants one unit of a stackable item of which the player holds
    a positive amount is accepted. *)
Theorem C6_capacity_boundary :
  forall (W : SimWorld) (InUpdatedItem : list (option UNetItem.t))
         (Key : FName) (ItemData : FItemBaseData),
    GetMaxCapacity W = 5 ->
    BaselineSlots W InUpdatedItem = 5 ->
    Simulate W (Grant Key 1 ERewardSource_None) = true ->
    ItemDataTable W Key = Some ItemData ->
    (IsNonStackable ItemData = true ->
     RequiresInventorySlot ItemData = true ->
     GetAmount W Key = 0 ->
     SimulateRewards W [Grant Key 1 ERewardSource_None] InUpdatedItem true
     = (false, [Grant Key 1 ERewardSource_None]))
    /\
    (IsNonStackable ItemData = false ->
     0 < GetAmount W Key ->
     SimulateRewards W [Grant Key 1 ERewardSource_None] InUpdatedItem true
     = (true, [Grant Key 1 ERewardSource_None])).
Proof.
  intros W Updated Key D Hmax Hbase Hsim Hrow. split.
  - intros Hns Hslot _.
    unfold SimulateRewards, AdjustedBatch, Split. simpl.
    rewrite Hrow, Hns. simpl. rewrite Hsim, Hrow, Hslot. simpl.
    unfold RewardSlotStep. rewrite Hns, Hmax, Hbase. reflexivity.
  - intros Hns Hheld.
    unfold SimulateRewards, AdjustedBatch, Split. simpl.
    rewrite Hrow, Hns. simpl. unfold Grant in Hsim. rewrite Hsim, Hrow. simpl.
    unfold RewardSlotStep. rewrite Hns, Hmax, Hbase. simpl.
    destruct (RequiresInventorySlot D); simpl; [|reflexivity].
    destruct (Z.eqb_spec (GetAmount W Key) 0); [lia|reflexivity].
Qed.

Lemma C6_capacity_boundary_witness :
  SimulateRewards FullBag [Grant "Sword"%string 1 ERewardSource_None] [] true
  = (false, [Grant "Sword"%string 1 ERewardSource_None])
  /\ SimulateRewards FullBag [Grant "Potion"%string 1 ERewardSource_None] [] true
     = (true, [Grant "Potion"%string 1 ERewardSource_None]).
Proof.
  split.
  - apply (proj1 (C6_capacity_boundary FullBag [] "Sword"%string SwordData
                    eq_refl eq_refl eq_refl eq_refl)); reflexivity.
  - apply (proj2 (C6_capacity_boundary FullBag [] "Potion"%string PotionData
                    eq_refl eq_refl eq_refl eq_refl)); [reflexivity|simpl; lia].
Defined.




(** *** Merging of stackable grants *)

Lemma GrantsOf_app Key l1 l2 :
  GrantsOf Key (l1 ++ l2) = GrantsOf Key l1 ++ GrantsOf Key l2.
Proof. apply filter_app. Qed.

Lemma NetAmount_cons Key r l :
  NetAmount Key (r :: l)
  = (if IsGrantOf Key r then Amount r else 0) + NetAmount Key l.
Proof. unfold NetAmount. simpl. destruct (IsGrantOf Key r); lia. Qed.

Lemma GrantsOf_snoc_other Key l r :
  GrantsOf Key l = [] -> IsGrantOf Key r = false -> GrantsOf Key (l ++ [r]) = [].
Proof.
  intros Hl Hr. rewrite GrantsOf_app, Hl. unfold GrantsOf. simpl. now rewrite Hr.
Qed.

Lemma CountOf_FindOrAddPlus Counts k v Key :
  CountOf (FindOrAddPlus Counts k v) Key
  = if String.eqb k Key then CountOf Counts Key + v else CountOf Counts Key.
Proof.
  induction Counts as [|[k0 a0] rest IH]; simpl.
  - destruct (String.eqb k Key); reflexivity.
  - destruct (String.eqb k0 k) eqn:E0; simpl.
    + apply String.eqb_eq in E0. subst k0.
      destruct (String.eqb k Key); reflexivity.
    + destruct (String.eqb k0 Key) eqn:E1; [|exact IH].
      apply String.eqb_eq in E1. subst k0. now rewrite String.eqb_sym, E0.
Qed.

Lemma FindOrAddPlus_keys Counts k v x :
  In x (map fst (FindOrAddPlus Counts k v)) -> x = k \/ In x (map fst Counts).
Proof.
  induction Counts as [|[k0 a0] rest IH]; simpl.
  - intros [<-|[]]. now left.
  - destruct (String.eqb k0 k); simpl.
    + intros [<-|H]; right; [now left|now right].
    + intros [<-|H]; [right; now left|].
      destruct (IH H) as [->|H']; [now left|right; now right].
Qed.

Lemma FindOrAddPlus_NoDup Counts k v :
  NoDup (map fst Counts) -> NoDup (map fst (FindOrAddPlus Counts k v)).
Proof.
  induction Counts as [|[k0 a0] rest IH]; simpl; intros Hnd.
  - constructor; [intros []|constructor].
  - inversion Hnd as [|? ? Hnot Hrest]; subst.
    destruct (String.eqb k0 k) eqn:E0; simpl.
    + now constructor.
    + constructor; [|now apply IH].
      intros Hin. apply FindOrAddPlus_keys in Hin. destruct Hin as [->|Hin].
      * now rewrite String.eqb_refl in E0.
      * contradiction.
Qed.

Lemma CountOf_absent Counts Key :
  ~ In Key (map fst Counts) -> CountOf Counts Key = 0.
Proof.
  induction Counts as [|[k0 a0] rest IH]; simpl; intros Hnot; [reflexivity|].
  destruct (String.eqb k0 Key) eqn:E.
  - apply String.eqb_eq in E. subst. exfalso. apply Hnot. now left.
  - apply IH. intros H. apply Hnot. now right.
Qed.

Lemma GrantsOf_Rebuild_absent Source Counts Key :
  ~ In Key (map fst Counts) -> GrantsOf Key (Rebuild Source Counts) = [].
Proof.
  induction Counts as [|[k0 a0] rest IH]; intros Hnot; [reflexivity|].
  unfold Rebuild, GrantsOf in *. simpl in *.
  assert (Hk : String.eqb k0 Key = false).
  { apply String.eqb_neq. intros ->. apply Hnot. now left. }
  destruct (a0 =? 0); simpl.
  - apply IH. intros H. apply Hnot. now right.
  - unfold IsGrantOf at 1. simpl. rewrite Hk. simpl.
    apply IH. intros H. apply Hnot. now right.
Qed.

(** The rebuilt batch has, for each key, one grant with the recorded amount,
    or none when that amount is zero. *)
Lemma GrantsOf_Rebuild Source Counts Key :
  NoDup (map fst Counts) ->
  GrantsOf Key (Rebuild Source Counts)
  = if CountOf Counts Key =? 0 then []
    else [mkReward EReward_Item Key (CountOf Counts Key) Source].
Proof.
  induction Counts as [|[k0 a0] rest IH]; intros Hnd; [reflexivity|].
  inversion Hnd as [|? ? Hnot Hrest]; subst.
  simpl CountOf. destruct (String.eqb k0 Key) eqn:E.
  - apply String.eqb_eq in E. subst k0.
    pose proof (GrantsOf_Rebuild_absent Source rest Key Hnot) as Habs.
    unfold Rebuild, GrantsOf in *. simpl. destruct (a0 =? 0) eqn:Ea; simpl.
    + exact Habs.
    + unfold IsGrantOf at 1. simpl. rewrite String.eqb_refl. simpl.
      now rewrite Habs.
  - rewrite <- (IH Hrest). unfold Rebuild, GrantsOf. simpl.
    destruct (a0 =? 0); simpl; [reflexivity|].
    unfold IsGrantOf at 1. simpl. now rewrite E.
Qed.

(** What the classification loop maintains for a stackable key. *)
Lemma Split_invariant W Key ItemData :
  ItemDataTable W Key = Some ItemData ->
  IsNonStackable ItemData = false ->
  forall InRewards Kept Pass Counts,
    GrantsOf Key Kept = [] ->
    GrantsOf Key Pass = [] ->
    NoDup (map fst Counts) ->
    let '(Kept', Pass', Counts') :=
      fold_left (SplitStep W) InRewards (Kept, Pass, Counts) in
    GrantsOf Key Kept' = []
    /\ GrantsOf Key Pass' = []
    /\ NoDup (map fst Counts')
    /\ CountOf Counts' Key = CountOf Counts Key + NetAmount Key InRewards.
Proof.
  intros Hrow Hstack.
  induction InRewards as [|r rest IH]; intros Kept Pass Counts HK HP HC.
  - simpl. repeat split; try assumption. lia.
  - change (fold_left (SplitStep W) (r :: rest) (Kept, Pass, Counts))
      with (fold_left (SplitStep W) rest (SplitStep W (Kept, Pass, Counts) r)).
    rewrite NetAmount_cons.
    destruct (EReward_eqb (RewardType r) EReward_Item) eqn:Et.
    + destruct (ItemDataTable W (TypeRowName r)) as [d|] eqn:Er.
      * destruct (IsNonStackable d) eqn:Ens.
        -- assert (Es : SplitStep W (Kept, Pass, Counts) r
                        = (Kept, Pass ++ [r], Counts)).
           { unfold SplitStep. now rewrite Et, Er, Ens. }
           assert (Hg : IsGrantOf Key r = false).
           { unfold IsGrantOf. rewrite Et. simpl. apply String.eqb_neq.
             intros Heq. rewrite Heq in Er. congruence. }
           rewrite Es, Hg.
           specialize (IH Kept (Pass ++ [r]) Counts HK
                          (GrantsOf_snoc_other _ _ _ HP Hg) HC).
           destruct (fold_left _ rest _) as [[K' P'] C'].
           destruct IH as (H1 & H2 & H3 & H4). repeat split; try assumption; lia.
        -- assert (Es : SplitStep W (Kept, Pass, Counts) r
                        = (Kept, Pass,
                           FindOrAddPlus Counts (TypeRowName r) (Amount r))).
           { unfold SplitStep. now rewrite Et, Er, Ens. }
           rewrite Es.
           specialize (IH Kept Pass
                          (FindOrAddPlus Counts (TypeRowName r) (Amount r)) HK HP
                          (FindOrAddPlus_NoDup _ _ _ HC)).
           destruct (fold_left _ rest _) as [[K' P'] C'].
           destruct IH as (H1 & H2 & H3 & H4). repeat split; try assumption.
           rewrite H4, CountOf_FindOrAddPlus. unfold IsGrantOf. rewrite Et. simpl.
           destruct (String.eqb (TypeRowName r) Key); lia.
      * assert (Es : SplitStep W (Kept, Pass, Counts) r
                     = (Kept ++ [r], Pass, Counts)).
        { unfold SplitStep. now rewrite Et, Er. }
        assert (Hg : IsGrantOf Key r = false).
        { unfold IsGrantOf. rewrite Et. simpl. apply String.eqb_neq.
          intros Heq. rewrite Heq in Er. congruence. }
        rewrite Es, Hg.
        specialize (IH (Kept ++ [r]) Pass Counts
                       (GrantsOf_snoc_other _ _ _ HK Hg) HP HC).
        destruct (fold_left _ rest _) as [[K' P'] C'].
        destruct IH as (H1 & H2 & H3 & H4). repeat split; try assumption; lia.
    + assert (Es : SplitStep W (Kept, Pass, Counts) r
                   = (Kept ++ [r], Pass, Counts)).
      { unfold SplitStep. now rewrite Et. }
      assert (Hg : IsGrantOf Key r = false).
      { unfold IsGrantOf. now rewrite Et. }
      rewrite Es, Hg.
      specialize (IH (Kept ++ [r]) Pass Counts
                     (GrantsOf_snoc_other _ _ _ HK Hg) HP HC).
      destruct (fold_left _ rest _) as [[K' P'] C'].
      destruct IH as (H1 & H2 & H3 & H4). repeat split; try assumption; lia.
Qed.

(** C7.  The batch A:+3, A:-3, B:+1 with A stackable (the three grants
    carrying one acquisition source) and the batch B:+1 give the same
    decision and the same adjusted batch, for every inventory, every list of
    pending items and both settings of the capacity check; and in general
    the adjusted batch holds, for each stackable item key, exactly one grant
    whose amount is the sum of the signed amounts of the batch's grants of
    that key, or no grant of that key when the sum is zero. *)
Theorem C7_merge_stackable_grants :
  (forall (W : SimWorld) (InUpdatedItem : list (option UNetItem.t))
          (bCheckInventory : bool) (A B : FName) (Source : ERewardSource)
          (DataOfA : FItemBaseData),
      ItemDataTable W A = Some DataOfA ->
      IsNonStackable DataOfA = false ->
      SimulateRewards W [Grant A 3 Source; Grant A (-3) Source; Grant B 1 Source]
                      InUpdatedItem bCheckInventory
      = SimulateRewards W [Grant B 1 Source] InUpdatedItem bCheckInventory)
  /\
  (forall (W : SimWorld) (InRewards : list FRewardHandler) (Key : FName)
          (ItemData : FItemBaseData),
      ItemDataTable W Key = Some ItemData ->
      IsNonStackable ItemData = false ->
      GrantsOf Key (AdjustedBatch W InRewards)
      = if NetAmount Key InRewards =? 0 then []
        else [mkReward EReward_Item Key (NetAmount Key InRewards)
                       (DefaultSourceOf InRewards)]).
Proof.
  split.
  - intros W Updated bCheck A B Source DA HA Hst.
    assert (Hadj : AdjustedBatch W [Grant A 3 Source; Grant A (-3) Source;
                                    Grant B 1 Source]
                   = AdjustedBatch W [Grant B 1 Source]).
    { assert (S1 : SplitStep W ([], [], []) (Grant A 3 Source)
                   = ([], [], [(A, 3)])).
      { unfold SplitStep. simpl. now rewrite HA, Hst. }
      assert (S2 : SplitStep W ([], [], [(A, 3)]) (Grant A (-3) Source)
                   = ([], [], [(A, 0)])).
      { unfold SplitStep. simpl. now rewrite HA, Hst, String.eqb_refl. }
      unfold AdjustedBatch, Split.
      change (fold_left (SplitStep W)
                [Grant A 3 Source; Grant A (-3) Source; Grant B 1 Source]
                ([], [], []))
        with (SplitStep W
                (SplitStep W (SplitStep W ([], [], []) (Grant A 3 Source))
                           (Grant A (-3) Source))
                (Grant B 1 Source)).
      rewrite S1, S2. unfold SplitStep. simpl.
      destruct (ItemDataTable W B) as [DB|] eqn:EB; [|reflexivity].
      destruct (IsNonStackable DB); [reflexivity|].
      simpl. destruct (String.eqb A B) eqn:EAB; simpl; [|reflexivity].
      apply String.eqb_eq in EAB. now subst. }
    unfold SimulateRewards. now rewrite Hadj.
  - intros W InRewards Key D Hrow Hst.
    pose proof (Split_invariant W Key D Hrow Hst InRewards [] [] []
                  eq_refl eq_refl (NoDup_nil _)) as Hinv.
    unfold AdjustedBatch, Split.
    destruct (fold_left (SplitStep W) InRewards ([], [], [])) as [[K P] C].
    destruct Hinv as (HK & HP & HC & Hcount). simpl in Hcount.
    rewrite !GrantsOf_app, HK, HP, app_nil_r. simpl.
    now rewrite GrantsOf_Rebuild, Hcount.
Qed.

Lemma C7_merge_stackable_grants_witness :
  SimulateRewards FullBag
    [Grant "Potion"%string 3 ERewardSource_None; Grant "Potion"%string (-3) ERewardSource_None;
     Grant "Sword"%string 1 ERewardSource_None] [] true
  = SimulateRewards FullBag [Grant "Sword"%string 1 ERewardSource_None] [] true
  /\ GrantsOf "Potion"%string
       (AdjustedBatch FullBag
          [Grant "Potion"%string 3 ERewardSource_None; Grant "Sword"%string 1 ERewardSource_None;
           Grant "Potion"%string 4 ERewardSource_None])
     = [Grant "Potion"%string 7 ERewardSource_None].
Proof.
  split.
  - apply (proj1 C7_merge_stackable_grants FullBag [] true "Potion"%string "Sword"%string
             ERewardSource_None PotionData); reflexivity.
  - apply (proj2 C7_merge_stackable_grants FullBag
             [Grant "Potion"%string 3 ERewardSource_None; Grant "Sword"%string 1 ERewardSource_None;
              Grant "Potion"%string 4 ERewardSource_None] "Potion"%string PotionData);
      reflexivity.
Defined.

(** The merged grant of a key carries the acquisition source of the first
    handler of the batch, not those of the grants it merges. *)
Remark merged_grant_source :
  AdjustedBatch FullBag
    [Grant "Sword"%string 1 (ERewardSource_Other 1); Grant "Potion"%string 2 ERewardSource_None;
     Grant "Potion"%string 1 ERewardSource_None]
  = [Grant "Potion"%string 3 (ERewardSource_Other 1);
     Grant "Sword"%string 1 (ERewardSource_Other 1)].
Proof. reflexivity. Qed.

End SimulatorFacts.

(** ** Inventory commits *)

Module CommitFacts.
Import Inventory InventoryScenario.

Lemma OnUpdateItemAmount_result W It Delta Task ItemData :
  ItemDataByID W (UNetItem.ItemID It) = Some ItemData ->
  let NewAmount := FMath.Clamp (UNetItem.Amount It + Delta) 0 (MaxStackAmount ItemData) in
  OnUpdateItemAmount W It Delta Task
  = Some (SetAmount It NewAmount,
          Task ++ [if 0 <? NewAmount
                   then UpdateItemAmount NewAmount (UNetItem.ItemUID It)
                   else DeleteItem (UNetItem.ItemUID It)]).
Proof.
  intros Hrow. unfold OnUpdateItemAmount. rewrite Hrow. simpl.
  destruct (0 <? FMath.Clamp _ 0 _); reflexivity.
Qed.

(** The commit on a held row.  [OnUpdateItemAmount] on an item whose row
    exists sets the amount of that one item to the previous amount plus the
    update clamped into [0, MaxStackAmount] and adds exactly one query for
    the item's row: an amount update when the new amount is positive, the
    deletion of the row when it is zero, never an update to zero.
    [RemoveInventoryItem] of the whole held amount leaves the amount 0 and
    adds the deletion of the item row, of the inventory row and, when the
    item is equipped, of the equipment rows of the item's UID. *)
Theorem held_row_commit_clamps_and_deletes :
  forall (W : CommitWorld) (It : UNetItem.t) (ItemData : FItemBaseData)
         (Task : FSqliteQueryTask),
    ItemDataByID W (UNetItem.ItemID It) = Some ItemData ->
    (forall Delta : Z,
        let NewAmount :=
          FMath.Clamp (UNetItem.Amount It + Delta) 0 (MaxStackAmount ItemData) in
        (0 <= MaxStackAmount ItemData -> 0 <= NewAmount <= MaxStackAmount ItemData)
        /\ (0 < NewAmount ->
            OnUpdateItemAmount W It Delta Task
            = Some (SetAmount It NewAmount,
                    Task ++ [UpdateItemAmount NewAmount (UNetItem.ItemUID It)]))
        /\ (NewAmount = 0 ->
            OnUpdateItemAmount W It Delta Task
            = Some (SetAmount It 0, Task ++ [DeleteItem (UNetItem.ItemUID It)])))
    /\
    (0 <= UNetItem.Amount It ->
     RemoveInventoryItem W (Some It) (UNetItem.Amount It) Task
     = Some (true, Some (SetAmount It 0),
             Task ++ [DeleteItem (UNetItem.ItemUID It)]
                  ++ [DeleteInventory (UNetItem.ItemUID It)]
                  ++ (if GetEquipmentBy W (UNetItem.ItemID It)
                      then [DeleteEquipment (AccountID W) (UNetItem.ItemUID It)]
                      else []))).
Proof.
  intros W It D Task Hrow. split.
  - intros Delta NewAmount. split; [|split].
    + intros Hmax. now apply FMathFacts.Clamp_bounds.
    + intros Hpos. rewrite (OnUpdateItemAmount_result W It Delta Task D Hrow).
      fold NewAmount. destruct (Z.ltb_spec 0 NewAmount); [reflexivity|lia].
    + intros Hzero. rewrite (OnUpdateItemAmount_result W It Delta Task D Hrow).
      fold NewAmount. now rewrite Hzero.
  - intros Hheld. unfold RemoveInventoryItem.
    destruct (Z.ltb_spec (UNetItem.Amount It) 0) as [|_]; [lia|].
    destruct (Z.ltb_spec (UNetItem.Amount It - UNetItem.Amount It) 0) as [|_];
      [lia|]. simpl orb. cbv iota.
    rewrite (OnUpdateItemAmount_result W It _ Task D Hrow).
    assert (Hz : FMath.Clamp (UNetItem.Amount It + UNetItem.Amount It * -1) 0
                             (MaxStackAmount D) = 0).
    { unfold FMath.Clamp. lia. }
    rewrite Hz. simpl. unfold AddQuery.
    destruct (GetEquipmentBy W (UNetItem.ItemID It)); now rewrite <- !app_assoc.
Qed.

Lemma held_row_commit_examples :
  OnUpdateItemAmount Store HeldPotions 100 []
  = Some (SetAmount HeldPotions 99, [UpdateItemAmount 99 11])
  /\ OnUpdateItemAmount Store HeldPotions (-40) []
     = Some (SetAmount HeldPotions 0, [DeleteItem 11])
  /\ RemoveInventoryItem Store (Some HeldSword) 1 []
     = Some (true, Some (SetAmount HeldSword 0),
             [DeleteItem 12; DeleteInventory 12; DeleteEquipment 7 12]).
Proof.
  pose proof (held_row_commit_clamps_and_deletes Store HeldPotions PotionData []
                eq_refl) as [Hupd _].
  pose proof (held_row_commit_clamps_and_deletes Store HeldSword SwordData []
                eq_refl) as [_ Hrem].
  split; [|split].
  - apply (proj1 (proj2 (Hupd 100))). reflexivity.
  - apply (proj2 (proj2 (Hupd (-40)))). reflexivity.
  - apply Hrem. simpl. lia.
Defined.

(** With a held row of a stackable item, [AddInventoryItem] is
    [OnUpdateItemAmount] on that row. *)
Lemma AddInventoryItem_held_row W InItemID InAddAmount InTask ItemData Held :
  ItemDataByID (Commit W) InItemID = Some ItemData ->
  1 < MaxStackAmount ItemData ->
  DuplicateNetItemByID W InItemID = Some Held ->
  AddInventoryItem W InItemID InAddAmount InTask
  = match OnUpdateItemAmount (Commit W) Held InAddAmount InTask with
    | None => None
    | Some (Held, InTask) => Some (mkAdded Held [] InTask [])
    end.
Proof.
  intros Hrow Hmax Hheld. unfold AddInventoryItem. rewrite Hrow.
  destruct (Z.gtb_spec (MaxStackAmount ItemData) 1) as [_|]; [|lia].
  rewrite Hheld. reflexivity.
Qed.

(** Without one, or for an item that does not stack, it inserts a row that
    holds [InAddAmount] as given, whatever [MaxStackAmount] is. *)
Lemma AddInventoryItem_new_row W InItemID InAddAmount InTask ItemData :
  ItemDataByID (Commit W) InItemID = Some ItemData ->
  MaxStackAmount ItemData <= 1 \/ DuplicateNetItemByID W InItemID = None ->
  exists ItemOptions Task',
    AddInventoryItem W InItemID InAddAmount InTask
    = Some (mkAdded (UNetItem.mk (GetLastInsertRowId W) InItemID InAddAmount
                                 (Some ItemData))
                    ItemOptions Task'
                    [InsertItem (AccountID (Commit W)) InItemID InAddAmount]).
Proof.
  intros Hrow Hnew. unfold AddInventoryItem. rewrite Hrow.
  set (New := UNetItem.mk _ _ _ _).
  set (Task1 := AddQuery InTask _).
  destruct (BuildOptions W New [] Task1 None) as [ItemOptions Task'] eqn:EB.
  exists ItemOptions, Task'.
  destruct (Z.gtb_spec (MaxStackAmount ItemData) 1) as [Hmax|Hmax].
  - destruct Hnew as [Hle|Hnone]; [lia|]. rewrite Hnone. reflexivity.
  - reflexivity.
Qed.

(** C9.  The claim fails on the first grant of a stackable item.  For an
    account that holds no potion, [AddInventoryItem] of 150 potions, whose
    [MaxStackAmount] is 99, inserts a row of amount 150 and runs the
    [InsertItem] query with 150, where the previous amount plus the grant
    clamped into [0, 99] is 99.  For an account that holds potions the same
    grant goes through [OnUpdateItemAmount] and leaves 99. *)
Theorem C9_first_grant_is_stored_unclamped :
  AddInventoryItem NothingHeld 2001 150 []
  = Some (mkAdded OverfullPotions [] [InsertInventory 7 13]
                  [InsertItem 7 2001 150])
  /\ UNetItem.Amount OverfullPotions = 150
  /\ FMath.Clamp (0 + 150) 0 (MaxStackAmount PotionData) = 99
  /\ AddInventoryItem PotionsHeld 2001 150 []
     = Some (mkAdded (SetAmount HeldPotions 99) [] [UpdateItemAmount 99 11] []).
Proof.
  split; [|split; [|split]].
  - reflexivity.
  - reflexivity.
  - reflexivity.
  - rewrite (AddInventoryItem_held_row PotionsHeld 2001 150 [] PotionData
               HeldPotions eq_refl ltac:(simpl; lia) eq_refl).
    reflexivity.
Qed.

(** A new sword gets its sub-option and the query that stores it. *)
Example AddInventoryItem_sword :
  AddInventoryItem NothingHeld 1001 1 []
  = Some (mkAdded (UNetItem.mk 13 1001 1 (Some SwordData)) [(501, 3)]
                  [InsertInventory 7 13; InsertItemOption 7 13 501 3]
                  [InsertItem 7 1001 1]).
Proof. reflexivity. Qed.

(** C10, as amended.  [RemoveInventoryItem] returns [false] and changes
    neither the item nor the task when the item is null, when the amount to
    remove is negative, or when it exceeds the held amount.  Otherwise, when
    the item's row exists, it returns [true] and the held amount becomes the
    difference clamped into [0, MaxStackAmount]: the difference itself
    whenever that does not exceed [MaxStackAmount]. *)
Theorem C10_remove_guard_and_decrement :
  forall (W : CommitWorld) (Task : FSqliteQueryTask) (InRemoveAmount : Z),
    RemoveInventoryItem W None InRemoveAmount Task = Some (false, None, Task)
    /\
    (forall It : UNetItem.t,
        (InRemoveAmount < 0 \/ UNetItem.Amount It < InRemoveAmount ->
         RemoveInventoryItem W (Some It) InRemoveAmount Task
         = Some (false, Some It, Task))
        /\
        (forall ItemData : FItemBaseData,
            0 <= InRemoveAmount <= UNetItem.Amount It ->
            ItemDataByID W (UNetItem.ItemID It) = Some ItemData ->
            exists It' Task',
              RemoveInventoryItem W (Some It) InRemoveAmount Task
              = Some (true, Some It', Task')
              /\ It' = SetAmount It
                         (FMath.Clamp (UNetItem.Amount It - InRemoveAmount) 0
                                      (MaxStackAmount ItemData))
              /\ (UNetItem.Amount It - InRemoveAmount <= MaxStackAmount ItemData ->
                  UNetItem.Amount It' = UNetItem.Amount It - InRemoveAmount))).
Proof.
  intros W Task Rem. split; [reflexivity|]. intros It. split.
  - intros Hbad. unfold RemoveInventoryItem.
    destruct (Z.ltb_spec Rem 0); [reflexivity|].
    destruct (Z.ltb_spec (UNetItem.Amount It - Rem) 0); [reflexivity|lia].
  - intros D Hrange Hrow. unfold RemoveInventoryItem.
    destruct (Z.ltb_spec Rem 0) as [|_]; [lia|].
    destruct (Z.ltb_spec (UNetItem.Amount It - Rem) 0) as [|_]; [lia|].
    simpl orb. cbv iota.
    rewrite (OnUpdateItemAmount_result W It _ Task D Hrow).
    replace (UNetItem.Amount It + Rem * -1) with (UNetItem.Amount It - Rem) by lia.
    set (New := FMath.Clamp (UNetItem.Amount It - Rem) 0 (MaxStackAmount D)).
    assert (Hid : UNetItem.Amount It - Rem <= MaxStackAmount D ->
                  UNetItem.Amount (SetAmount It New) = UNetItem.Amount It - Rem).
    { intros Hle. simpl. apply FMathFacts.Clamp_id. lia. }
    cbv iota beta.
    destruct (UNetItem.Amount (SetAmount It New) <=? 0);
      [destruct (GetEquipmentBy W (UNetItem.ItemID (SetAmount It New)))|];
      eexists _, _; (split; [reflexivity|split; [reflexivity|exact Hid]]).
Qed.

Lemma C10_remove_guard_and_decrement_witness :
  RemoveInventoryItem Store (Some HeldPotions) 41 [] = Some (false, Some HeldPotions, [])
  /\ exists It' Task',
       RemoveInventoryItem Store (Some HeldPotions) 15 [] = Some (true, Some It', Task')
       /\ UNetItem.Amount It' = 25.
Proof.
  pose proof (proj2 (C10_remove_guard_and_decrement Store [] 41) HeldPotions)
    as [Hguard _].
  pose proof (proj2 (C10_remove_guard_and_decrement Store [] 15) HeldPotions)
    as [_ Hdec].
  split.
  - apply Hguard. right. simpl. lia.
  - destruct (Hdec PotionData ltac:(simpl; lia) eq_refl) as (It' & Task' & E & _ & Hamt).
    exists It', Task'. split; [exact E|]. apply Hamt. simpl. lia.
Defined.

(** C10 as stated fails: a potion row that holds 150 units of an item whose
    [MaxStackAmount] is 99 passes the guard for the removal of 10 units, the
    call returns [true], and the held amount becomes 99, not 140. *)
Lemma C10_decrement_counterexample :
  ItemDataByID Store (UNetItem.ItemID OverfullPotions) = Some PotionData
  /\ RemoveInventoryItem Store (Some OverfullPotions) 10 []
     = Some (true, Some (SetAmount OverfullPotions 99), [UpdateItemAmount 99 13])
  /\ UNetItem.Amount OverfullPotions - 10 = 140.
Proof. repeat split. Qed.

End CommitFacts.

(** * Further properties of the reward system *)

(** ** Roller and pickup subset *)

Module RollerMore.
Import Gacha Scenario Request.

Lemma nth_error_default {A} (l : list A) (d : A) n :
  (n < List.length l)%nat -> nth_error l n = Some (nth n l d).
Proof.
  revert n. induction l as [|x l IH]; intros [|n] H; simpl in *; try lia.
  - reflexivity.
  - apply IH. lia.
Qed.

(** X1.  [AddPickupReward] ignores the weights: when some entry has
    [PickupGroup >= InPickupGroup], the reward is that of the candidate at
    position [sample mod n] among the [n] candidates in table order, which is
    an entry of the table of the required tier; without a candidate, or
    without a table, it is the [None] sentinel. *)
Theorem X1_pickup_is_uniform_over_candidates :
  forall (Data : URewardData) (InPickupGroup sample : Z),
    (PickupCandidates Data InPickupGroup = [] ->
     AddPickupReward (Some Data) InPickupGroup sample = NoReward)
    /\
    (PickupCandidates Data InPickupGroup <> [] ->
     exists g,
       nth_error (PickupCandidates Data InPickupGroup)
                 (Z.to_nat (sample mod
                              Z.of_nat (List.length (PickupCandidates Data InPickupGroup))))
       = Some g
       /\ AddPickupReward (Some Data) InPickupGroup sample = Reward g
       /\ In g (GachaRandoms Data)
       /\ InPickupGroup <= PickupGroup g)
    /\ AddPickupReward None InPickupGroup sample = NoReward.
Proof.
  intros Data thr sample. unfold AddPickupReward.
  split; [intros ->; reflexivity|]. split; [|reflexivity].
  intros Hne.
  destruct (PickupCandidates Data thr) as [|first tl] eqn:E; [congruence|].
  set (l := first :: tl) in *.
  assert (Hlen : 0 < Z.of_nat (List.length l)) by (subst l; simpl; lia).
  assert (Hidx : FMath.RandRange 0 (Z.of_nat (List.length l) - 1) sample
                 = sample mod Z.of_nat (List.length l)).
  { unfold FMath.RandRange.
    replace (Z.of_nat (List.length l) - 1 - 0 + 1) with (Z.of_nat (List.length l))
      by lia.
    destruct (Z.ltb_spec 0 (Z.of_nat (List.length l))); [reflexivity|lia]. }
  rewrite Hidx.
  pose proof (Z.mod_pos_bound sample _ Hlen) as Hb.
  set (n := Z.to_nat (sample mod Z.of_nat (List.length l))).
  assert (Hn : (n < List.length l)%nat) by (subst n; lia).
  exists (nth n l first). split; [now apply nth_error_default|].
  split; [reflexivity|].
  assert (Hin : In (nth n l first) (PickupCandidates Data thr))
    by (rewrite E; now apply nth_In).
  apply filter_In in Hin. destruct Hin as [Hin Hge]. split; [exact Hin|lia].
Qed.

Lemma X1_pickup_is_uniform_over_candidates_witness :
  AddPickupReward (Some PoolCommonOnly) 2 5 = NoReward
  /\ exists g,
       nth_error (PickupCandidates PoolABC 2)
                 (Z.to_nat (5 mod Z.of_nat (List.length (PickupCandidates PoolABC 2))))
       = Some g
       /\ AddPickupReward (Some PoolABC) 2 5 = Reward g
       /\ In g (GachaRandoms PoolABC)
       /\ 2 <= PickupGroup g.
Proof.
  split.
  - apply (proj1 (X1_pickup_is_uniform_over_candidates PoolCommonOnly 2 5)).
    reflexivity.
  - apply (proj1 (proj2 (X1_pickup_is_uniform_over_candidates PoolABC 2 5))).
    discriminate.
Defined.

(** X2.  In a table whose entries before [e] have non-negative weights, every
    draw value above the cumulative weight of those entries and up to that
    weight plus [Weight e] selects [e]: an entry owns as many draw values as
    its weight. *)
Theorem X2_roll_hits_cumulative_range :
  forall (Pool : URewardData) (pre post : list URewardGachaRandomData)
         (e : URewardGachaRandomData) (Out draw : Z),
    GachaRandoms Pool = pre ++ e :: post ->
    (forall x, In x pre -> 0 <= Weight x) ->
    SumWeights pre < draw <= SumWeights pre + Weight e ->
    RollWithDraw Pool Out draw = (Reward e, PickupGroup e).
Proof.
  intros Pool pre post e Out draw Hsplit Hnn Hrange.
  unfold RollWithDraw. rewrite Hsplit.
  rewrite RollerFacts.WalkWeights_skip by (simpl; auto; lia).
  rewrite RollerFacts.WalkWeights_hit by lia. reflexivity.
Qed.

Lemma X2_roll_hits_cumulative_range_witness :
  RollWithDraw PoolABC 0 71 = (Reward EntryB, PickupGroup EntryB)
  /\ RollWithDraw PoolABC 0 95 = (Reward EntryB, PickupGroup EntryB).
Proof.
  assert (Hpre : forall x, In x [EntryA] -> 0 <= Weight x).
  { intros x [<-|[]]. simpl. lia. }
  split.
  - apply (X2_roll_hits_cumulative_range PoolABC [EntryA] [EntryC] EntryB 0 71
             eq_refl Hpre). simpl. lia.
  - apply (X2_roll_hits_cumulative_range PoolABC [EntryA] [EntryC] EntryB 0 95
             eq_refl Hpre). simpl. lia.
Defined.

Lemma WalkWeights_positive entries : forall acc draw g,
  acc < draw -> WalkWeights entries acc draw = Some g -> 0 < Weight g.
Proof.
  induction entries as [|x rest IH]; simpl; intros acc draw g Hlt H; [discriminate|].
  destruct (Z.leb_spec draw (acc + Weight x)).
  - injection H as <-. lia.
  - eapply IH; [|exact H]. lia.
Qed.

Lemma WalkWeights_reaches entries : forall acc draw,
  draw <= acc + SumWeights entries -> entries <> [] ->
  exists g, WalkWeights entries acc draw = Some g.
Proof.
  induction entries as [|x rest IH]; intros acc draw Hle Hne; [congruence|].
  simpl in *. destruct (Z.leb_spec draw (acc + Weight x)); [now exists x|].
  destruct rest as [|y rest'].
  - simpl in Hle. lia.
  - apply IH; [lia|discriminate].
Qed.

(** X3.  When the recorded total weight is at least 1 and not above the sum of
    the entry weights, [RollRandomReward] never misses: whatever the sample,
    it returns the reward and the tier of an entry of the table, and that
    entry has a positive weight (an entry of weight 0 or less is never
    rolled). *)
Theorem X3_roll_always_hits_positive_weight :
  forall (Pool : URewardData) (Out sample : Z),
    1 <= TotalGachaWeight Pool ->
    TotalGachaWeight Pool <= SumWeights (GachaRandoms Pool) ->
    exists g,
      In g (GachaRandoms Pool)
      /\ 0 < Weight g
      /\ RollRandomReward Pool Out sample = (Reward g, PickupGroup g).
Proof.
  intros Pool Out sample Hone Hle.
  pose proof (FMathFacts.RandRange_bounds 1 (TotalGachaWeight Pool) sample Hone)
    as Hdraw.
  unfold RollRandomReward, RollWithDraw.
  set (draw := FMath.RandRange 1 (TotalGachaWeight Pool) sample) in *.
  assert (Hne : GachaRandoms Pool <> []).
  { intros E. rewrite E in Hle. simpl in Hle. lia. }
  destruct (WalkWeights_reaches (GachaRandoms Pool) 0 draw ltac:(lia) Hne)
    as [g Hg].
  rewrite Hg. exists g. repeat split.
  - eapply RollerFacts.WalkWeights_In, Hg.
  - eapply WalkWeights_positive; [|exact Hg]. lia.
Qed.

Lemma X3_roll_always_hits_positive_weight_witness :
  exists g,
    In g (GachaRandoms PoolTrailingZero)
    /\ 0 < Weight g
    /\ RollRandomReward PoolTrailingZero 0 4 = (Reward g, PickupGroup g).
Proof.
  apply (X3_roll_always_hits_positive_weight PoolTrailingZero 0 4);
    simpl; lia.
Defined.

Lemma WalkWeights_miss entries : forall acc draw,
  (forall x, In x entries -> 0 <= Weight x) ->
  acc + SumWeights entries < draw ->
  WalkWeights entries acc draw = None.
Proof.
  induction entries as [|x rest IH]; intros acc draw Hnn Hlt; [reflexivity|].
  simpl in *.
  assert (0 <= Weight x) by (apply Hnn; now left).
  assert (0 <= SumWeights rest)
    by (apply RollerFacts.SumWeights_nonneg; intros y Hy; apply Hnn; now right).
  destruct (Z.leb_spec draw (acc + Weight x)); [lia|].
  apply IH; [intros y Hy; apply Hnn; now right|lia].
Qed.

(** X4.  When the recorded total weight exceeds the sum of the (non-negative)
    entry weights, the draw values above the sum select nothing: the roll
    returns the [None] sentinel and leaves [OutPickupGroup] as the caller set
    it, and the sample that yields the largest draw value does so. *)
Theorem X4_roll_misses_above_the_sum :
  forall (Pool : URewardData) (Out : Z),
    (forall x, In x (GachaRandoms Pool) -> 0 <= Weight x) ->
    SumWeights (GachaRandoms Pool) < TotalGachaWeight Pool ->
    (forall draw, SumWeights (GachaRandoms Pool) < draw ->
                  RollWithDraw Pool Out draw = (NoReward, Out))
    /\ RollRandomReward Pool Out (TotalGachaWeight Pool - 1) = (NoReward, Out).
Proof.
  intros Pool Out Hnn Hlt.
  assert (Hmiss : forall draw, SumWeights (GachaRandoms Pool) < draw ->
                               RollWithDraw Pool Out draw = (NoReward, Out)).
  { intros draw Hd. unfold RollWithDraw.
    now rewrite WalkWeights_miss by (auto; lia). }
  split; [exact Hmiss|].
  unfold RollRandomReward. apply Hmiss.
  pose proof (RollerFacts.SumWeights_nonneg _ Hnn) as Hs.
  unfold FMath.RandRange.
  replace (TotalGachaWeight Pool - 1 + 1) with (TotalGachaWeight Pool) by lia.
  destruct (Z.ltb_spec 0 (TotalGachaWeight Pool)); [|lia].
  rewrite Z.mod_small by lia. lia.
Qed.

Lemma X4_roll_misses_above_the_sum_witness :
  RollRandomReward PoolStaleTotal 3 9 = (NoReward, 3).
Proof.
  apply (proj2 (X4_roll_misses_above_the_sum PoolStaleTotal 3
                  ltac:(intros x [<-|[<-|[]]]; simpl; lia)
                  ltac:(simpl; lia))).
Defined.

End RollerMore.

(** ** Requests and counters *)

Module RequestFacts.
Import Gacha Scenario Request.

Lemma DrawOnce_total RewardData Campaign st sample :
  TotalPickupCount (fst (DrawOnce RewardData Campaign st sample))
  = TotalPickupCount st + 1.
Proof.
  unfold DrawOnce.
  destruct (SpecialPityDue Campaign st); [reflexivity|].
  destruct (NormalPityDue Campaign st); [reflexivity|].
  destruct (RollRandomReward RewardData 0 sample) as [r g].
  destruct (_ <=? g); [reflexivity|]. destruct (_ <=? g); reflexivity.
Qed.

Lemma CountersAfter_total RewardData Campaign samples : forall st,
  TotalPickupCount (CountersAfter RewardData Campaign st samples)
  = TotalPickupCount st + Z.of_nat (List.length samples).
Proof.
  induction samples as [|x rest IH]; intros st.
  - unfold CountersAfter. simpl. lia.
  - rewrite PityFacts.CountersAfter_cons, IH, DrawOnce_total.
    simpl List.length. lia.
Qed.

Lemma Draws_app RewardData Campaign l1 : forall st l2,
  Draws RewardData Campaign st (l1 ++ l2)
  = Draws RewardData Campaign st l1
    ++ Draws RewardData Campaign (CountersAfter RewardData Campaign st l1) l2.
Proof.
  induction l1 as [|x l1 IH]; intros st l2; [reflexivity|].
  simpl app. rewrite !PityFacts.Draws_cons, PityFacts.CountersAfter_cons, IH.
  reflexivity.
Qed.

Lemma CountersAfter_app RewardData Campaign l1 : forall st l2,
  CountersAfter RewardData Campaign st (l1 ++ l2)
  = CountersAfter RewardData Campaign
      (CountersAfter RewardData Campaign st l1) l2.
Proof.
  induction l1 as [|x l1 IH]; intros st l2; [reflexivity|].
  simpl app. now rewrite !PityFacts.CountersAfter_cons, IH.
Qed.

(** X5.  A request that passes the guards of [OnPostGive_Gacha] (the reward
    row and its campaign exist, the total weight and the number of draws are
    positive) always reaches [GiveRewards], with exactly one handler per
    draw, and advances [TotalPickupCount] by the number of draws. *)
Theorem X5_request_gives_one_handler_per_draw :
  forall (W : GachaWorld) (st : PityCounters) (InReward : FRewardHandler)
         (samples : nat -> Z) (RewardData : URewardData)
         (CampaignData : FGachaCampaignData),
    RewardDataTable W (TypeRowName InReward) = Some RewardData ->
    FindCampaign (GachaCampaignDataTable W) (RewardGroupName RewardData)
    = Some CampaignData ->
    0 < TotalGachaWeight RewardData ->
    0 < Amount InReward ->
    exists st' save' RewardHandlers,
      OnPostGive_Gacha W st InReward samples = (st', save', Some RewardHandlers)
      /\ Z.of_nat (List.length RewardHandlers) = Amount InReward
      /\ TotalPickupCount st' = TotalPickupCount st + Amount InReward
      /\ save' (TypeRowName InReward)
         = Some (NormalPickupCounter st', SpecialPickupCounter st').
Proof.
  intros W st InReward samples RewardData CampaignData Hrow Hcamp Hw Hn.
  rewrite (PityFacts.OnPostGive_Gacha_run W st InReward samples RewardData
             CampaignData Hrow Hcamp Hw Hn).
  eexists _, _, _. split; [reflexivity|]. repeat split.
  - rewrite PityFacts.Draws_length, length_map, length_seq. lia.
  - rewrite CountersAfter_total, length_map, length_seq. simpl. lia.
  - unfold SetGachaCounter. now rewrite String.eqb_refl.
Qed.

Lemma X5_request_gives_one_handler_per_draw_witness :
  exists st' save' RewardHandlers,
    OnPostGive_Gacha WorldABC FreshCounters (PullABC 10) (fun _ => 0)
    = (st', save', Some RewardHandlers)
    /\ Z.of_nat (List.length RewardHandlers) = Amount (PullABC 10)
    /\ TotalPickupCount st' = TotalPickupCount FreshCounters + Amount (PullABC 10)
    /\ save' (TypeRowName (PullABC 10))
       = Some (NormalPickupCounter st', SpecialPickupCounter st').
Proof.
  apply (X5_request_gives_one_handler_per_draw WorldABC FreshCounters (PullABC 10)
           (fun _ => 0) PoolABC CampaignABC eq_refl eq_refl);
    simpl; lia.
Defined.

(** X6.  A request is dropped without any reward and without touching the
    saved counters when the reward row is missing, when no campaign row
    names the row's reward group, when the total weight is not positive, or
    when the number of draws is not positive. *)
Theorem X6_request_guards :
  forall (W : GachaWorld) (st : PityCounters) (InReward : FRewardHandler)
         (samples : nat -> Z),
    (RewardDataTable W (TypeRowName InReward) = None ->
     OnPostGive_Gacha W st InReward samples = (st, GachaCounterSave W, None))
    /\
    (forall RewardData,
        RewardDataTable W (TypeRowName InReward) = Some RewardData ->
        (FindCampaign (GachaCampaignDataTable W) (RewardGroupName RewardData) = None ->
         OnPostGive_Gacha W st InReward samples = (st, GachaCounterSave W, None))
        /\
        (TotalGachaWeight RewardData <= 0 \/ Amount InReward <= 0 ->
         snd (OnPostGive_Gacha W st InReward samples) = None
         /\ snd (fst (OnPostGive_Gacha W st InReward samples)) = GachaCounterSave W
         /\ TotalPickupCount (fst (fst (OnPostGive_Gacha W st InReward samples)))
            = TotalPickupCount st)).
Proof.
  intros W st InReward samples. split.
  - intros H. unfold OnPostGive_Gacha. now rewrite H.
  - intros RewardData Hrow. split.
    + intros H. unfold OnPostGive_Gacha. now rewrite Hrow, H.
    + intros Hbad. unfold OnPostGive_Gacha. rewrite Hrow.
      destruct (FindCampaign _ _) as [CampaignData|]; [|now repeat split].
      destruct (match GachaCounterSave W (TypeRowName InReward) with
                | Some c => c
                | None => (0, 0)
                end) as [Normal Special].
      assert (E : (TotalGachaWeight RewardData <=? 0) || (Amount InReward <=? 0)
                  = true).
      { apply orb_true_iff. destruct Hbad; [left|right]; now apply Z.leb_le. }
      rewrite E. now repeat split.
Qed.

Lemma X6_request_guards_witness :
  OnPostGive_Gacha WorldABC FreshCounters
                   (mkReward EReward_Gacha "Nowhere"%string 10 ERewardSource_None)
                   (fun _ => 0)
  = (FreshCounters, GachaCounterSave WorldABC, None)
  /\ snd (OnPostGive_Gacha WorldABC FreshCounters (PullABC 0) (fun _ => 0)) = None.
Proof.
  split.
  - apply (proj1 (X6_request_guards WorldABC FreshCounters
                    (mkReward EReward_Gacha "Nowhere"%string 10 ERewardSource_None)
                    (fun _ => 0))).
    reflexivity.
  - apply (proj2 (proj2 (X6_request_guards WorldABC FreshCounters (PullABC 0)
                           (fun _ => 0)) PoolABC eq_refl)).
    right. simpl. lia.
Defined.

Lemma DrawOnce_bounds RewardData Campaign st sample :
  (0 < NormalPickupGroup Campaign ->
   0 <= NormalPickupCounter st <= 9 ->
   0 <= NormalPickupCounter (fst (DrawOnce RewardData Campaign st sample)) <= 9)
  /\
  (0 < SpecialPickupGroup Campaign ->
   1 <= SpecialTryCount Campaign ->
   0 <= SpecialPickupCounter st < SpecialTryCount Campaign ->
   0 <= SpecialPickupCounter (fst (DrawOnce RewardData Campaign st sample))
   < SpecialTryCount Campaign).
Proof.
  unfold DrawOnce, SpecialPityDue, NormalPityDue.
  split.
  - intros Hen Hn.
    destruct ((0 <? SpecialPickupGroup Campaign) && _); [simpl; lia|].
    destruct (Z.ltb_spec 0 (NormalPickupGroup Campaign)); [|lia].
    destruct (Z.leb_spec 10 (NormalPickupCounter st + 1)); simpl andb; cbv iota;
      [simpl; lia|].
    destruct (RollRandomReward RewardData 0 sample) as [r g].
    destruct (_ <=? g); [simpl; lia|]. destruct (_ <=? g); simpl; lia.
  - intros Hen Htry Hs.
    destruct (Z.ltb_spec 0 (SpecialPickupGroup Campaign)); [|lia].
    destruct (Z.leb_spec (SpecialTryCount Campaign) (SpecialPickupCounter st + 1));
      simpl andb; cbv iota; [simpl; lia|].
    destruct ((0 <? NormalPickupGroup Campaign) && _); [simpl; lia|].
    destruct (RollRandomReward RewardData 0 sample) as [r g].
    destruct (_ <=? g); [simpl; lia|]. destruct (_ <=? g); simpl; lia.
Qed.

(** X7.  The counters that a run of draws ends with, which are the counters
    a request saves, stay in range: with normal pity enabled a normal counter
    that starts in [0, 9] ends in [0, 9]; with special pity enabled and a try
    count of at least 1 a special counter that starts in
    [0, SpecialTryCount - 1] ends there. *)
Theorem X7_counters_stay_in_range :
  forall (RewardData : URewardData) (Campaign : FGachaCampaignData)
         (samples : list Z) (st : PityCounters),
    (0 < NormalPickupGroup Campaign ->
     0 <= NormalPickupCounter st <= 9 ->
     0 <= NormalPickupCounter (CountersAfter RewardData Campaign st samples) <= 9)
    /\
    (0 < SpecialPickupGroup Campaign ->
     1 <= SpecialTryCount Campaign ->
     0 <= SpecialPickupCounter st < SpecialTryCount Campaign ->
     0 <= SpecialPickupCounter (CountersAfter RewardData Campaign st samples)
     < SpecialTryCount Campaign).
Proof.
  intros RewardData Campaign samples.
  induction samples as [|x rest IH]; intros st.
  - split; intros; assumption.
  - rewrite PityFacts.CountersAfter_cons.
    destruct (DrawOnce_bounds RewardData Campaign st x) as [Hn Hs].
    destruct (IH (fst (DrawOnce RewardData Campaign st x))) as [IHn IHs].
    split.
    + intros Hen H. apply IHn; [exact Hen|]. now apply Hn.
    + intros Hen Htry H. apply IHs; [exact Hen|exact Htry|]. now apply Hs.
Qed.

Lemma X7_counters_stay_in_range_witness :
  0 <= NormalPickupCounter
         (CountersAfter PoolABC CampaignABC FreshCounters (repeat 0 25)) <= 9
  /\ 0 <= SpecialPickupCounter
            (CountersAfter PoolABC CampaignABC FreshCounters (repeat 0 25))
     < SpecialTryCount CampaignABC.
Proof.
  split.
  - apply (proj1 (X7_counters_stay_in_range PoolABC CampaignABC (repeat 0 25)
                    FreshCounters)); simpl; lia.
  - apply (proj2 (X7_counters_stay_in_range PoolABC CampaignABC (repeat 0 25)
                    FreshCounters)); simpl; lia.
Defined.

Lemma PityCounters_eta (c : PityCounters) :
  mkCounters (TotalPickupCount c) (NormalPickupCounter c) (SpecialPickupCounter c)
  = c.
Proof. now destruct c. Qed.

Lemma map_seq_shift (samples : nat -> Z) (a b : nat) :
  map (fun i => samples (a + i)%nat) (seq 0 b) = map samples (seq a b).
Proof.
  revert a. induction b as [|b IH]; intros a; [reflexivity|].
  simpl. rewrite Nat.add_0_r. f_equal.
  rewrite <- seq_shift, map_map.
  rewrite <- (IH (S a)). apply map_ext. intros i. f_equal. lia.
Qed.

(** X8.  Requests chain through the saved counters: a request of [a] draws
    followed, on the counters it saved, by a request of [b] draws that uses
    the next samples gives the handlers, the counters and the saved counters
    of a single request of [a + b] draws. *)
Theorem X8_requests_compose :
  forall (W : GachaWorld) (st : PityCounters) (InReward : FRewardHandler)
         (samples : nat -> Z) (RewardData : URewardData)
         (CampaignData : FGachaCampaignData) (a b : Z),
    RewardDataTable W (TypeRowName InReward) = Some RewardData ->
    FindCampaign (GachaCampaignDataTable W) (RewardGroupName RewardData)
    = Some CampaignData ->
    0 < TotalGachaWeight RewardData ->
    0 < a -> 0 < b ->
    exists st1 save1 l1 st2 save2 l2 save12,
      OnPostGive_Gacha W st (WithAmount InReward a) samples
      = (st1, save1, Some l1)
      /\ OnPostGive_Gacha (WithSave W save1) st1 (WithAmount InReward b)
                          (fun i => samples (Z.to_nat a + i)%nat)
         = (st2, save2, Some l2)
      /\ OnPostGive_Gacha W st (WithAmount InReward (a + b)) samples
         = (st2, save12, Some (l1 ++ l2))
      /\ forall Key, save12 Key = save2 Key.
Proof.
  intros W st InReward samples RewardData CampaignData a b Hrow Hcamp Hw Ha Hb.
  pose proof (PityFacts.OnPostGive_Gacha_run W st (WithAmount InReward a) samples
                RewardData CampaignData Hrow Hcamp Hw Ha) as E1.
  pose proof (PityFacts.OnPostGive_Gacha_run W st (WithAmount InReward (a + b))
                samples RewardData CampaignData Hrow Hcamp Hw ltac:(simpl; lia))
    as E12.
  cbv zeta in E1, E12. simpl TypeRowName in *. simpl Amount in *.
  set (Saved := match GachaCounterSave W (TypeRowName InReward) with
                | Some c => c
                | None => (0, 0)
                end) in *.
  set (Start := mkCounters (TotalPickupCount st) (fst Saved) (snd Saved)) in *.
  set (In1 := map samples (seq 0 (Z.to_nat a))) in *.
  set (st1 := CountersAfter RewardData CampaignData Start In1) in *.
  set (save1 := SetGachaCounter (GachaCounterSave W) (TypeRowName InReward)
                  (NormalPickupCounter st1) (SpecialPickupCounter st1)) in *.
  pose proof (PityFacts.OnPostGive_Gacha_run (WithSave W save1) st1
                (WithAmount InReward b) (fun i => samples (Z.to_nat a + i)%nat)
                RewardData CampaignData Hrow Hcamp Hw Hb) as E2.
  cbv zeta in E2. simpl TypeRowName in E2. simpl Amount in E2.
  simpl GachaCounterSave in E2.
  assert (Hload : save1 (TypeRowName InReward)
                  = Some (NormalPickupCounter st1, SpecialPickupCounter st1)).
  { unfold save1, SetGachaCounter. now rewrite String.eqb_refl. }
  rewrite Hload in E2. cbn [fst snd] in E2. rewrite PityCounters_eta in E2.
  rewrite map_seq_shift in E2.
  set (In2 := map samples (seq (Z.to_nat a) (Z.to_nat b))) in *.
  assert (Hsplit : map samples (seq 0 (Z.to_nat (a + b))) = In1 ++ In2).
  { unfold In1, In2. rewrite <- map_app, <- seq_app. do 2 f_equal. lia. }
  rewrite Hsplit, Draws_app, CountersAfter_app in E12. fold st1 in E12.
  eexists _, _, _, _, _, _, _.
  split; [exact E1|]. split; [exact E2|]. split; [exact E12|].
  intros Key. unfold save1, SetGachaCounter.
  destruct (String.eqb Key (TypeRowName InReward)); reflexivity.
Qed.

Lemma X8_requests_compose_witness :
  exists st1 save1 l1 st2 save2 l2 save12,
    OnPostGive_Gacha WorldABC FreshCounters (WithAmount (PullABC 1) 4) (fun _ => 0)
    = (st1, save1, Some l1)
    /\ OnPostGive_Gacha (WithSave WorldABC save1) st1 (WithAmount (PullABC 1) 6)
                        (fun i => (fun _ => 0) (Z.to_nat 4 + i)%nat)
       = (st2, save2, Some l2)
    /\ OnPostGive_Gacha WorldABC FreshCounters (WithAmount (PullABC 1) (4 + 6))
                        (fun _ => 0)
       = (st2, save12, Some (l1 ++ l2))
    /\ forall Key, save12 Key = save2 Key.
Proof.
  apply (X8_requests_compose WorldABC FreshCounters (PullABC 1) (fun _ => 0)
           PoolABC CampaignABC 4 6 eq_refl eq_refl); simpl; lia.
Defined.

(** X9.  With special pity disabled by a [SpecialPickupGroup] that is not
    positive, and no entry of a tier below it, every normal roll passes the
    test [PickupGroup >= SpecialPickupGroup] and resets both counters: a run
    that starts with a normal counter below 9 consists of normal rolls only,
    and normal pity never fires in it, whatever [NormalPickupGroup] is. *)
Theorem X9_normal_pity_starves_without_special :
  forall (RewardData : URewardData) (Campaign : FGachaCampaignData)
         (samples : list Z) (st : PityCounters),
    SpecialPickupGroup Campaign <= 0 ->
    (forall g, In g (GachaRandoms RewardData) ->
               SpecialPickupGroup Campaign <= PickupGroup g) ->
    NormalPickupCounter st < 9 ->
    Draws RewardData Campaign st samples
    = map (fun sample => fst (RollRandomReward RewardData 0 sample)) samples
    /\ (samples <> [] ->
        NormalPickupCounter (CountersAfter RewardData Campaign st samples) = 0
        /\ SpecialPickupCounter (CountersAfter RewardData Campaign st samples) = 0).
Proof.
  intros RewardData Campaign samples.
  induction samples as [|x rest IH]; intros st Hoff Htiers Hn.
  - split; [reflexivity|congruence].
  - assert (Hstep : DrawOnce RewardData Campaign st x
                    = (mkCounters (TotalPickupCount st + 1) 0 0,
                       fst (RollRandomReward RewardData 0 x))).
    { unfold DrawOnce, SpecialPityDue, NormalPityDue.
      destruct (Z.ltb_spec 0 (SpecialPickupGroup Campaign)); [lia|].
      destruct (Z.leb_spec 10 (NormalPickupCounter st + 1)); [lia|].
      rewrite andb_false_r. simpl andb. cbv iota.
      destruct (PityFacts.RollRandomReward_cases RewardData x)
        as [E|(g & Hg & E)]; rewrite E; simpl fst.
      - destruct (Z.leb_spec (SpecialPickupGroup Campaign) 0); [reflexivity|lia].
      - specialize (Htiers g Hg).
        destruct (Z.leb_spec (SpecialPickupGroup Campaign) (PickupGroup g));
          [reflexivity|lia]. }
    rewrite PityFacts.Draws_cons, PityFacts.CountersAfter_cons, Hstep.
    cbn [fst snd].
    destruct (IH (mkCounters (TotalPickupCount st + 1) 0 0) Hoff Htiers
                 ltac:(simpl; lia)) as [IHd IHc].
    split; [simpl map; now rewrite IHd|].
    intros _. destruct rest as [|y rest']; [now split|].
    apply IHc. discriminate.
Qed.

Lemma X9_normal_pity_starves_without_special_witness :
  Draws PoolCommonRare CampaignNormalOnly FreshCounters (repeat 0 30)
  = map (fun sample => fst (RollRandomReward PoolCommonRare 0 sample)) (repeat 0 30).
Proof.
  apply (proj1 (X9_normal_pity_starves_without_special PoolCommonRare
                  CampaignNormalOnly (repeat 0 30) FreshCounters
                  ltac:(simpl; lia)
                  ltac:(intros g [<-|[<-|[]]]; simpl; lia)
                  ltac:(simpl; lia))).
Defined.

End RequestFacts.

(** ** Expansion of flat and repeated definitions *)

Module ExpansionFacts.
Import Gacha Scenario Expansion.

Section Flat.
Variable FindRow : FName -> option URewardData.
Variable Build : option URewardData -> BuildState -> option (bool * BuildState).

Lemma AddReward_atomic Handler hs rng :
  Atomic Handler ->
  AddReward FindRow Build Handler (hs, rng) = Some (hs ++ [Handler], rng).
Proof.
  intros Hat. unfold AddReward.
  destruct (EReward_eqb (RewardType Handler) EReward_RewardData) eqn:E;
    [|reflexivity].
  apply EReward_eqb_eq in E. contradiction.
Qed.

Lemma ForEach_atomic Handlers : forall hs rng,
  Forall Atomic Handlers ->
  ForEach (AddReward FindRow Build) Handlers (hs, rng)
  = Some (hs ++ Handlers, rng).
Proof.
  induction Handlers as [|h rest IH]; intros hs rng Hall; simpl.
  - now rewrite app_nil_r.
  - inversion Hall as [|? ? Hh Hrest]; subst.
    rewrite AddReward_atomic by exact Hh. simpl.
    rewrite IH by exact Hrest. now rewrite <- app_assoc.
Qed.

Lemma BuildBody_flat Data hs rng :
  Flat Data ->
  BuildBody FindRow Build Data (hs, rng)
  = Some (negb (IsEmpty (hs ++ Statics Data
                            ++ Picked Data (Samples rng (Cursor rng)))),
          (hs ++ Statics Data ++ Picked Data (Samples rng (Cursor rng)),
           Advance Data rng)).
Proof.
  intros [Hst Hrn]. unfold BuildBody, Picked, Advance.
  rewrite ForEach_atomic by exact Hst. cbn [bind fst snd].
  destruct (IsEmpty (Randoms Data)).
  - cbn [bind fst snd]. now rewrite app_nil_r.
  - unfold NextSample. cbv beta iota zeta. cbn [snd].
    destruct (WalkRandoms _ 0 _) as [r|] eqn:Ew.
    + rewrite AddReward_atomic.
      * cbn [bind fst snd]. now rewrite <- app_assoc.
      * apply ExpanderFacts.WalkRandoms_In in Ew.
        rewrite Forall_forall in Hrn. now apply Hrn.
    + cbn [bind fst snd]. now rewrite app_nil_r.
Qed.

End Flat.

(** X10.  One expansion of a flat definition (no composite handler) appends
    its static handlers in table order, then the one weighted option that the
    next sample selects, if the definition has options; it consumes that one
    sample and no other, and the returned flag tells whether the accumulated
    list is non-empty. *)
Theorem X10_flat_expansion :
  forall (FindRow : FName -> option URewardData) (depth : nat)
         (Data : URewardData) (hs : list FRewardHandler) (rng : RandomStream),
    Flat Data ->
    BuildRewardData FindRow (S depth) (Some Data) (hs, rng)
    = Some (negb (IsEmpty (hs ++ Statics Data
                              ++ Picked Data (Samples rng (Cursor rng)))),
            (hs ++ Statics Data ++ Picked Data (Samples rng (Cursor rng)),
             Advance Data rng)).
Proof.
  intros FindRow depth Data hs rng Hflat. simpl. now apply BuildBody_flat.
Qed.

Lemma DataChest_flat : Flat DataChest.
Proof.
  split; repeat constructor; unfold Atomic; simpl; discriminate.
Defined.

Lemma X10_flat_expansion_witness :
  BuildRewardData TableChest 1 (Some DataChest) ([], mkStream (fun _ => 3) 5)
  = Some (true, ([ItemReward "Key"%string; ItemReward "Ruby"%string], mkStream (fun _ => 3) 6)).
Proof.
  exact (X10_flat_expansion TableChest 0 DataChest [] (mkStream (fun _ => 3) 5)
           DataChest_flat).
Defined.

Lemma Repeat_flat FindRow depth Leaf :
  Flat Leaf ->
  forall count hs rng,
    Repeat count
           (fun st => bind (BuildRewardData FindRow (S depth) (Some Leaf) st)
                           (fun r => Some (snd r)))
           (hs, rng)
    = Some (hs ++ List.concat (map (fun i => Statics Leaf
                                        ++ Picked Leaf (Samples rng (Cursor rng + i)%nat))
                              (seq 0 count)),
            mkStream (Samples rng)
                     (Cursor rng + (if IsEmpty (Randoms Leaf) then 0 else count))).
Proof.
  intros Hflat. induction count as [|count IH]; intros hs rng.
  - simpl. rewrite app_nil_r. destruct rng as [sm c].
    destruct (IsEmpty (Randoms Leaf)); simpl; now rewrite Nat.add_0_r.
  - cbn [Repeat]. rewrite X10_flat_expansion by exact Hflat. cbn [bind snd].
    rewrite IH. f_equal. f_equal.
    + cbn [seq]. rewrite <- seq_shift. cbn [map List.concat]. rewrite map_map.
      rewrite Nat.add_0_r, <- !app_assoc. do 4 f_equal.
      apply map_ext. intros i. f_equal.
      unfold Advance, Picked. destruct (IsEmpty (Randoms Leaf)); [reflexivity|].
      simpl. now replace (S (Cursor rng + i)) with (Cursor rng + S i)%nat by lia.
    + unfold Advance. destruct (IsEmpty (Randoms Leaf)); simpl; f_equal; lia.
Qed.

(** X11.  A definition that refers [Count] times to a flat definition expands
    it [Count] times in a row: each expansion appends the static handlers of
    the referred definition and the option selected by a sample of its own,
    so that [Count] samples are consumed when the referred definition has
    weighted options and none otherwise. *)
Theorem X11_multiplicity_repeats_and_redraws :
  forall (FindRow : FName -> option URewardData) (depth : nat)
         (Data Leaf : URewardData) (Key : FName) (Count : Z)
         (Source : ERewardSource) (hs : list FRewardHandler) (rng : RandomStream),
    Statics Data = [mkReward EReward_RewardData Key Count Source] ->
    Randoms Data = [] ->
    FindRow Key = Some Leaf ->
    Flat Leaf ->
    let out :=
      hs ++ List.concat (map (fun i => Statics Leaf
                                  ++ Picked Leaf (Samples rng (Cursor rng + i)%nat))
                        (seq 0 (Z.to_nat Count))) in
    BuildRewardData FindRow (S (S depth)) (Some Data) (hs, rng)
    = Some (negb (IsEmpty out),
            (out,
             mkStream (Samples rng)
                      (Cursor rng + (if IsEmpty (Randoms Leaf) then 0
                                     else Z.to_nat Count))))
    /\ (Randoms Leaf = [] ->
        out = hs ++ List.concat (repeat (Statics Leaf) (Z.to_nat Count))).
Proof.
  intros FindRow depth Data Leaf Key Count Source hs rng Hst Hrn Hrow Hflat out.
  split.
  - cbn [BuildRewardData]. unfold BuildBody. rewrite Hst, Hrn.
    cbn [ForEach IsEmpty]. unfold AddReward at 1. cbn [RewardType EReward_eqb].
    cbn [TypeRowName Amount]. rewrite Hrow.
    rewrite (Repeat_flat FindRow depth Leaf Hflat). reflexivity.
  - intros Hnone. unfold out. f_equal. unfold Picked. rewrite Hnone.
    cbn [IsEmpty]. rewrite app_nil_r. generalize (Z.to_nat Count) as n. intros n.
    generalize 0%nat as start.
    induction n as [|n IH]; intros start; [reflexivity|].
    cbn [seq map List.concat repeat]. f_equal. apply IH.
Qed.

Lemma DataInner_flat : Flat DataInner.
Proof.
  split; repeat constructor; unfold Atomic; simpl; discriminate.
Defined.

Lemma X11_multiplicity_repeats_and_redraws_witness :
  BuildRewardData TableChest 2
                  (Some (Repeated "Chest"%string 3 ERewardSource_None)) ([], CountingStream)
  = Some (true,
          ([ItemReward "Key"%string; ItemReward "Gold"%string;
            ItemReward "Key"%string; ItemReward "Gold"%string;
            ItemReward "Key"%string; ItemReward "Gold"%string],
           mkStream (Samples CountingStream) 3))
  /\ [] ++ List.concat (map (fun i => Statics DataInner
                                 ++ Picked DataInner
                                      (Samples CountingStream
                                               (Cursor CountingStream + i)%nat))
                       (seq 0 (Z.to_nat 2)))
     = [] ++ List.concat (repeat (Statics DataInner) (Z.to_nat 2)).
Proof.
  split.
  - exact (proj1 (X11_multiplicity_repeats_and_redraws TableChest 0
                    (Repeated "Chest"%string 3 ERewardSource_None) DataChest
                    "Chest"%string 3 ERewardSource_None [] CountingStream
                    eq_refl eq_refl eq_refl DataChest_flat)).
  - exact (proj2 (X11_multiplicity_repeats_and_redraws TableChest 0
                    (Repeated "Inner"%string 2 ERewardSource_None) DataInner
                    "Inner"%string 2 ERewardSource_None [] CountingStream
                    eq_refl eq_refl eq_refl DataInner_flat) eq_refl).
Defined.

Lemma Repeat_skip (body : BuildState -> option BuildState) count : forall st,
  (forall st', body st' = Some st') -> Repeat count body st = Some st.
Proof.
  induction count as [|count IH]; intros st H; [reflexivity|].
  simpl. rewrite H. simpl. now apply IH.
Qed.

(** X12.  A composite handler whose row is missing from the table, or whose
    [Amount] is not positive, is skipped without a trace: nothing is
    appended, no sample is consumed and no nested call on a definition is
    made (one level of depth is enough, even when the row it names is part of
    a cycle). *)
Theorem X12_unresolved_or_zero_composite_is_skipped :
  forall (FindRow : FName -> option URewardData) (Data : URewardData)
         (Key : FName) (Count : Z) (Source : ERewardSource)
         (hs : list FRewardHandler) (rng : RandomStream),
    Statics Data = [mkReward EReward_RewardData Key Count Source] ->
    Randoms Data = [] ->
    FindRow Key = None \/ Count <= 0 ->
    BuildRewardData FindRow 1 (Some Data) (hs, rng)
    = Some (negb (IsEmpty hs), (hs, rng)).
Proof.
  intros FindRow Data Key Count Source hs rng Hst Hrn Hskip.
  change (BuildRewardData FindRow 1 (Some Data) (hs, rng))
    with (BuildBody FindRow (BuildRewardData FindRow 0) Data (hs, rng)).
  unfold BuildBody. rewrite Hst, Hrn.
  cbn [ForEach IsEmpty]. unfold AddReward. cbn [RewardType EReward_eqb].
  cbn [TypeRowName Amount].
  assert (E : Repeat (Z.to_nat Count)
                (fun st => bind (BuildRewardData FindRow 0 (FindRow Key) st)
                                (fun r => Some (snd r))) (hs, rng)
              = Some (hs, rng)).
  { destruct Hskip as [Hnone|Hzero].
    - apply Repeat_skip. intros st'. now rewrite Hnone.
    - replace (Z.to_nat Count) with 0%nat by lia. reflexivity. }
  rewrite E. reflexivity.
Qed.

Lemma X12_unresolved_or_zero_composite_is_skipped_witness :
  BuildRewardData TableAB 1 (Some (Repeated "Missing"%string 4 ERewardSource_None))
                  ([ItemReward "Coin"%string], ZeroStream)
  = Some (true, ([ItemReward "Coin"%string], ZeroStream))
  /\ BuildRewardData TableAB 1 (Some (Repeated "A"%string 0 ERewardSource_None))
                     ([], ZeroStream)
     = Some (false, ([], ZeroStream)).
Proof.
  split.
  - apply (X12_unresolved_or_zero_composite_is_skipped TableAB
             (Repeated "Missing"%string 4 ERewardSource_None) "Missing"%string 4
             ERewardSource_None); [reflexivity|reflexivity|now left].
  - apply (X12_unresolved_or_zero_composite_is_skipped TableAB
             (Repeated "A"%string 0 ERewardSource_None) "A"%string 0
             ERewardSource_None); [reflexivity|reflexivity|right; lia].
Defined.

End ExpansionFacts.

(** ** Structure of the adjusted batch and of the decision *)

Module BatchFacts.
Import Inventory InventoryScenario Batch.

Lemma Split_shape W : forall InRewards Kept Pass Counts,
  NoDup (map fst Counts) ->
  StackableKeys W Counts ->
  let '(Kept', Pass', Counts') :=
    fold_left (SplitStep W) InRewards (Kept, Pass, Counts) in
  Kept' = Kept ++ filter (StaysInPlace W) InRewards
  /\ Pass' = Pass ++ filter (IsNonStackableGrant W) InRewards
  /\ NoDup (map fst Counts')
  /\ StackableKeys W Counts'.
Proof.
  induction InRewards as [|r rest IH]; intros Kept Pass Counts Hnd Hkeys.
  - simpl. now rewrite !app_nil_r.
  - change (fold_left (SplitStep W) (r :: rest) (Kept, Pass, Counts))
      with (fold_left (SplitStep W) rest (SplitStep W (Kept, Pass, Counts) r)).
    cbn [filter].
    destruct (EReward_eqb (RewardType r) EReward_Item) eqn:Et.
    + destruct (ItemDataTable W (TypeRowName r)) as [d|] eqn:Er.
      * destruct (IsNonStackable d) eqn:Ens.
        -- assert (Es : SplitStep W (Kept, Pass, Counts) r
                        = (Kept, Pass ++ [r], Counts))
             by (unfold SplitStep; now rewrite Et, Er, Ens).
           assert (Hs : StaysInPlace W r = false)
             by (unfold StaysInPlace; now rewrite Et, Er).
           assert (Hn : IsNonStackableGrant W r = true)
             by (unfold IsNonStackableGrant; now rewrite Et, Er, Ens).
           rewrite Es, Hs, Hn.
           specialize (IH Kept (Pass ++ [r]) Counts Hnd Hkeys).
           destruct (fold_left _ rest _) as [[K' P'] C'].
           destruct IH as (-> & -> & H3 & H4).
           rewrite <- app_assoc. now repeat split.
        -- assert (Es : SplitStep W (Kept, Pass, Counts) r
                        = (Kept, Pass,
                           FindOrAddPlus Counts (TypeRowName r) (Amount r)))
             by (unfold SplitStep; now rewrite Et, Er, Ens).
           assert (Hs : StaysInPlace W r = false)
             by (unfold StaysInPlace; now rewrite Et, Er).
           assert (Hn : IsNonStackableGrant W r = false)
             by (unfold IsNonStackableGrant; now rewrite Et, Er, Ens).
           rewrite Es, Hs, Hn.
           assert (Hk : StackableKeys W
                          (FindOrAddPlus Counts (TypeRowName r) (Amount r))).
           { intros Key Hin.
             apply SimulatorFacts.FindOrAddPlus_keys in Hin.
             destruct Hin as [->|Hin]; [now exists d|now apply Hkeys]. }
           specialize (IH Kept Pass _
                          (SimulatorFacts.FindOrAddPlus_NoDup _ _ _ Hnd) Hk).
           destruct (fold_left _ rest _) as [[K' P'] C']. exact IH.
      * assert (Es : SplitStep W (Kept, Pass, Counts) r
                     = (Kept ++ [r], Pass, Counts))
          by (unfold SplitStep; now rewrite Et, Er).
        assert (Hs : StaysInPlace W r = true)
          by (unfold StaysInPlace; now rewrite Et, Er).
        assert (Hn : IsNonStackableGrant W r = false)
          by (unfold IsNonStackableGrant; now rewrite Et, Er).
        rewrite Es, Hs, Hn.
        specialize (IH (Kept ++ [r]) Pass Counts Hnd Hkeys).
        destruct (fold_left _ rest _) as [[K' P'] C'].
        destruct IH as (-> & -> & H3 & H4).
        rewrite <- app_assoc. now repeat split.
    + assert (Es : SplitStep W (Kept, Pass, Counts) r
                   = (Kept ++ [r], Pass, Counts))
        by (unfold SplitStep; now rewrite Et).
      assert (Hs : StaysInPlace W r = true)
        by (unfold StaysInPlace; now rewrite Et).
      assert (Hn : IsNonStackableGrant W r = false)
        by (unfold IsNonStackableGrant; now rewrite Et).
      rewrite Es, Hs, Hn.
      specialize (IH (Kept ++ [r]) Pass Counts Hnd Hkeys).
      destruct (fold_left _ rest _) as [[K' P'] C'].
      destruct IH as (-> & -> & H3 & H4).
      rewrite <- app_assoc. now repeat split.
Qed.

Lemma Rebuild_props W Source Counts :
  NoDup (map fst Counts) ->
  StackableKeys W Counts ->
  NoDup (map TypeRowName (Rebuild Source Counts))
  /\ Forall (fun Reward => IsStackableGrant W Reward = true
                           /\ Amount Reward <> 0
                           /\ AcquireSource Reward = Source)
            (Rebuild Source Counts).
Proof.
  induction Counts as [|[k a] rest IH]; intros Hnd Hkeys.
  - split; constructor.
  - inversion Hnd as [|? ? Hnot Hrest]; subst.
    assert (Hkeys' : StackableKeys W rest).
    { intros Key Hin. apply Hkeys. now right. }
    destruct (IH Hrest Hkeys') as [IHn IHf].
    unfold Rebuild in *. cbn [filter snd fst].
    destruct (Z.eqb_spec a 0) as [Ha|Ha]; cbn [negb]; [now split|].
    cbn [map TypeRowName fst snd]. split.
    + constructor; [|exact IHn].
      intros Hin. apply Hnot. rewrite map_map in Hin. cbn [TypeRowName] in Hin.
      apply in_map_iff in Hin. destruct Hin as ((k', a') & Hk & Hin).
      cbn [fst] in Hk. subst k'. apply filter_In in Hin.
      apply in_map_iff. exists (k, a'). split; [reflexivity|apply Hin].
    + constructor; [|exact IHf].
      destruct (Hkeys k (or_introl eq_refl)) as (d & Hd & Hns).
      unfold IsStackableGrant. cbn [RewardType TypeRowName Amount AcquireSource].
      rewrite Hd, Hns. now repeat split.
Qed.

(** X13.  The adjusted batch is the input batch regrouped: first the rewards
    that are not items or have no item row, then the merged stackable grants,
    then the non-stackable grants; the rewards of the first and of the last
    group are those of the input, each as often as it occurs there and in the
    input order.  The merged grants are item grants of stackable rows with
    distinct keys and non-zero amounts, and all carry the acquisition source
    of the first reward of the input. *)
Theorem X13_adjusted_batch_structure :
  forall (W : SimWorld) (InRewards : list FRewardHandler),
    exists Merged,
      AdjustedBatch W InRewards
      = filter (StaysInPlace W) InRewards
        ++ Merged
        ++ filter (IsNonStackableGrant W) InRewards
      /\ NoDup (map TypeRowName Merged)
      /\ Forall (fun Reward => IsStackableGrant W Reward = true
                               /\ Amount Reward <> 0
                               /\ AcquireSource Reward = DefaultSourceOf InRewards)
                Merged.
Proof.
  intros W InRewards. unfold AdjustedBatch, Split.
  pose proof (Split_shape W InRewards [] [] [] (NoDup_nil _)
                ltac:(intros Key [])) as Hshape.
  destruct (fold_left (SplitStep W) InRewards ([], [], [])) as [[K P] C].
  destruct Hshape as (HK & HP & Hnd & Hkeys). simpl in HK, HP. subst K P.
  exists (Rebuild (DefaultSourceOf InRewards) C).
  split; [reflexivity|]. now apply Rebuild_props.
Qed.

Lemma CheckRewards_unchecked W cap : forall Rewards slot,
  CheckRewards W false cap Rewards slot = forallb (Simulate W) Rewards.
Proof.
  induction Rewards as [|r rest IH]; intros slot; [reflexivity|].
  simpl. destruct (Simulate W r); simpl; [apply IH|reflexivity].
Qed.

Lemma CheckRewards_admissible W b cap : forall Rewards slot,
  CheckRewards W b cap Rewards slot = true ->
  forallb (Simulate W) Rewards = true.
Proof.
  induction Rewards as [|r rest IH]; intros slot H; [reflexivity|].
  simpl in *. destruct (Simulate W r); simpl in *; [|discriminate].
  destruct b; simpl in H; [|eapply IH, H].
  destruct (negb (EReward_eqb _ _) || _); [eapply IH, H|].
  destruct (ItemDataTable W (TypeRowName r)) as [d|]; [|eapply IH, H].
  destruct (negb (RequiresInventorySlot d)); [eapply IH, H|].
  destruct (_ <? _); [discriminate|eapply IH, H].
Qed.

(** X14.  The admissibility check decides alone when capacity checking is
    off: the batch is accepted exactly when [URewardManager::Simulate]
    accepts every reward of the adjusted batch, whatever the slot count and
    the capacity.  With capacity checking on, an accepted batch has passed
    the admissibility check on every reward of the adjusted batch. *)
Theorem X14_admissibility_always_runs :
  forall (W : SimWorld) (InRewards : list FRewardHandler)
         (InUpdatedItem : list (option UNetItem.t)),
    fst (SimulateRewards W InRewards InUpdatedItem false)
    = forallb (Simulate W) (AdjustedBatch W InRewards)
    /\ (fst (SimulateRewards W InRewards InUpdatedItem true) = true ->
        forallb (Simulate W) (AdjustedBatch W InRewards) = true).
Proof.
  intros W InRewards Updated. unfold SimulateRewards. cbn [fst]. split.
  - apply CheckRewards_unchecked.
  - apply CheckRewards_admissible.
Qed.

Lemma X14_admissibility_always_runs_witness :
  forallb (Simulate FullBag)
          (AdjustedBatch FullBag [Grant "Potion"%string 2 ERewardSource_None]) = true.
Proof.
  apply (proj2 (X14_admissibility_always_runs FullBag
                  [Grant "Potion"%string 2 ERewardSource_None] [])).
  reflexivity.
Defined.

Lemma CheckRewards_monotone W b : forall Rewards cap cap' slot slot',
  cap <= cap' -> slot' <= slot ->
  CheckRewards W b cap Rewards slot = true ->
  CheckRewards W b cap' Rewards slot' = true.
Proof.
  induction Rewards as [|r rest IH]; intros cap cap' slot slot' Hc Hs H;
    [reflexivity|].
  simpl in *. destruct (Simulate W r); simpl in *; [|discriminate].
  destruct b; simpl in *; [|eapply IH; eassumption].
  destruct (negb (EReward_eqb _ _) || _); [eapply IH; eassumption|].
  destruct (ItemDataTable W (TypeRowName r)) as [d|]; [|eapply IH; eassumption].
  destruct (negb (RequiresInventorySlot d)); [eapply IH; eassumption|].
  set (u := GetAmount W (TypeRowName r)) in *.
  assert (Hstep : RewardSlotStep d u r slot' <= RewardSlotStep d u r slot).
  { unfold RewardSlotStep.
    destruct (IsNonStackable d); destruct (0 <? Amount r);
      destruct (Amount r <? 0); try destruct (u =? 0);
      try destruct (u + Amount r <=? 0); lia. }
  destruct (Z.ltb_spec cap (RewardSlotStep d u r slot)); [discriminate|].
  destruct (Z.ltb_spec cap' (RewardSlotStep d u r slot')); [lia|].
  eapply IH; [exact Hc|exact Hstep|exact H].
Qed.

Lemma Split_WithCapacity W cap slot InRewards :
  Split (WithCapacity W cap slot) InRewards = Split W InRewards.
Proof.
  unfold Split. generalize (@nil FRewardHandler, @nil FRewardHandler, @nil (FName * Z)).
  induction InRewards as [|r rest IH]; intros acc; [reflexivity|].
  simpl. rewrite IH. reflexivity.
Qed.

Lemma CheckRewards_WithCapacity W cap slot b c : forall Rewards s,
  CheckRewards (WithCapacity W cap slot) b c Rewards s
  = CheckRewards W b c Rewards s.
Proof.
  induction Rewards as [|r rest IH]; intros s; [reflexivity|].
  simpl. destruct (ItemDataTable W (TypeRowName r)); rewrite !IH; reflexivity.
Qed.

(** X15.  Acceptance is monotone in room: a batch accepted with no pending
    items stays accepted, with the same adjusted batch, when the capacity is
    raised or the slot count lowered. *)
Theorem X15_more_room_keeps_acceptance :
  forall (W : SimWorld) (InRewards : list FRewardHandler)
         (bCheckInventory : bool) (MaxCapacity SlotCount : Z),
    GetMaxCapacity W <= MaxCapacity ->
    SlotCount <= GetItemSlotCount W ->
    fst (SimulateRewards W InRewards [] bCheckInventory) = true ->
    SimulateRewards (WithCapacity W MaxCapacity SlotCount) InRewards []
                    bCheckInventory
    = (true, snd (SimulateRewards W InRewards [] bCheckInventory)).
Proof.
  intros W InRewards b cap slot Hc Hs H. unfold SimulateRewards in *.
  cbn [fst snd] in *.
  assert (Hadj : AdjustedBatch (WithCapacity W cap slot) InRewards
                 = AdjustedBatch W InRewards).
  { unfold AdjustedBatch. now rewrite Split_WithCapacity. }
  rewrite Hadj, CheckRewards_WithCapacity. f_equal.
  exact (CheckRewards_monotone W b _ _ _ _ _ Hc Hs H).
Qed.

Lemma X15_more_room_keeps_acceptance_witness :
  SimulateRewards (WithCapacity FullBag 8 4)
                  [Grant "Potion"%string 2 ERewardSource_None] [] true
  = (true, snd (SimulateRewards FullBag [Grant "Potion"%string 2 ERewardSource_None]
                                [] true)).
Proof.
  apply (X15_more_room_keeps_acceptance FullBag
           [Grant "Potion"%string 2 ERewardSource_None] true 8 4);
    [simpl; lia|simpl; lia|reflexivity].
Defined.

Lemma FindOrAddPlus_nonpos Counts k v :
  v <= 0 ->
  Forall (fun Pair : FName * Z => snd Pair <= 0) Counts ->
  Forall (fun Pair : FName * Z => snd Pair <= 0) (FindOrAddPlus Counts k v).
Proof.
  intros Hv. induction Counts as [|[k0 a0] rest IH]; intros Hall; simpl.
  - constructor; [simpl; lia|constructor].
  - inversion Hall as [|? ? Ha Hrest]; subst. simpl in Ha.
    destruct (String.eqb k0 k).
    + constructor; [simpl; lia|exact Hrest].
    + constructor; [exact Ha|now apply IH].
Qed.

Lemma Split_nonpos W : forall InRewards Kept Pass Counts,
  Forall (fun Reward => Amount Reward <= 0) InRewards ->
  Forall (fun Reward => Amount Reward <= 0) Kept ->
  Forall (fun Reward => Amount Reward <= 0) Pass ->
  Forall (fun Pair : FName * Z => snd Pair <= 0) Counts ->
  let '(Kept', Pass', Counts') :=
    fold_left (SplitStep W) InRewards (Kept, Pass, Counts) in
  Forall (fun Reward => Amount Reward <= 0) Kept'
  /\ Forall (fun Reward => Amount Reward <= 0) Pass'
  /\ Forall (fun Pair : FName * Z => snd Pair <= 0) Counts'.
Proof.
  induction InRewards as [|r rest IH]; intros Kept Pass Counts Hin HK HP HC.
  - simpl. now repeat split.
  - inversion Hin as [|? ? Hr Hrest]; subst.
    change (fold_left (SplitStep W) (r :: rest) (Kept, Pass, Counts))
      with (fold_left (SplitStep W) rest (SplitStep W (Kept, Pass, Counts) r)).
    assert (Hsnoc : forall l, Forall (fun Reward => Amount Reward <= 0) l ->
                              Forall (fun Reward => Amount Reward <= 0) (l ++ [r])).
    { intros l Hl. apply Forall_app. split; [exact Hl|now constructor]. }
    unfold SplitStep.
    destruct (negb (EReward_eqb (RewardType r) EReward_Item)).
    + apply IH; auto.
    + destruct (ItemDataTable W (TypeRowName r)) as [d|]; [|apply IH; auto].
      destruct (IsNonStackable d); apply IH; auto.
      now apply FindOrAddPlus_nonpos.
Qed.

Lemma Rebuild_nonpos Source Counts :
  Forall (fun Pair : FName * Z => snd Pair <= 0) Counts ->
  Forall (fun Reward => Amount Reward <= 0) (Rebuild Source Counts).
Proof.
  unfold Rebuild. induction Counts as [|[k a] rest IH]; intros Hall; simpl.
  - constructor.
  - inversion Hall as [|? ? Ha Hrest]; subst. simpl in Ha.
    destruct (negb (a =? 0)); simpl; [constructor; [exact Ha|]|]; now apply IH.
Qed.

Lemma CheckRewards_removals W cap : forall Rewards slot,
  (forall Key, 0 <= GetAmount W Key) ->
  Forall (fun Reward => Amount Reward <= 0) Rewards ->
  forallb (Simulate W) Rewards = true ->
  slot <= cap ->
  CheckRewards W true cap Rewards slot = true.
Proof.
  intros Rewards slot Hheld. revert slot.
  induction Rewards as [|r rest IH]; intros slot Hall Hadm Hslot; [reflexivity|].
  inversion Hall as [|? ? Hr Hrest]; subst.
  simpl in Hadm. apply andb_true_iff in Hadm. destruct Hadm as [Hsim Hadm].
  simpl. rewrite Hsim. simpl.
  destruct (negb (EReward_eqb _ _) || _); [now apply IH|].
  destruct (ItemDataTable W (TypeRowName r)) as [d|]; [|now apply IH].
  destruct (negb (RequiresInventorySlot d)); [now apply IH|].
  pose proof (Hheld (TypeRowName r)) as Hu.
  set (u := GetAmount W (TypeRowName r)) in *.
  assert (Hstep : RewardSlotStep d u r slot <= slot).
  { unfold RewardSlotStep, FMath.Min.
    destruct (IsNonStackable d); destruct (Z.ltb_spec 0 (Amount r));
      destruct (Z.ltb_spec (Amount r) 0); try destruct (u + Amount r <=? 0);
      lia. }
  destruct (Z.ltb_spec cap (RewardSlotStep d u r slot)); [lia|].
  apply IH; [exact Hrest|exact Hadm|lia].
Qed.

(** X16.  A batch that only removes (no reward has a positive amount) is
    never rejected for capacity: when the held amounts are not negative, the
    slot count before the batch does not exceed the capacity and every reward
    of the adjusted batch is admissible, the batch is accepted. *)
Theorem X16_removals_pass_the_capacity_check :
  forall (W : SimWorld) (InRewards : list FRewardHandler)
         (InUpdatedItem : list (option UNetItem.t)),
    Forall (fun Reward => Amount Reward <= 0) InRewards ->
    (forall Key, 0 <= GetAmount W Key) ->
    BaselineSlots W InUpdatedItem <= GetMaxCapacity W ->
    forallb (Simulate W) (AdjustedBatch W InRewards) = true ->
    fst (SimulateRewards W InRewards InUpdatedItem true) = true.
Proof.
  intros W InRewards Updated Hin Hheld Hbase Hadm.
  unfold SimulateRewards. cbn [fst].
  apply CheckRewards_removals; try assumption.
  unfold AdjustedBatch, Split.
  pose proof (Split_nonpos W InRewards [] [] [] Hin (Forall_nil _) (Forall_nil _)
                (Forall_nil _)) as Hsplit.
  destruct (fold_left (SplitStep W) InRewards ([], [], [])) as [[K P] C].
  destruct Hsplit as (HK & HP & HC).
  apply Forall_app. split; [exact HK|].
  apply Forall_app. split; [now apply Rebuild_nonpos|exact HP].
Qed.

Lemma FullBag_held : forall Key, 0 <= GetAmount FullBag Key.
Proof.
  intros Key. simpl. destruct (String.eqb Key "Potion"%string); lia.
Defined.

Lemma X16_removals_pass_the_capacity_check_witness :
  fst (SimulateRewards FullBag
         [Grant "Potion"%string (-1) ERewardSource_None;
          Grant "Sword"%string (-1) ERewardSource_None;
          Grant "Potion"%string (-2) ERewardSource_None] [] true) = true.
Proof.
  apply (X16_removals_pass_the_capacity_check FullBag
           [Grant "Potion"%string (-1) ERewardSource_None;
            Grant "Sword"%string (-1) ERewardSource_None;
            Grant "Potion"%string (-2) ERewardSource_None] []).
  - repeat constructor; simpl; lia.
  - exact FullBag_held.
  - unfold BaselineSlots. simpl. lia.
  - reflexivity.
Defined.

End BatchFacts.

(** ** Removal and update of held items *)

Module CommitMore.
Import Inventory InventoryScenario.

Lemma SetAmount_same It : SetAmount It (UNetItem.Amount It) = It.
Proof. now destruct It. Qed.

Lemma SetAmount_twice It a b : SetAmount (SetAmount It a) b = SetAmount It b.
Proof. reflexivity. Qed.

(** The result of [RemoveInventoryItem] when the guard passes and the row
    exists. *)
Lemma RemoveInventoryItem_result W It Rem Task ItemData :
  ItemDataByID W (UNetItem.ItemID It) = Some ItemData ->
  0 <= Rem <= UNetItem.Amount It ->
  let New := FMath.Clamp (UNetItem.Amount It - Rem) 0 (MaxStackAmount ItemData) in
  RemoveInventoryItem W (Some It) Rem Task
  = Some (true, Some (SetAmount It New),
          Task ++ (if 0 <? New
                   then [UpdateItemAmount New (UNetItem.ItemUID It)]
                   else [DeleteItem (UNetItem.ItemUID It);
                         DeleteInventory (UNetItem.ItemUID It)]
                        ++ (if GetEquipmentBy W (UNetItem.ItemID It)
                            then [DeleteEquipment (AccountID W) (UNetItem.ItemUID It)]
                            else []))).
Proof.
  intros Hrow Hrange New. unfold RemoveInventoryItem.
  destruct (Z.ltb_spec Rem 0) as [|_]; [lia|].
  destruct (Z.ltb_spec (UNetItem.Amount It - Rem) 0) as [|_]; [lia|].
  simpl orb. cbv iota.
  rewrite (CommitFacts.OnUpdateItemAmount_result W It _ Task ItemData Hrow).
  replace (UNetItem.Amount It + Rem * -1) with (UNetItem.Amount It - Rem) by lia.
  fold New. cbv zeta. cbn [UNetItem.Amount SetAmount UNetItem.ItemUID UNetItem.ItemID].
  assert (Hnn : 0 <= New) by (unfold New, FMath.Clamp; lia).
  destruct (Z.ltb_spec 0 New) as [Hpos|Hzero].
  - destruct (Z.leb_spec New 0); [lia|reflexivity].
  - destruct (Z.leb_spec New 0); [|lia]. unfold AddQuery.
    destruct (GetEquipmentBy W (UNetItem.ItemID It)); now rewrite <- !app_assoc.
Qed.

(** X17.  A removal that returns [true] was within the held amount, leaves a
    held amount that is not negative and at least the removed amount below
    the previous one, keeps the identity of the item and only adds queries
    to the task. *)
Theorem X17_successful_removal_bounds :
  forall (W : CommitWorld) (It It' : UNetItem.t) (InRemoveAmount : Z)
         (Task Task' : FSqliteQueryTask),
    RemoveInventoryItem W (Some It) InRemoveAmount Task
    = Some (true, Some It', Task') ->
    0 <= InRemoveAmount <= UNetItem.Amount It
    /\ 0 <= UNetItem.Amount It' <= UNetItem.Amount It - InRemoveAmount
    /\ UNetItem.ItemUID It' = UNetItem.ItemUID It
    /\ UNetItem.ItemID It' = UNetItem.ItemID It
    /\ UNetItem.ItemData It' = UNetItem.ItemData It
    /\ exists added, added <> [] /\ Task' = Task ++ added.
Proof.
  intros W It It' Rem Task Task' H.
  assert (Hrange : 0 <= Rem <= UNetItem.Amount It).
  { unfold RemoveInventoryItem in H.
    destruct (Z.ltb_spec Rem 0); [discriminate|].
    destruct (Z.ltb_spec (UNetItem.Amount It - Rem) 0); [discriminate|]. lia. }
  destruct (ItemDataByID W (UNetItem.ItemID It)) as [D|] eqn:Hrow.
  - rewrite (RemoveInventoryItem_result W It Rem Task D Hrow Hrange) in H.
    injection H as <- <-. cbn [SetAmount UNetItem.Amount UNetItem.ItemUID
                                UNetItem.ItemID UNetItem.ItemData].
    split; [exact Hrange|]. split; [unfold FMath.Clamp; lia|].
    repeat split. eexists. split; [|reflexivity].
    destruct (0 <? _); discriminate.
  - unfold RemoveInventoryItem, OnUpdateItemAmount in H. rewrite Hrow in H.
    destruct (_ || _); discriminate.
Qed.

Lemma X17_successful_removal_bounds_witness :
  0 <= 10 <= UNetItem.Amount OverfullPotions
  /\ 0 <= UNetItem.Amount (SetAmount OverfullPotions 99)
     <= UNetItem.Amount OverfullPotions - 10
  /\ UNetItem.ItemUID (SetAmount OverfullPotions 99) = UNetItem.ItemUID OverfullPotions
  /\ UNetItem.ItemID (SetAmount OverfullPotions 99) = UNetItem.ItemID OverfullPotions
  /\ UNetItem.ItemData (SetAmount OverfullPotions 99)
     = UNetItem.ItemData OverfullPotions
  /\ exists added, added <> [] /\ [UpdateItemAmount 99 13] = [] ++ added.
Proof.
  apply (X17_successful_removal_bounds Store OverfullPotions
           (SetAmount OverfullPotions 99) 10 [] [UpdateItemAmount 99 13]).
  reflexivity.
Defined.

(** X18.  Adding units to a held item and removing as many restores the
    item: when the held amount is not negative, the added amount is not
    negative and the sum does not exceed [MaxStackAmount], the update
    followed by the removal returns [true] and gives back the item as it
    was. *)
Theorem X18_update_then_remove_round_trip :
  forall (W : CommitWorld) (It : UNetItem.t) (ItemData : FItemBaseData)
         (Delta : Z) (Task : FSqliteQueryTask),
    ItemDataByID W (UNetItem.ItemID It) = Some ItemData ->
    0 <= UNetItem.Amount It ->
    0 <= Delta ->
    UNetItem.Amount It + Delta <= MaxStackAmount ItemData ->
    exists It1 Task1 Task2,
      OnUpdateItemAmount W It Delta Task = Some (It1, Task1)
      /\ UNetItem.Amount It1 = UNetItem.Amount It + Delta
      /\ RemoveInventoryItem W (Some It1) Delta Task1 = Some (true, Some It, Task2).
Proof.
  intros W It D Delta Task Hrow Hheld Hd Hmax.
  rewrite (CommitFacts.OnUpdateItemAmount_result W It Delta Task D Hrow).
  cbv zeta. rewrite FMathFacts.Clamp_id by lia.
  eexists _, _, _. split; [reflexivity|]. split; [reflexivity|].
  set (It1 := SetAmount It (UNetItem.Amount It + Delta)).
  assert (HN : FMath.Clamp (UNetItem.Amount It1 - Delta) 0 (MaxStackAmount D)
               = UNetItem.Amount It).
  { unfold It1. cbn [SetAmount UNetItem.Amount]. unfold FMath.Clamp. lia. }
  rewrite (RemoveInventoryItem_result W It1 Delta _ D Hrow)
    by (unfold It1; simpl; lia).
  cbv zeta. rewrite HN. unfold It1 at 1.
  rewrite SetAmount_twice, SetAmount_same. reflexivity.
Qed.

Lemma X18_update_then_remove_round_trip_witness :
  exists It1 Task1 Task2,
    OnUpdateItemAmount Store HeldPotions 20 [] = Some (It1, Task1)
    /\ UNetItem.Amount It1 = UNetItem.Amount HeldPotions + 20
    /\ RemoveInventoryItem Store (Some It1) 20 Task1
       = Some (true, Some HeldPotions, Task2).
Proof.
  apply (X18_update_then_remove_round_trip Store HeldPotions PotionData 20 []
           eq_refl); simpl; lia.
Defined.

(** X19.  The queries of a removal that passes the guard, for an item whose
    row exists: while units remain, a single update of the item's amount and
    no deletion, also for an equipped item; when none remains, the deletion
    of the item row, then of the inventory row, then, only for an equipped
    item, of the equipment row. *)
Theorem X19_removal_queries :
  forall (W : CommitWorld) (It : UNetItem.t) (ItemData : FItemBaseData)
         (InRemoveAmount : Z) (Task : FSqliteQueryTask),
    ItemDataByID W (UNetItem.ItemID It) = Some ItemData ->
    0 <= InRemoveAmount <= UNetItem.Amount It ->
    exists It' Task',
      RemoveInventoryItem W (Some It) InRemoveAmount Task
      = Some (true, Some It', Task')
      /\ (0 < UNetItem.Amount It' ->
          Task' = Task ++ [UpdateItemAmount (UNetItem.Amount It')
                                            (UNetItem.ItemUID It)])
      /\ (UNetItem.Amount It' = 0 ->
          Task' = Task ++ [DeleteItem (UNetItem.ItemUID It);
                           DeleteInventory (UNetItem.ItemUID It)]
                       ++ (if GetEquipmentBy W (UNetItem.ItemID It)
                           then [DeleteEquipment (AccountID W)
                                                 (UNetItem.ItemUID It)]
                           else []))
      /\ (0 < UNetItem.Amount It' \/ UNetItem.Amount It' = 0).
Proof.
  intros W It D Rem Task Hrow Hrange.
  rewrite (RemoveInventoryItem_result W It Rem Task D Hrow Hrange). cbv zeta.
  set (New := FMath.Clamp (UNetItem.Amount It - Rem) 0 (MaxStackAmount D)).
  assert (Hnn : 0 <= New) by (unfold New, FMath.Clamp; lia).
  eexists _, _. split; [reflexivity|].
  cbn [SetAmount UNetItem.Amount]. repeat split.
  - intros Hpos. destruct (Z.ltb_spec 0 New); [reflexivity|lia].
  - intros Hzero. destruct (Z.ltb_spec 0 New); [lia|reflexivity].
  - lia.
Qed.

Lemma X19_removal_queries_witness :
  exists It' Task',
    RemoveInventoryItem Store (Some HeldSword) 0 [] = Some (true, Some It', Task')
    /\ (0 < UNetItem.Amount It' ->
        Task' = [] ++ [UpdateItemAmount (UNetItem.Amount It')
                                        (UNetItem.ItemUID HeldSword)])
    /\ (UNetItem.Amount It' = 0 ->
        Task' = [] ++ [DeleteItem (UNetItem.ItemUID HeldSword);
                       DeleteInventory (UNetItem.ItemUID HeldSword)]
                   ++ (if GetEquipmentBy Store (UNetItem.ItemID HeldSword)
                       then [DeleteEquipment (AccountID Store)
                                             (UNetItem.ItemUID HeldSword)]
                       else []))
    /\ (0 < UNetItem.Amount It' \/ UNetItem.Amount It' = 0).
Proof.
  apply (X19_removal_queries Store HeldSword SwordData 0 [] eq_refl).
  simpl. lia.
Defined.

End CommitMore.

(** ** The video list of a gacha result *)

Module GachaUIFacts.
Import GachaUI.

Section Videos.
Variable C : Config.
Variable T : Tables.
Variable FindRow : FName -> option FVideoResourceData.

Lemma AddVideoResource_app acc Row Name :
  fst (AddVideoResource C FindRow acc Row Name)
  = acc ++ fst (AddVideoResource C FindRow [] Row Name).
Proof. unfold AddVideoResource. destruct (FindRow Row); simpl; now rewrite ?app_nil_r. Qed.

Lemma AddVideoResource_props Row Name :
  (List.length (fst (AddVideoResource C FindRow [] Row Name)) <= 1)%nat
  /\ Forall (fun Video => RootPath Video = FileDir C)
            (fst (AddVideoResource C FindRow [] Row Name)).
Proof.
  unfold AddVideoResource. destruct (FindRow Row); simpl; split; try lia;
    repeat constructor.
Qed.

Lemma VideoStep_app acc Handler :
  VideoStep C T FindRow acc Handler = acc ++ VideoStep C T FindRow [] Handler.
Proof.
  unfold VideoStep.
  destruct (GachaRandomDataTable T (TypeRowName Handler)) as [g|];
    [|now rewrite app_nil_r].
  destruct (EReward_eqb _ _).
  - destruct (PlayerCharacterDataTable T _) as [pc|].
    + destruct (SpecialGrade <=? Grade pc).
      * rewrite (AddVideoResource_app (fst (AddVideoResource _ _ (fst _) _ _))).
        rewrite (AddVideoResource_app (fst (AddVideoResource C FindRow acc _ _))).
        rewrite (AddVideoResource_app acc).
        rewrite (AddVideoResource_app
                   (fst (AddVideoResource C FindRow
                           (fst (AddVideoResource C FindRow [] _ _)) _ _))).
        rewrite (AddVideoResource_app (fst (AddVideoResource C FindRow [] _ _))).
        now rewrite !app_assoc.
      * rewrite (AddVideoResource_app (fst _)), (AddVideoResource_app acc).
        rewrite (AddVideoResource_app (fst (AddVideoResource C FindRow [] _ _))).
        now rewrite !app_assoc.
    + apply AddVideoResource_app.
  - apply AddVideoResource_app.
Qed.

Lemma fold_VideoStep Handlers : forall acc,
  fold_left (VideoStep C T FindRow) Handlers acc
  = acc ++ flat_map (VideoStep C T FindRow []) Handlers.
Proof.
  induction Handlers as [|h rest IH]; intros acc; simpl.
  - now rewrite app_nil_r.
  - rewrite IH, VideoStep_app. now rewrite app_assoc.
Qed.

Lemma VideoStep_props Handler :
  (List.length (VideoStep C T FindRow [] Handler) <= 3)%nat
  /\ Forall (fun Video => RootPath Video = FileDir C)
            (VideoStep C T FindRow [] Handler).
Proof.
  unfold VideoStep.
  destruct (GachaRandomDataTable T (TypeRowName Handler)) as [g|];
    [|split; [simpl; lia|constructor]].
  pose proof AddVideoResource_props as P.
  destruct (EReward_eqb _ _).
  - destruct (PlayerCharacterDataTable T _) as [pc|].
    + destruct (SpecialGrade <=? Grade pc).
      * rewrite (AddVideoResource_app (fst _)).
        rewrite (AddVideoResource_app (fst _)).
        rewrite !length_app. split.
        -- pose proof (proj1 (P (Video_5Star C) NAME_None)).
           pose proof (proj1 (P (String.append (TypeRowName (Reward g)) (IntroPrefix C))
                                NAME_None)).
           pose proof (proj1 (P (TypeRowName Handler) (TypeRowName Handler))).
           lia.
        -- repeat (apply Forall_app; split); apply P.
      * rewrite (AddVideoResource_app (fst _)). rewrite !length_app. split.
        -- pose proof (proj1 (P (String.append (TypeRowName (Reward g)) (IntroPrefix C))
                                NAME_None)).
           pose proof (proj1 (P (TypeRowName Handler) (TypeRowName Handler))).
           lia.
        -- repeat (apply Forall_app; split); apply P.
    + split; [|apply P].
      pose proof (proj1 (P (TypeRowName Handler) (TypeRowName Handler))). lia.
  - split; [|apply P].
    pose proof (proj1 (P (TypeRowName Handler) (TypeRowName Handler))). lia.
Qed.

Lemma flat_map_props Handlers :
  (List.length (flat_map (VideoStep C T FindRow []) Handlers)
   <= 3 * List.length Handlers)%nat
  /\ Forall (fun Video => RootPath Video = FileDir C)
            (flat_map (VideoStep C T FindRow []) Handlers).
Proof.
  induction Handlers as [|h rest [IHl IHf]]; simpl; [split; [lia|constructor]|].
  destruct (VideoStep_props h) as [Hl Hf]. rewrite length_app. split; [lia|].
  apply Forall_app. now split.
Qed.

Lemma flat_map_skips_rowless Handlers :
  flat_map (VideoStep C T FindRow []) Handlers
  = flat_map (VideoStep C T FindRow []) (filter (HasGachaRow T) Handlers).
Proof.
  induction Handlers as [|h rest IH]; [reflexivity|].
  simpl. unfold HasGachaRow at 1.
  destruct (GachaRandomDataTable T (TypeRowName h)) eqn:E.
  - simpl. now rewrite IH.
  - rewrite <- IH. unfold VideoStep at 1. now rewrite E.
Qed.

End Videos.

(** X20.  [SetVideosToPlay] plays nothing for an empty result list or a
    missing video table.  Otherwise it always calls [OnPlayVideos], with at
    most one intro and three videos per handler, and every video of the list
    has [FileDir] as its root path. *)
Theorem X20_video_list_guards_and_bounds :
  forall (C : Config) (T : Tables) (InHandlers : list FRewardHandler)
         (bGradeHigh : bool),
    SetVideosToPlay C T [] bGradeHigh = None
    /\ (VideoDataTable T = None -> SetVideosToPlay C T InHandlers bGradeHigh = None)
    /\ (forall FindRow,
           VideoDataTable T = Some FindRow -> InHandlers <> [] ->
           exists Videos,
             SetVideosToPlay C T InHandlers bGradeHigh = Some Videos
             /\ (List.length Videos <= 1 + 3 * List.length InHandlers)%nat
             /\ Forall (fun Video => RootPath Video = FileDir C) Videos).
Proof.
  intros C T InHandlers b. split; [reflexivity|]. split.
  - intros H. unfold SetVideosToPlay. rewrite H. now destruct InHandlers.
  - intros FindRow H Hne. unfold SetVideosToPlay. rewrite H.
    destruct InHandlers as [|h rest]; [congruence|].
    eexists. split; [reflexivity|]. rewrite fold_VideoStep.
    destruct (AddVideoResource_props C FindRow
                (if b then IntroSpecial C else IntroNormal C) NAME_None) as [Il If].
    destruct (flat_map_props C T FindRow (h :: rest)) as [Fl Ff].
    rewrite length_app. split; [lia|]. apply Forall_app. now split.
Qed.

Lemma X20_video_list_guards_and_bounds_witness :
  exists Videos,
    SetVideosToPlay (DefaultConfig "Movies/"%string) DemoTables
                    [Won "HeroRow"%string; Won "GemRow"%string] false = Some Videos
    /\ (List.length Videos <= 1 + 3 * List.length [Won "HeroRow"%string; Won "GemRow"%string])%nat
    /\ Forall (fun Video => RootPath Video = FileDir (DefaultConfig "Movies/"%string)) Videos.
Proof.
  apply (proj2 (proj2 (X20_video_list_guards_and_bounds (DefaultConfig "Movies/"%string)
                         DemoTables
                         [Won "HeroRow"%string; Won "GemRow"%string] false))
               _ eq_refl).
  discriminate.
Defined.

(** X21.  A handler whose row is missing from the gacha table contributes no
    video at all, not even its result video: two non-empty result lists that
    agree on the handlers with a gacha row produce the same video list. *)
Theorem X21_rowless_handlers_are_skipped :
  forall (C : Config) (T : Tables) (Handlers Handlers' : list FRewardHandler)
         (bGradeHigh : bool),
    Handlers <> [] -> Handlers' <> [] ->
    filter (HasGachaRow T) Handlers = filter (HasGachaRow T) Handlers' ->
    SetVideosToPlay C T Handlers bGradeHigh
    = SetVideosToPlay C T Handlers' bGradeHigh.
Proof.
  intros C T l l' b Hl Hl' Hsame. unfold SetVideosToPlay.
  destruct l as [|h rest]; [congruence|]. destruct l' as [|h' rest']; [congruence|].
  destruct (VideoDataTable T) as [FindRow|]; [|reflexivity].
  rewrite !fold_VideoStep.
  rewrite (flat_map_skips_rowless C T FindRow (h :: rest)).
  rewrite (flat_map_skips_rowless C T FindRow (h' :: rest')).
  now rewrite Hsame.
Qed.

Lemma X21_rowless_handlers_are_skipped_witness :
  SetVideosToPlay (DefaultConfig "Movies/"%string) DemoTables
                  [Won "Unknown"%string; Won "GemRow"%string] true
  = SetVideosToPlay (DefaultConfig "Movies/"%string) DemoTables [Won "GemRow"%string] true.
Proof.
  apply (X21_rowless_handlers_are_skipped (DefaultConfig "Movies/"%string) DemoTables
           [Won "Unknown"%string; Won "GemRow"%string] [Won "GemRow"%string] true);
    [discriminate|discriminate|reflexivity].
Defined.

(** X22.  [bGradeHigh] selects the intro and nothing else: for a non-empty
    result list and a video table, the two lists are the intro found under
    [IntroSpecial], respectively under [IntroNormal], followed by one and the
    same sequence of videos. *)
Theorem X22_grade_flag_only_selects_the_intro :
  forall (C : Config) (T : Tables) (InHandlers : list FRewardHandler)
         (FindRow : FName -> option FVideoResourceData),
    VideoDataTable T = Some FindRow ->
    InHandlers <> [] ->
    exists Body,
      SetVideosToPlay C T InHandlers true
      = Some (fst (AddVideoResource C FindRow [] (IntroSpecial C) NAME_None) ++ Body)
      /\ SetVideosToPlay C T InHandlers false
         = Some (fst (AddVideoResource C FindRow [] (IntroNormal C) NAME_None) ++ Body).
Proof.
  intros C T l FindRow H Hne. unfold SetVideosToPlay. rewrite H.
  destruct l as [|h rest]; [congruence|].
  exists (flat_map (VideoStep C T FindRow []) (h :: rest)).
  now rewrite !fold_VideoStep.
Qed.

Lemma X22_grade_flag_only_selects_the_intro_witness :
  exists FindRow Body,
    VideoDataTable DemoTables = Some FindRow
    /\ SetVideosToPlay (DefaultConfig "Movies/"%string) DemoTables [Won "HeroRow"%string] true
       = Some (fst (AddVideoResource (DefaultConfig "Movies/"%string) FindRow []
                      (IntroSpecial (DefaultConfig "Movies/"%string)) NAME_None) ++ Body)
    /\ SetVideosToPlay (DefaultConfig "Movies/"%string) DemoTables [Won "HeroRow"%string] false
       = Some (fst (AddVideoResource (DefaultConfig "Movies/"%string) FindRow []
                      (IntroNormal (DefaultConfig "Movies/"%string)) NAME_None) ++ Body).
Proof.
  destruct (VideoDataTable DemoTables) as [FindRow|] eqn:E; [|discriminate].
  destruct (X22_grade_flag_only_selects_the_intro (DefaultConfig "Movies/"%string)
              DemoTables [Won "HeroRow"%string] FindRow E ltac:(discriminate))
    as (Body & H1 & H2).
  exists FindRow, Body. now repeat split.
Defined.

Example SetVideosToPlay_hero :
  option_map (map ProloguePath)
    (SetVideosToPlay (DefaultConfig "Movies/"%string) DemoTables
                     [Won "HeroRow"%string; Won "Unknown"%string; Won "GemRow"%string] false)
  = Some ["intro.mp4"; "star.mp4"; "hero.mp4"; "heroget.mp4"; "gemget.mp4"]%string.
Proof. reflexivity. Qed.

End GachaUIFacts.

(** ** Media source cache and video sequencing *)

Module VideoPlayerFacts.
Import VideoPlayer.

Lemma FindSource_snoc Cache k Source k' :
  FindSource (Cache ++ [(k, Source)]) k'
  = match FindSource Cache k' with
    | Some Found => Some Found
    | None => if String.eqb k k' then Some Source else None
    end.
Proof.
  induction Cache as [|[k0 s0] rest IH]; simpl; [reflexivity|].
  destruct (String.eqb k0 k'); [reflexivity|exact IH].
Qed.

(** X23.  The media source cache answers by key alone: after a call for a
    group and a loop flag, the returned source is the cached one for that
    key, every later call for the same group and flag returns that same
    source and leaves the cache as it is, whatever path it is given, and
    sources cached under other keys are still found.  The path of the call
    is used only when the key was not cached before. *)
Theorem X23_media_source_cache_by_key :
  forall (Cache : SourceCache) (Group : FName) (bIsLoop : bool) (Path : string),
    let Cache1 := fst (FindOrAddMediaSource Cache Group bIsLoop Path) in
    let Source := snd (FindOrAddMediaSource Cache Group bIsLoop Path) in
    FindSource Cache1 (KeyOf Group bIsLoop) = Some Source
    /\ (forall Path', FindOrAddMediaSource Cache1 Group bIsLoop Path'
                      = (Cache1, Source))
    /\ (forall KeyName Found, FindSource Cache KeyName = Some Found ->
                              FindSource Cache1 KeyName = Some Found)
    /\ (FindSource Cache (KeyOf Group bIsLoop) = None ->
        Source = mkMediaSource (KeyOf Group bIsLoop) Path)
    /\ (forall Cached, FindSource Cache (KeyOf Group bIsLoop) = Some Cached ->
                       Source = Cached /\ Cache1 = Cache).
Proof.
  intros Cache Group l Path. unfold FindOrAddMediaSource.
  destruct (FindSource Cache (KeyOf Group l)) as [s|] eqn:E; cbn [fst snd].
  - split; [exact E|]. split; [intros Path'; now rewrite E|].
    split; [auto|]. split; [discriminate|].
    intros Cached H. injection H as <-. now split.
  - assert (Hfound : FindSource (Cache ++ [(KeyOf Group l,
                                            mkMediaSource (KeyOf Group l) Path)])
                                (KeyOf Group l)
                     = Some (mkMediaSource (KeyOf Group l) Path)).
    { now rewrite FindSource_snoc, E, String.eqb_refl. }
    split; [exact Hfound|]. split; [intros Path'; now rewrite Hfound|].
    split; [|split; [reflexivity|discriminate]].
    intros k Found H. now rewrite FindSource_snoc, H.
Qed.

Lemma X23_media_source_cache_by_key_witness :
  snd (FindOrAddMediaSource [] "Intro"%string true "a.mp4"%string)
  = mkMediaSource (KeyOf "Intro"%string true) "a.mp4"%string
  /\ FindOrAddMediaSource (fst (FindOrAddMediaSource [] "Intro"%string true "a.mp4"%string))
                          "Intro"%string true "b.mp4"%string
     = (fst (FindOrAddMediaSource [] "Intro"%string true "a.mp4"%string),
        snd (FindOrAddMediaSource [] "Intro"%string true "a.mp4"%string)).
Proof.
  pose proof (X23_media_source_cache_by_key [] "Intro"%string true "a.mp4"%string)
    as (_ & Hagain & _ & Hnew & _).
  split; [apply Hnew; reflexivity|apply Hagain].
Defined.

Lemma list_ascii_of_append s1 s2 :
  list_ascii_of_string (String.append s1 s2)
  = list_ascii_of_string s1 ++ list_ascii_of_string s2.
Proof. induction s1 as [|c s1 IH]; simpl; [reflexivity|now rewrite IH]. Qed.

Lemma list_ascii_of_string_inj s1 s2 :
  list_ascii_of_string s1 = list_ascii_of_string s2 -> s1 = s2.
Proof.
  intros H. rewrite <- (string_of_list_ascii_of_string s1),
              <- (string_of_list_ascii_of_string s2). now rewrite H.
Qed.

(** X24.  The cache key tells the group and the loop flag apart: two calls
    share a key only when they name the same group and the same flag. *)
Theorem X24_cache_key_is_injective :
  forall (Group Group' : FName) (bIsLoop bIsLoop' : bool),
    KeyOf Group bIsLoop = KeyOf Group' bIsLoop' ->
    Group = Group' /\ bIsLoop = bIsLoop'.
Proof.
  intros g g' l l' H. apply (f_equal list_ascii_of_string) in H.
  unfold KeyOf in H. rewrite !list_ascii_of_append in H.
  destruct l, l'; simpl in H.
  - split; [|reflexivity]. apply list_ascii_of_string_inj.
    now apply app_inv_tail in H.
  - exfalso. apply (f_equal (@rev _)) in H. rewrite !rev_app_distr in H.
    simpl in H. discriminate H.
  - exfalso. apply (f_equal (@rev _)) in H. rewrite !rev_app_distr in H.
    simpl in H. discriminate H.
  - split; [|reflexivity]. apply list_ascii_of_string_inj.
    now apply app_inv_tail in H.
Qed.

Lemma X24_cache_key_is_injective_witness :
  "A_Loop"%string = "A_Loop"%string /\ false = false.
Proof.
  apply (X24_cache_key_is_injective "A_Loop"%string "A_Loop"%string false false). reflexivity.
Defined.

Lemma IsValidIndex_spec Queue Index :
  IsValidIndex Queue Index = true <-> 0 <= Index < Z.of_nat (List.length Queue).
Proof.
  unfold IsValidIndex. rewrite andb_true_iff, Z.leb_le, Z.ltb_lt. tauto.
Qed.

(** The search loop returns the first index from [i] on whose handler does
    not loop. *)
Lemma FirstNonLoop_spec : forall Handlers i j,
  FirstNonLoop Handlers i = Some j ->
  i <= j < i + Z.of_nat (List.length Handlers)
  /\ FVideoPlayHandler.bLoop (nth (Z.to_nat (j - i)) Handlers DefaultHandler) = false
  /\ forall k, i <= k < j ->
       FVideoPlayHandler.bLoop (nth (Z.to_nat (k - i)) Handlers DefaultHandler) = true.
Proof.
  induction Handlers as [|h rest IH]; intros i j H; [discriminate|].
  simpl in H. destruct (FVideoPlayHandler.bLoop h) eqn:Eh; simpl in H.
  - destruct (IH _ _ H) as (Hr & Hj & Hk). simpl List.length. split; [lia|]. split.
    + replace (Z.to_nat (j - i)) with (S (Z.to_nat (j - (i + 1)))) by lia. exact Hj.
    + intros k Hkr. destruct (Z.eq_dec k i) as [->|Hne].
      * replace (Z.to_nat (i - i)) with 0%nat by lia. exact Eh.
      * replace (Z.to_nat (k - i)) with (S (Z.to_nat (k - (i + 1)))) by lia.
        apply Hk. lia.
  - injection H as <-. simpl List.length. split; [lia|]. split.
    + replace (Z.to_nat (i - i)) with 0%nat by lia. exact Eh.
    + intros k Hk. lia.
Qed.

Lemma FirstNonLoop_none : forall Handlers i,
  FirstNonLoop Handlers i = None ->
  Forall (fun h => FVideoPlayHandler.bLoop h = true) Handlers.
Proof.
  induction Handlers as [|h rest IH]; intros i H; [constructor|].
  simpl in H. destruct (FVideoPlayHandler.bLoop h) eqn:Eh; simpl in H;
    [|discriminate].
  constructor; [exact Eh|eapply IH, H].
Qed.

Lemma At_skipn Queue n m :
  0 <= n -> 0 <= m ->
  nth (Z.to_nat m) (skipn (Z.to_nat n) Queue) DefaultHandler = At Queue (n + m).
Proof.
  intros Hn Hm. unfold At. rewrite nth_skipn. f_equal. lia.
Qed.

(** X25.  [PlayNextInSequence] either ends the sequence, emptying the queue
    and announcing the end once, or moves [CurrentVideoIndex] strictly
    forward to a valid index of the unchanged queue and asks for exactly the
    handler at that index; no handler that does not loop is skipped on the
    way, and a looping handler is played only as the direct successor of a
    non-looping handler of the same group. *)
Theorem X25_sequencing_moves_forward :
  forall P : Player,
    IsValidIndex (VideoQueue P) (CurrentVideoIndex P) = true ->
    PlayNextInSequence P
    = (mkPlayer [] (CurrentVideoIndex P) (MaxVideoIndex P), [CallAllVideosEnd])
    \/
    exists i,
      PlayNextInSequence P
      = (mkPlayer (VideoQueue P) i (MaxVideoIndex P),
         [CallPlayVideo (At (VideoQueue P) i)])
      /\ CurrentVideoIndex P < i
      /\ IsValidIndex (VideoQueue P) i = true
      /\ (forall k, CurrentVideoIndex P < k < i ->
                    FVideoPlayHandler.bLoop (At (VideoQueue P) k) = true)
      /\ (FVideoPlayHandler.bLoop (At (VideoQueue P) i) = true ->
          i = CurrentVideoIndex P + 1
          /\ FVideoPlayHandler.bLoop (At (VideoQueue P) (CurrentVideoIndex P)) = false
          /\ FVideoPlayHandler.GroupID (At (VideoQueue P) i)
             = FVideoPlayHandler.GroupID (At (VideoQueue P) (CurrentVideoIndex P))).
Proof.
  intros P Hvalid. unfold PlayNextInSequence. rewrite Hvalid. cbn [negb].
  apply IsValidIndex_spec in Hvalid.
  set (cur := CurrentVideoIndex P) in *. set (Q := VideoQueue P) in *.
  destruct (negb (FVideoPlayHandler.bLoop (At Q cur))
            && IsValidIndex Q (cur + 1)
            && String.eqb (FVideoPlayHandler.GroupID (At Q (cur + 1)))
                          (FVideoPlayHandler.GroupID (At Q cur))
            && FVideoPlayHandler.bLoop (At Q (cur + 1))) eqn:Epair.
  - right. exists (cur + 1).
    apply andb_true_iff in Epair. destruct Epair as [Epair Hloop].
    apply andb_true_iff in Epair. destruct Epair as [Epair Hgroup].
    apply andb_true_iff in Epair. destruct Epair as [Hcur Hnext].
    apply negb_true_iff in Hcur. apply String.eqb_eq in Hgroup.
    assert (Ecall : PlayVideoAtIndex (mkPlayer Q (cur + 1) (MaxVideoIndex P))
                                     (cur + 1)
                    = [CallPlayVideo (At Q (cur + 1))]).
    { unfold PlayVideoAtIndex. cbn [VideoQueue]. now rewrite Hnext. }
    rewrite Ecall.
    split; [reflexivity|]. split; [lia|]. split; [exact Hnext|].
    split; [intros k Hk; lia|]. intros _. now repeat split.
  - destruct (FirstNonLoop (skipn (Z.to_nat (cur + 1)) Q) (cur + 1)) as [i|] eqn:Ef;
      [right|now left].
    destruct (FirstNonLoop_spec _ _ _ Ef) as (Hr & Hi & Hk).
    rewrite length_skipn in Hr.
    assert (Hiv : IsValidIndex Q i = true) by (apply IsValidIndex_spec; lia).
    exists i.
    assert (Ecall : PlayVideoAtIndex (mkPlayer Q i (MaxVideoIndex P)) i
                    = [CallPlayVideo (At Q i)]).
    { unfold PlayVideoAtIndex. cbn [VideoQueue]. now rewrite Hiv. }
    rewrite Ecall.
    split; [reflexivity|]. split; [lia|]. split; [exact Hiv|].
    rewrite At_skipn in Hi by lia.
    replace (cur + 1 + (i - (cur + 1))) with i in Hi by lia.
    split.
    + intros k Hkr. specialize (Hk k ltac:(lia)).
      rewrite At_skipn in Hk by lia.
      now replace (cur + 1 + (k - (cur + 1))) with k in Hk by lia.
    + intros Hloop. congruence.
Qed.

Lemma X25_sequencing_moves_forward_witness :
  PlayNextInSequence (mkPlayer DemoQueue 1 3)
  = (mkPlayer [] 1 3, [CallAllVideosEnd])
  \/
  exists i,
    PlayNextInSequence (mkPlayer DemoQueue 1 3)
    = (mkPlayer DemoQueue i 3, [CallPlayVideo (At DemoQueue i)])
    /\ 1 < i
    /\ IsValidIndex DemoQueue i = true
    /\ (forall k, 1 < k < i -> FVideoPlayHandler.bLoop (At DemoQueue k) = true)
    /\ (FVideoPlayHandler.bLoop (At DemoQueue i) = true ->
        i = 1 + 1
        /\ FVideoPlayHandler.bLoop (At DemoQueue 1) = false
        /\ FVideoPlayHandler.GroupID (At DemoQueue i)
           = FVideoPlayHandler.GroupID (At DemoQueue 1)).
Proof.
  exact (X25_sequencing_moves_forward (mkPlayer DemoQueue 1 3) eq_refl).
Defined.

Example PlayNextInSequence_demo :
  map (fun P => CurrentVideoIndex (fst (PlayNextInSequence P)))
      [mkPlayer DemoQueue 0 3; mkPlayer DemoQueue 1 3; mkPlayer DemoQueue 2 3]
  = [1; 3; 3]
  /\ PlayNextInSequence (mkPlayer DemoQueue 3 3)
     = (mkPlayer [] 3 3, [CallAllVideosEnd]).
Proof. split; reflexivity. Qed.

(** X26.  Once the index is not a valid index of the queue, every
    [PlayNextInSequence] ends the sequence again: the queue is emptied, the
    end is announced, and no video is asked for.  This is the state that
    [OnFinishedAllVideos] leaves, so the end of a sequence is stable. *)
Theorem X26_finished_sequence_stays_finished :
  forall P : Player,
    IsValidIndex (VideoQueue P) (CurrentVideoIndex P) = false ->
    PlayNextInSequence P
    = (mkPlayer [] (CurrentVideoIndex P) (MaxVideoIndex P), [CallAllVideosEnd])
    /\ PlayNextInSequence (fst (PlayNextInSequence P)) = PlayNextInSequence P
    /\ PlayNextInSequence (fst (OnFinishedAllVideos P))
       = (fst (OnFinishedAllVideos P), [CallAllVideosEnd]).
Proof.
  intros P H.
  assert (Hempty : forall i m, PlayNextInSequence (mkPlayer [] i m)
                               = (mkPlayer [] i m, [CallAllVideosEnd])).
  { intros i m. unfold PlayNextInSequence, IsValidIndex.
    cbn [VideoQueue CurrentVideoIndex List.length].
    destruct (Z.leb_spec 0 i); destruct (Z.ltb_spec i (Z.of_nat 0)); simpl in *;
      try lia; reflexivity. }
  assert (Hend : PlayNextInSequence P
                 = (mkPlayer [] (CurrentVideoIndex P) (MaxVideoIndex P),
                    [CallAllVideosEnd])).
  { unfold PlayNextInSequence. now rewrite H. }
  split; [exact Hend|]. split.
  - rewrite Hend. cbn [fst]. apply Hempty.
  - unfold OnFinishedAllVideos. cbn [fst]. apply Hempty.
Qed.

Lemma X26_finished_sequence_stays_finished_witness :
  PlayNextInSequence (mkPlayer DemoQueue 4 3)
  = (mkPlayer [] 4 3, [CallAllVideosEnd]).
Proof.
  exact (proj1 (X26_finished_sequence_stays_finished (mkPlayer DemoQueue 4 3)
                  eq_refl)).
Defined.

Lemma IsEmptyString_false s : s <> EmptyString -> IsEmptyString s = false.
Proof. destruct s; [congruence|reflexivity]. Qed.

(** X27.  A resource with a prologue and a loop converts to two handlers of
    its group, the prologue (not looping) followed by the loop (looping,
    never forced), both carrying the resource's video name; played as a
    queue, [PlayVideos] asks for the prologue, the next step of the sequence
    for the loop and the step after that ends the sequence.  A resource with
    neither path adds no handler and leaves the cache alone. *)
Theorem X27_prologue_then_loop :
  forall (Cache : SourceCache) (R : FVideoResourceData)
         (Opens : FVideoPlayHandler.t -> bool) (P : Player),
    (ProloguePath R <> EmptyString -> LoopPath R <> EmptyString ->
     exists Cache' Prologue Loop,
       ConvertToHandlers Cache R [] = (Cache', [Prologue; Loop])
       /\ FVideoPlayHandler.bLoop Prologue = false
       /\ FVideoPlayHandler.bLoop Loop = true
       /\ FVideoPlayHandler.bForcePlay Loop = false
       /\ FVideoPlayHandler.GroupID Prologue = GroupID R
       /\ FVideoPlayHandler.GroupID Loop = GroupID R
       /\ FVideoPlayHandler.ResultName Prologue = VideoName R
       /\ FVideoPlayHandler.ResultName Loop = VideoName R
       /\ FVideoPlayHandler.MediaSource Prologue
          = FindSource Cache' (KeyOf (GroupID R) false)
       /\ FVideoPlayHandler.MediaSource Loop
          = FindSource Cache' (KeyOf (GroupID R) true)
       /\ PlayVideos Opens P [Prologue; Loop]
          = (mkPlayer [Prologue; Loop] 0 1, [CallPlayVideo Prologue], Opens Prologue)
       /\ PlayNextInSequence (mkPlayer [Prologue; Loop] 0 1)
          = (mkPlayer [Prologue; Loop] 1 1, [CallPlayVideo Loop])
       /\ PlayNextInSequence (mkPlayer [Prologue; Loop] 1 1)
          = (mkPlayer [] 1 1, [CallAllVideosEnd]))
    /\
    (ProloguePath R = EmptyString -> LoopPath R = EmptyString ->
     forall Out, ConvertToHandlers Cache R Out = (Cache, Out)).
Proof.
  intros Cache R Opens P. split.
  - intros Hp Hl. unfold ConvertToHandlers.
    rewrite (IsEmptyString_false _ Hp), (IsEmptyString_false _ Hl). cbn [negb].
    pose proof (X23_media_source_cache_by_key Cache (GroupID R) false
                  (String.append (RootPath R) (ProloguePath R)))
      as (Hfound1 & _ & Hkeep1 & _).
    destruct (FindOrAddMediaSource Cache (GroupID R) false _) as [c1 s1].
    cbn [fst snd] in Hfound1, Hkeep1.
    pose proof (X23_media_source_cache_by_key c1 (GroupID R) true
                  (String.append (RootPath R) (LoopPath R)))
      as (Hfound2 & _ & Hkeep2 & _).
    destruct (FindOrAddMediaSource c1 (GroupID R) true _) as [c2 s2].
    cbn [fst snd] in Hfound2, Hkeep2. cbn [app].
    eexists _, _, _. split; [reflexivity|].
    cbn [FVideoPlayHandler.bLoop FVideoPlayHandler.bForcePlay
         FVideoPlayHandler.GroupID FVideoPlayHandler.ResultName
         FVideoPlayHandler.MediaSource].
    repeat split.
    + symmetry. now apply Hkeep2.
    + symmetry. exact Hfound2.
    + unfold PlayNextInSequence, IsValidIndex, At, PlayVideoAtIndex. simpl.
      now rewrite String.eqb_refl.
  - intros Hp Hl Out. unfold ConvertToHandlers. now rewrite Hp, Hl.
Qed.

Lemma X27_prologue_then_loop_witness :
  exists Cache' Prologue Loop,
    ConvertToHandlers [] (Scene "Intro"%string "intro.mp4"%string "idle.mp4"%string) []
    = (Cache', [Prologue; Loop])
    /\ PlayNextInSequence (mkPlayer [Prologue; Loop] 0 1)
       = (mkPlayer [Prologue; Loop] 1 1, [CallPlayVideo Loop]).
Proof.
  destruct (proj1 (X27_prologue_then_loop [] (Scene "Intro"%string "intro.mp4"%string "idle.mp4"%string)
                     (fun _ => true) (mkPlayer [] (-1) (-1)))
                  ltac:(discriminate) ltac:(discriminate))
    as (c & p & l & Hc & _ & _ & _ & _ & _ & _ & _ & _ & _ & _ & Hn & _).
  exists c, p, l. now split.
Defined.

End VideoPlayerFacts.

(** ** Audio focus *)

Module AudioFocusFacts.
Import VideoPlayer.

Lemma CountCalls_app c l1 l2 :
  CountCalls c (l1 ++ l2) = CountCalls c l1 + CountCalls c l2.
Proof. unfold CountCalls. rewrite filter_app, length_app. lia. Qed.

(** X28.  The sound mix is never popped more often than it was pushed: over
    any sequence of [ApplyVideoAudioFocus] calls the pops, plus one if focus
    is active at the end, do not exceed the pushes, plus one if focus was
    active at the start.  When the world, the sound class and the mix are set
    at every call the two sides are equal, so pushes and pops balance
    exactly and no push is repeated while focus is active. *)
Theorem X28_audio_focus_pushes_and_pops_balance :
  forall (Calls : list (bool * bool)) (bActive : bool),
    CountCalls PopFocusMix (snd (FocusRun bActive Calls))
    + Z.b2z (fst (FocusRun bActive Calls))
    <= CountCalls PushFocusMix (snd (FocusRun bActive Calls)) + Z.b2z bActive
    /\ (Forall (fun Call => fst Call = true) Calls ->
        CountCalls PopFocusMix (snd (FocusRun bActive Calls))
        + Z.b2z (fst (FocusRun bActive Calls))
        = CountCalls PushFocusMix (snd (FocusRun bActive Calls)) + Z.b2z bActive).
Proof.
  induction Calls as [|[bReady bEnable] rest IH]; intros bActive.
  - simpl. split; [lia|intros _; lia].
  - cbn [FocusRun].
    destruct (ApplyVideoAudioFocus bReady bActive bEnable) as [b1 made] eqn:E.
    specialize (IH b1). destruct (FocusRun b1 rest) as [bFinal later].
    cbn [fst snd] in *. rewrite !CountCalls_app. destruct IH as [IHle IHeq].
    set (pops := CountCalls PopFocusMix later) in *.
    set (pushes := CountCalls PushFocusMix later) in *.
    clearbody pops pushes.
    unfold ApplyVideoAudioFocus in E.
    split.
    + destruct bReady, bEnable, bActive; simpl in E; injection E as <- <-;
        cbv [CountCalls filter List.length Z.of_nat Pos.of_succ_nat Z.b2z] in *; lia.
    + intros Hall. inversion Hall as [|? ? Hr Hrest]; subst. simpl in Hr. subst bReady.
      specialize (IHeq Hrest).
      destruct bEnable, bActive; simpl in E; injection E as <- <-;
        cbv [CountCalls filter List.length Z.of_nat Pos.of_succ_nat Z.b2z] in *; lia.
Qed.

Lemma X28_audio_focus_pushes_and_pops_balance_witness :
  CountCalls PopFocusMix
    (snd (FocusRun false [(true, true); (true, true); (true, false); (true, false)]))
  + Z.b2z (fst (FocusRun false [(true, true); (true, true); (true, false);
                                (true, false)]))
  = CountCalls PushFocusMix
      (snd (FocusRun false [(true, true); (true, true); (true, false); (true, false)]))
    + Z.b2z false.
Proof.
  apply (proj2 (X28_audio_focus_pushes_and_pops_balance
                  [(true, true); (true, true); (true, false); (true, false)] false)).
  repeat constructor.
Defined.

End AudioFocusFacts.

(** ** Subtitles: ticking through the cues *)

Module SubtitleFacts.
Import USubtitle.

Lemma CueAt_tickable :
  forall Sub, 0 <= CurrentIndex Sub -> IsTickable Sub = true ->
    exists Cue, CueAt Sub = Some Cue
      /\ skipn (Z.to_nat (CurrentIndex Sub)) (SubtitleCue Sub)
         = Cue :: skipn (Z.to_nat (CurrentIndex Sub + 1)) (SubtitleCue Sub).
Proof.
  intros Sub H0 HT. unfold IsTickable in HT.
  apply andb_true_iff in HT as [_ HN]. apply Z.ltb_lt in HN.
  unfold CueAt. rewrite (proj2 (Z.leb_le _ _) H0), (proj2 (Z.ltb_lt _ _) HN).
  cbn [andb]. unfold Num in HN.
  replace (Z.to_nat (CurrentIndex Sub + 1)) with (Datatypes.S (Z.to_nat (CurrentIndex Sub))) by lia.
  assert (Hn : (Z.to_nat (CurrentIndex Sub) < List.length (SubtitleCue Sub))%nat) by lia.
  clear HN H0. revert Hn.
  generalize (Z.to_nat (CurrentIndex Sub)). generalize (SubtitleCue Sub).
  induction l as [|c l IH]; intros [|n] Hn; simpl in *; try lia.
  - exists c. split; reflexivity.
  - apply IH. lia.
Qed.

Lemma Run_not_attached :
  forall Frames Sub, VideoPlayer Sub = false -> Run Sub Frames = Some (Sub, []).
Proof.
  induction Frames as [|[CurrentTime bDialog] rest IH]; intros Sub HV.
  - reflexivity.
  - cbn [Run]. unfold IsTickable. rewrite HV. cbn [andb]. apply IH, HV.
Qed.

(** One tick under the guard: the state it leaves. *)
Lemma Tick_guarded :
  forall Sub CurrentTime bDialog,
    0 <= CurrentIndex Sub -> IsTickable Sub = true ->
    exists Sub' made, Tick Sub CurrentTime bDialog = Some (Sub', made)
      /\ SubtitleCue Sub' = SubtitleCue Sub
      /\ 0 <= CurrentIndex Sub' <= Num Sub'.
Proof.
  intros Sub CurrentTime bDialog H0 HT.
  destruct (CueAt_tickable Sub H0 HT) as [Cue [HC _]].
  pose proof HT as HT'. unfold IsTickable in HT'.
  apply andb_true_iff in HT' as [HV HN]. apply Z.ltb_lt in HN.
  unfold Tick. rewrite HV, HC. cbn [negb].
  destruct (bIsShowingNarration Sub).
  - destruct (EndTime Cue <=? CurrentTime).
    + destruct (CurrentIndex Sub + 1 >=? Num Sub) eqn:EN.
      * eexists _, _. split; [reflexivity|]. unfold Num in *. cbn. split; [reflexivity|lia].
      * eexists _, _. split; [reflexivity|]. unfold Num in *. cbn. split; [reflexivity|lia].
    + eexists _, _. split; [reflexivity|]. split; [reflexivity|lia].
  - destruct (StartTime Cue <=? CurrentTime).
    + eexists _, _. split; [reflexivity|]. unfold Num in *. cbn. split; [reflexivity|lia].
    + eexists _, _. split; [reflexivity|]. split; [reflexivity|lia].
Qed.

Lemma Run_guarded :
  forall Frames Sub,
    0 <= CurrentIndex Sub ->
    exists Sub' calls, Run Sub Frames = Some (Sub', calls)
      /\ SubtitleCue Sub' = SubtitleCue Sub
      /\ 0 <= CurrentIndex Sub'
      /\ (CurrentIndex Sub <= Num Sub -> CurrentIndex Sub' <= Num Sub').
Proof.
  induction Frames as [|[CurrentTime bDialog] rest IH]; intros Sub H0.
  - exists Sub, []. repeat split; auto.
  - cbn [Run]. destruct (IsTickable Sub) eqn:HT.
    + destruct (Tick_guarded Sub CurrentTime bDialog H0 HT) as [S1 [made [E [HC [H1 H2]]]]].
      rewrite E.
      destruct (IH S1 H1) as [Sub' [later [ER [HC' [H0' HN']]]]].
      rewrite ER. exists Sub', (made ++ later).
      split; [reflexivity|]. split; [congruence|]. split; [assumption|].
      intros _. apply HN', H2.
    + apply IH, H0.
Qed.

(** X29.  Ticking under the [IsTickable] guard never indexes outside the cue
    array: from any state with a non-negative index, every run of frames
    returns, leaves the cues as they are and the index non-negative, and at
    most the number of cues if it started so.  The guard is needed: with a
    live player and the guard false, [Tick] reads [SubtitleCue[CurrentIndex]]
    out of range. *)
Theorem X29_guarded_ticks_stay_in_range :
  forall (Sub : t) (Frames : list (Z * bool)),
    0 <= CurrentIndex Sub ->
    (exists Sub' calls,
        Run Sub Frames = Some (Sub', calls)
        /\ SubtitleCue Sub' = SubtitleCue Sub
        /\ 0 <= CurrentIndex Sub'
        /\ (CurrentIndex Sub <= Num Sub -> CurrentIndex Sub' <= Num Sub'))
    /\ (VideoPlayer Sub = true -> IsTickable Sub = false ->
        forall CurrentTime bDialog, Tick Sub CurrentTime bDialog = None).
Proof.
  intros Sub Frames H0. split.
  - apply Run_guarded, H0.
  - intros HV HT CurrentTime bDialog. unfold IsTickable in HT.
    rewrite HV in HT. cbn [andb] in HT.
    unfold Tick, CueAt. rewrite HV, HT, andb_false_r. reflexivity.
Qed.

Lemma X29_guarded_ticks_stay_in_range_witness :
  (exists Sub' calls,
      Run (Play Loaded true) [(5, true); (12, true); (35, true); (45, false); (70, true); (80, true)]
      = Some (Sub', calls)
      /\ SubtitleCue Sub' = DemoCues
      /\ 0 <= CurrentIndex Sub'
      /\ (CurrentIndex (Play Loaded true) <= Num (Play Loaded true)
          -> CurrentIndex Sub' <= Num Sub'))
  /\ (VideoPlayer (Play (mk [] false 0 false) true) = true ->
      IsTickable (Play (mk [] false 0 false) true) = false ->
      forall CurrentTime bDialog,
        Tick (Play (mk [] false 0 false) true) CurrentTime bDialog = None).
Proof.
  split.
  - apply (proj1 (X29_guarded_ticks_stay_in_range (Play Loaded true)
                    [(5, true); (12, true); (35, true); (45, false); (70, true); (80, true)]
                    ltac:(simpl; lia))).
  - apply (proj2 (X29_guarded_ticks_stay_in_range (Play (mk [] false 0 false) true)
                    [] ltac:(simpl; lia))).
Defined.

(** The calls of a run, closed by [Stop], from any state. *)
Lemma Run_then_Stop :
  forall Frames Sub Sub' calls,
    0 <= CurrentIndex Sub ->
    Forall (fun Frame => snd Frame = true) Frames ->
    Run Sub Frames = Some (Sub', calls) ->
    exists k,
      calls ++ snd (Stop Sub')
      = snd (Stop Sub)
        ++ flat_map CueCalls
             (firstn k (skipn (Z.to_nat (CurrentIndex Sub
                                         + Z.b2z (bIsShowingNarration Sub)))
                              (SubtitleCue Sub))).
Proof.
  induction Frames as [|[CurrentTime bDialog] rest IH];
    intros Sub Sub' calls H0 HF HR.
  - cbn [Run] in HR. injection HR as <- <-. exists 0%nat.
    cbn [firstn flat_map]. rewrite app_nil_r. reflexivity.
  - inversion HF as [|? ? Hd HF']; subst. cbn [snd] in Hd. subst bDialog.
    cbn [Run] in HR. destruct (IsTickable Sub) eqn:HT.
    2:{ apply (IH _ _ _ H0 HF' HR). }
    destruct (CueAt_tickable Sub H0 HT) as [Cue [HC Hskip]].
    pose proof HT as HT'. unfold IsTickable in HT'.
    apply andb_true_iff in HT' as [HV HN]. apply Z.ltb_lt in HN.
    unfold Tick in HR. rewrite HV, HC in HR. cbn [negb] in HR.
    destruct (bIsShowingNarration Sub) eqn:HB.
    + destruct (EndTime Cue <=? CurrentTime).
      * destruct (CurrentIndex Sub + 1 >=? Num Sub) eqn:EN.
        -- rewrite Run_not_attached in HR by reflexivity.
           injection HR as <- <-. exists 0%nat.
           cbn [Stop snd bIsShowingNarration firstn flat_map]. rewrite HB.
           reflexivity.
        -- destruct (Run _ rest) as [[Final later]|] eqn:ER; [|discriminate].
           injection HR as <- <-.
           apply IH in ER; [|cbn; lia|assumption].
           destruct ER as [k Ek]. exists k.
           cbn [Stop snd bIsShowingNarration CurrentIndex SubtitleCue Z.b2z] in *.
           rewrite HB. rewrite Z.add_0_r in Ek.
           cbn [app] in *. rewrite Ek. reflexivity.
      * destruct (Run Sub rest) as [[Final later]|] eqn:ER; [|discriminate].
        injection HR as <- <-.
        apply IH in ER; [|assumption|assumption].
        destruct ER as [k Ek]. exists k. rewrite HB in Ek. exact Ek.
    + destruct (StartTime Cue <=? CurrentTime).
      * destruct (Run _ rest) as [[Final later]|] eqn:ER; [|discriminate].
        injection HR as <- <-.
        apply IH in ER; [|cbn; lia|assumption].
        destruct ER as [k Ek]. exists (Datatypes.S k).
        cbn [Stop snd bIsShowingNarration CurrentIndex SubtitleCue Z.b2z] in *.
        rewrite HB. rewrite Z.add_0_r, Hskip.
        cbn [firstn flat_map app CueCalls] in *.
        rewrite Ek. reflexivity.
      * destruct (Run Sub rest) as [[Final later]|] eqn:ER; [|discriminate].
        injection HR as <- <-.
        apply IH in ER; [|assumption|assumption].
        destruct ER as [k Ek]. exists k. rewrite HB in Ek. exact Ek.
Qed.

(** X30.  From a state that shows no narration, with the dialog widget there
    on every frame, the calls of a run of guarded ticks followed by those of
    [Stop] are: for some [k], the next [k] cues from the current index on, in
    order, each shown once and then closed. *)
Theorem X30_cues_are_shown_in_order_and_closed :
  forall (Sub Sub' : t) (Frames : list (Z * bool)) (calls : list DialogCall),
    0 <= CurrentIndex Sub ->
    bIsShowingNarration Sub = false ->
    Forall (fun Frame => snd Frame = true) Frames ->
    Run Sub Frames = Some (Sub', calls) ->
    exists k,
      calls ++ snd (Stop Sub')
      = flat_map CueCalls
          (firstn k (skipn (Z.to_nat (CurrentIndex Sub)) (SubtitleCue Sub))).
Proof.
  intros Sub Sub' Frames calls H0 HB HF HR.
  destruct (Run_then_Stop _ _ _ _ H0 HF HR) as [k Ek].
  exists k. rewrite Ek. cbn [Stop snd]. rewrite HB.
  cbn [Z.b2z app]. rewrite Z.add_0_r. reflexivity.
Qed.

Lemma X30_cues_are_shown_in_order_and_closed_witness :
  exists k,
    [ShowNarration "Hello"%string; CloseDialogWidget; ShowNarration "World"%string]
    ++ snd (Stop (mk DemoCues true 1 true))
    = flat_map CueCalls (firstn k (skipn (Z.to_nat 0) DemoCues)).
Proof.
  apply (X30_cues_are_shown_in_order_and_closed
           (Play Loaded true) (mk DemoCues true 1 true)
           [(5, true); (12, true); (35, true); (45, true)]
           [ShowNarration "Hello"%string; CloseDialogWidget;
            ShowNarration "World"%string]).
  - simpl; lia.
  - reflexivity.
  - repeat constructor.
  - reflexivity.
Defined.

End SubtitleFacts.
